(** * Calendar heat map (calendar/js/index.js): date-to-grid geometry

    A shallow embedding of the calendar script and of the parts of the
    ECMAScript [Date] object and of d3 (v4) that it calls, followed by the
    properties of the layout arithmetic.

    Conventions of the embedding.
    - A JavaScript [Date] that sits on a local midnight is represented by its
      local day number: the count of civil days since 1 January 1970, an
      integer.  Every [Date] the script builds sits on a local midnight
      ([new Date(y, m, d)], and d3's floored intervals).  Time zones, daylight
      saving and the finite range of [Date] (about 10^8 days on either side of
      1970) are outside the embedding; statements that build a [Date] from a
      year number carry the range as a hypothesis.
    - JavaScript numbers are integers here ([Z]); the script only multiplies
      and adds small integers on the paths that are studied, except for the
      two centring offsets, kept as rationals. *)

From Stdlib Require Import ZArith Lia List Bool Ascii String QArith.
From Stdlib Require Import DecimalString DecimalZ DecimalN DecimalPos.
From Stdlib Require Import Sorting.Sorted.
From stdpp Require Import base option list strings gmap.
From Equations Require Import Equations.
Import ListNotations.

#[local] Open Scope Z_scope.

(** ** ECMAScript Date: day arithmetic (ECMA-262, Date objects) *)

Module JSDate.

(** A [Date] on a local midnight, as its local day number. *)
Abbreviation t := Z.

(** [DaysInYear(y)]. *)
Definition DaysInYear (y : Z) : Z :=
  if negb (y mod 4 =? 0) then 365
  else if negb (y mod 100 =? 0) then 366
  else if negb (y mod 400 =? 0) then 365
  else 366.

(** [InLeapYear], as 0 or 1. *)
Definition InLeapYear (y : Z) : Z := DaysInYear y - 365.

(** [DayFromYear(y)]: day number of 1 January of year [y]. *)
Definition DayFromYear (y : Z) : Z :=
  365 * (y - 1970) + (y - 1969) / 4 - (y - 1901) / 100 + (y - 1601) / 400.

(** [YearFromTime]: the largest [y] with [DayFromYear y <= d].  The
    estimate from the mean length of a year is off by at most one. *)
Definition YearFromDay (d : Z) : Z :=
  let y0 := 1970 + (400 * d) / 146097 in
  if DayFromYear (y0 + 1) <=? d then y0 + 1
  else if DayFromYear y0 <=? d then y0
  else y0 - 1.

Definition DayWithinYear (d : Z) : Z := d - DayFromYear (YearFromDay d).

(** Day within the year at which month [m] (0 = January) starts, for a
    year with leap flag [l]. *)
Definition DaysBeforeMonth (l m : Z) : Z :=
  if m =? 0 then 0
  else if m =? 1 then 31
  else if m =? 2 then 59 + l
  else if m =? 3 then 90 + l
  else if m =? 4 then 120 + l
  else if m =? 5 then 151 + l
  else if m =? 6 then 181 + l
  else if m =? 7 then 212 + l
  else if m =? 8 then 243 + l
  else if m =? 9 then 273 + l
  else if m =? 10 then 304 + l
  else 334 + l.

(** [MonthFromTime], from the day within the year [k] and leap flag [l]. *)
Definition MonthOfYearDay (l k : Z) : Z :=
  if k <? 31 then 0
  else if k <? 59 + l then 1
  else if k <? 90 + l then 2
  else if k <? 120 + l then 3
  else if k <? 151 + l then 4
  else if k <? 181 + l then 5
  else if k <? 212 + l then 6
  else if k <? 243 + l then 7
  else if k <? 273 + l then 8
  else if k <? 304 + l then 9
  else if k <? 334 + l then 10
  else 11.

(** [Date.prototype.getFullYear], [getMonth], [getDate], [getDay]. *)
Definition getFullYear (d : t) : Z := YearFromDay d.

Definition getMonth (d : t) : Z :=
  MonthOfYearDay (InLeapYear (YearFromDay d)) (DayWithinYear d).

Definition getDate (d : t) : Z :=
  DayWithinYear d
  - DaysBeforeMonth (InLeapYear (YearFromDay d)) (getMonth d) + 1.

(** [WeekDay(t) = (Day(t) + 4) modulo 7]: 0 is Sunday, 1 January 1970 was
    a Thursday. *)
Definition getDay (d : t) : Z := (d + 4) mod 7.

(** [MakeDay(year, month, date)]: months outside 0..11 carry into the
    year, [date] counts on from the first of the month (so date 0 is the
    last day of the month before). *)
Definition MakeDay (year month date : Z) : Z :=
  let ym := year + month / 12 in
  let mn := month mod 12 in
  DayFromYear ym + DaysBeforeMonth (InLeapYear ym) mn + date - 1.

(** [new Date(year, month, date)]: a year number from 0 to 99 stands for
    1900 + year. *)
Definition newDate (year month date : Z) : t :=
  let yr := if (0 <=? year) && (year <=? 99) then 1900 + year else year in
  MakeDay yr month date.

(** [setDate(n)], [setMonth(m)] and [setMonth(m, n)]. *)
Definition setDate (d : t) (n : Z) : t :=
  MakeDay (getFullYear d) (getMonth d) n.

Definition setMonth (d : t) (m : Z) : t :=
  MakeDay (getFullYear d) m (getDate d).

Definition setMonthDate (d : t) (m n : Z) : t :=
  MakeDay (getFullYear d) m n.

(** [setFullYear(y)]: no two-digit rule here. *)
Definition setFullYear (d : t) (y : Z) : t :=
  MakeDay y (getMonth d) (getDate d).

End JSDate.

(** ** Facts about the day arithmetic *)

Module JSDateFacts.
Import JSDate.

(** Number of days of month [m] (0 = January) in a year with leap flag
    [l]: the calendar's own table, against which the threshold tables of
    [JSDate] are checked. *)
Definition DaysInMonth (l m : Z) : Z :=
  if m =? 1 then 28 + l
  else if (m =? 3) || (m =? 5) || (m =? 8) || (m =? 10) then 30
  else 31.

Ltac zbool :=
  repeat match goal with
  | |- context [?a =? ?b] => destruct (Z.eqb_spec a b)
  | |- context [?a <? ?b] => destruct (Z.ltb_spec a b)
  | |- context [?a <=? ?b] => destruct (Z.leb_spec a b)
  end; cbn [negb andb orb] in *.

(** Case split of a month index in 0..11 into its twelve values. *)
Ltac month_cases m :=
  let C := fresh "C" in
  assert (C : m = 0 \/ m = 1 \/ m = 2 \/ m = 3 \/ m = 4 \/ m = 5 \/ m = 6 \/
              m = 7 \/ m = 8 \/ m = 9 \/ m = 10 \/ m = 11) by lia;
  repeat (destruct C as [C|C]); subst m.

Ltac tables := cbv [DaysBeforeMonth MonthOfYearDay DaysInMonth Z.eqb Pos.eqb orb].

Lemma DayFromYear_succ y : DayFromYear (y + 1) = DayFromYear y + DaysInYear y.
Proof.
  unfold DayFromYear, DaysInYear. zbool; Z.div_mod_to_equations; lia.
Qed.

Lemma DayFromYear_mono a b : a <= b -> DayFromYear a <= DayFromYear b.
Proof. unfold DayFromYear. intros. Z.div_mod_to_equations. lia. Qed.

Lemma InLeapYear_01 y : InLeapYear y = 0 \/ InLeapYear y = 1.
Proof. unfold InLeapYear, DaysInYear. zbool; lia. Qed.

Lemma YearFromDay_spec d :
  DayFromYear (YearFromDay d) <= d < DayFromYear (YearFromDay d + 1).
Proof.
  unfold YearFromDay.
  set (y0 := 1970 + 400 * d / 146097).
  destruct (Z.leb_spec (DayFromYear (y0 + 1)) d) as [H1|H1].
  - split; [lia|]. revert H1. unfold DayFromYear, y0. intros.
    Z.div_mod_to_equations. lia.
  - destruct (Z.leb_spec (DayFromYear y0) d) as [H2|H2]; [lia|].
    replace (y0 - 1 + 1) with y0 by lia. split; [|lia].
    revert H2. unfold DayFromYear, y0. intros. Z.div_mod_to_equations. lia.
Qed.

Lemma YearFromDay_unique y d :
  DayFromYear y <= d < DayFromYear (y + 1) -> YearFromDay d = y.
Proof.
  intros H. pose proof (YearFromDay_spec d) as S.
  destruct (Z.lt_trichotomy (YearFromDay d) y) as [L|[E|L]]; [|exact E|].
  - pose proof (DayFromYear_mono (YearFromDay d + 1) y). lia.
  - pose proof (DayFromYear_mono (y + 1) (YearFromDay d)). lia.
Qed.

Lemma DayWithinYear_range d :
  0 <= DayWithinYear d < 365 + InLeapYear (YearFromDay d).
Proof.
  unfold DayWithinYear, InLeapYear. pose proof (YearFromDay_spec d) as H.
  rewrite DayFromYear_succ in H. lia.
Qed.

Lemma MonthOfYearDay_range l k : 0 <= MonthOfYearDay l k <= 11.
Proof. unfold MonthOfYearDay. zbool; lia. Qed.

Lemma getMonth_range d : 0 <= getMonth d <= 11.
Proof. apply MonthOfYearDay_range. Qed.

Lemma MonthOfYearDay_bounds l k :
  l = 0 \/ l = 1 -> 0 <= k < 365 + l ->
  DaysBeforeMonth l (MonthOfYearDay l k) <= k
    < DaysBeforeMonth l (MonthOfYearDay l k) + DaysInMonth l (MonthOfYearDay l k).
Proof.
  intros Hl Hk. unfold MonthOfYearDay.
  repeat match goal with
  | |- context [?a <? ?b] => destruct (Z.ltb_spec a b)
  end; tables; lia.
Qed.

Lemma MakeDay_in_range y m n :
  0 <= m <= 11 ->
  MakeDay y m n = DayFromYear y + DaysBeforeMonth (InLeapYear y) m + n - 1.
Proof.
  intros. unfold MakeDay.
  rewrite Z.div_small, Z.mod_small, Z.add_0_r by lia. reflexivity.
Qed.

(** Months outside 0..11 carry into the year. *)
Lemma MakeDay_normal y m n : MakeDay y m n = MakeDay (y + m / 12) (m mod 12) n.
Proof.
  unfold MakeDay.
  rewrite Z.mod_mod by lia.
  rewrite (Z.div_small (m mod 12)) by (apply Z.mod_pos_bound; lia).
  rewrite Z.add_0_r. reflexivity.
Qed.

Lemma MakeDay_date y m n k : MakeDay y m (n + k) = MakeDay y m n + k.
Proof. unfold MakeDay. lia. Qed.

(** A date is rebuilt from its fields; [setDate] moves linearly. *)
Lemma MakeDay_fields d n :
  MakeDay (getFullYear d) (getMonth d) n = d + (n - getDate d).
Proof.
  rewrite MakeDay_in_range by apply getMonth_range.
  unfold getDate, getFullYear, DayWithinYear. lia.
Qed.

Lemma setDate_getDate d k : setDate d (getDate d + k) = d + k.
Proof. unfold setDate. rewrite MakeDay_fields. lia. Qed.

Lemma getDate_range d :
  1 <= getDate d <= DaysInMonth (InLeapYear (getFullYear d)) (getMonth d).
Proof.
  unfold getDate, getMonth, getFullYear.
  pose proof (MonthOfYearDay_bounds _ _ (InLeapYear_01 _) (DayWithinYear_range d)).
  lia.
Qed.

(** The fields of a date built from a month in 0..11 and a day of that
    month are the arguments it was built from. *)
Lemma fields_MakeDay y m n :
  0 <= m <= 11 -> 1 <= n <= DaysInMonth (InLeapYear y) m ->
  getFullYear (MakeDay y m n) = y /\ getMonth (MakeDay y m n) = m
  /\ getDate (MakeDay y m n) = n.
Proof.
  intros Hm Hn. rewrite MakeDay_in_range by lia.
  pose proof (InLeapYear_01 y) as Hl.
  set (l := InLeapYear y) in *.
  assert (Hk : 0 <= DaysBeforeMonth l m + n - 1 < 365 + l).
  { clearbody l. month_cases m; revert Hn; tables; lia. }
  assert (HY : YearFromDay (DayFromYear y + DaysBeforeMonth l m + n - 1) = y).
  { apply YearFromDay_unique. rewrite DayFromYear_succ.
    assert (El : l = DaysInYear y - 365) by reflexivity. lia. }
  unfold getFullYear, getDate, getMonth, DayWithinYear. rewrite !HY. fold l.
  replace (DayFromYear y + DaysBeforeMonth l m + n - 1 - DayFromYear y)
    with (DaysBeforeMonth l m + n - 1) by lia.
  assert (HM : MonthOfYearDay l (DaysBeforeMonth l m + n - 1) = m).
  { clearbody l. clear HY Hk.
    month_cases m; revert Hn; tables; intros Hn; zbool; lia. }
  rewrite HM. repeat split; lia.
Qed.

Lemma MakeDay_next_month y m n :
  0 <= m <= 11 ->
  MakeDay y (m + 1) n = MakeDay y m (DaysInMonth (InLeapYear y) m + n).
Proof.
  intros Hm. destruct (Z.eq_dec m 11) as [->|Hne].
  - rewrite (MakeDay_normal y (11 + 1)).
    change ((11 + 1) / 12) with 1. change ((11 + 1) mod 12) with 0.
    rewrite !MakeDay_in_range by lia. rewrite DayFromYear_succ.
    unfold InLeapYear. tables. lia.
  - rewrite !MakeDay_in_range by lia.
    set (l := InLeapYear y). clearbody l.
    assert (Hm' : 0 <= m <= 10) by lia. clear Hm Hne.
    assert (C : m = 0 \/ m = 1 \/ m = 2 \/ m = 3 \/ m = 4 \/ m = 5 \/ m = 6 \/
                m = 7 \/ m = 8 \/ m = 9 \/ m = 10) by lia.
    repeat (destruct C as [C|C]); subst m;
      match goal with
      | |- context [DaysBeforeMonth _ (?a + 1)] =>
          let v := eval vm_compute in (a + 1) in change (a + 1) with v
      end; tables; lia.
Qed.

(** The first day of any month, also one written with a month index
    outside 0..11, has date 1. *)
Lemma getDate_first y m : getDate (MakeDay y m 1) = 1.
Proof.
  rewrite MakeDay_normal.
  assert (Hm : 0 <= m mod 12 <= 11) by (pose proof (Z.mod_pos_bound m 12); lia).
  apply fields_MakeDay; [exact Hm|].
  pose proof (InLeapYear_01 (y + m / 12)) as Hl.
  set (l := InLeapYear _) in *. clearbody l.
  set (k := m mod 12) in *. clearbody k.
  month_cases k; tables; lia.
Qed.

(** [setDate(1)] is monotone: an earlier day has an earlier (or the same)
    first of the month. *)
Lemma month_start_mono a b : a <= b -> setDate a 1 <= setDate b 1.
Proof.
  intros Hab. unfold setDate. rewrite !MakeDay_fields.
  destruct (Z_le_gt_dec (a + (1 - getDate a)) (b + (1 - getDate b))) as [|Hgt];
    [assumption|exfalso].
  pose proof (getDate_range a) as Ha. pose proof (getDate_range b) as Hb.
  (* the first of a's month would be a later day of b's month *)
  set (k := a + (1 - getDate a) - (b + (1 - getDate b))) in *.
  assert (Hk : 1 <= k) by (unfold k; lia).
  assert (E : a + (1 - getDate a)
              = MakeDay (getFullYear b) (getMonth b) (1 + k)).
  { rewrite MakeDay_fields. unfold k. lia. }
  pose proof (fields_MakeDay (getFullYear b) (getMonth b) (1 + k)
                (getMonth_range b)) as F.
  assert (D1 : getDate (a + (1 - getDate a)) = 1).
  { rewrite <- (MakeDay_fields a 1). apply getDate_first. }
  rewrite E in D1. destruct F as (_ & _ & F); [unfold k; lia|]. lia.
Qed.

(** One month on and back to the first of the month is strictly later:
    d3's month interval advances. *)
Lemma month_progress d : d < setDate (setMonth d (getMonth d + 1)) 1.
Proof.
  pose proof (getMonth_range d) as Hm. pose proof (getDate_range d) as Hd.
  unfold setMonth. rewrite MakeDay_next_month by lia.
  set (first' := MakeDay (getFullYear d) (getMonth d + 1) 1).
  assert (E1 : first' = d + (DaysInMonth (InLeapYear (getFullYear d)) (getMonth d)
                            + 1 - getDate d)).
  { unfold first'. rewrite MakeDay_next_month by lia. apply MakeDay_fields. }
  assert (E2 : setDate first' 1 = first').
  { unfold setDate. rewrite MakeDay_fields. unfold first'.
    rewrite getDate_first. lia. }
  rewrite MakeDay_fields.
  set (d' := d + _).
  assert (Hle : first' <= d') by (unfold d'; lia).
  apply month_start_mono in Hle. rewrite E2 in Hle. lia.
Qed.

End JSDateFacts.


(** ** JavaScript numbers as strings *)

Module JS.

(** [Number.MAX_SAFE_INTEGER], 2^53 - 1.  The integers up to it are
    JavaScript numbers, and sums and products of them that stay below it are
    exact; beyond it the numbers of the script would be rounded, which the
    embedding does not follow. *)
Definition MAX_SAFE_INTEGER : Z := 9007199254740991.

(** [String(n)] / ["" + n] for an integer [n]: decimal digits, with a
    minus sign for negative numbers.  This is what JavaScript prints for
    the integers up to [MAX_SAFE_INTEGER] (it turns to exponent notation
    from 10^21 on); properties that print a number carry that bound. *)
Definition toString (n : Z) : string :=
  DecimalString.NilEmpty.string_of_int (Z.to_int n).

End JS.

(** ** d3 (v4): d3-array's [range] and d3-time's intervals *)

Module D3.
Import JSDate JSDateFacts.

(** [d3.range(start, stop)], step 1:
    [n = max(0, ceil(stop - start))], then [start + i] for [i < n]. *)
Definition range (start stop : Z) : list Z :=
  let n := Z.to_nat (Z.max 0 (stop - start)) in
  map (fun i => start + Z.of_nat i) (seq 0 n).

(** An interval of d3-time, [newInterval(floori, offseti, count)]: [floori]
    rounds a date down to the interval's boundary, [offseti] moves it by a
    number of intervals. *)
Record interval := Interval {
  floori : t -> t;
  offseti : t -> Z -> t;
  counti : t -> t -> Z
}.

(** [d3.timeDay]: floor is [setHours(0,0,0,0)], nothing to do on a
    midnight; offset is [setDate(getDate() + step)]. *)
Definition timeDay : interval :=
  {| floori d := d;
     offseti d step := setDate d (getDate d + step);
     counti a b := b - a |}.

(** [d3.timeWeek], that is [d3.timeSunday = weekday(0)]: floor is
    [setDate(getDate() - (getDay() + 7 - 0) % 7)]; count is the
    difference in weeks. *)
Definition timeWeek : interval :=
  {| floori d := setDate d (getDate d - (getDay d + 7 - 0) mod 7);
     offseti d step := setDate d (getDate d + step * 7);
     counti a b := (b - a) / 7 |}.

(** [d3.timeMonth]: floor is [setDate(1)], offset is
    [setMonth(getMonth() + step)]. *)
Definition timeMonth : interval :=
  {| floori d := setDate d 1;
     offseti d step := setMonth d (getMonth d + step);
     counti a b := getMonth b - getMonth a
                   + (getFullYear b - getFullYear a) * 12 |}.

(** [d3.timeYear]: floor is [setMonth(0, 1)], offset is
    [setFullYear(getFullYear() + step)]. *)
Definition timeYear : interval :=
  {| floori d := setMonthDate d 0 1;
     offseti d step := setFullYear d (getFullYear d + step);
     counti a b := getFullYear b - getFullYear a |}.

(** [interval(date)], also [interval.floor]. *)
Definition floor (i : interval) (d : t) : t := floori i d.

(** [interval.ceil(date)]: [floori(date - 1), offseti(date, 1), floori(date)].
    The [date - 1] of the source is one millisecond earlier, a time of the
    day before; the floors only look at the day. *)
Definition ceil (i : interval) (d : t) : t :=
  floori i (offseti i (floori i (d - 1)) 1).

(** [interval.count(start, end)]: both ends floored, then counted. *)
Definition count (i : interval) (start stop : t) : Z :=
  counti i (floori i start) (floori i stop).

(** An interval whose step forward really moves forward; [interval.range]
    loops until the date reaches [stop]. *)
Class Advances (i : interval) :=
  advances : forall d : t, d < floori i (offseti i d 1).

#[global] Instance timeDay_advances : Advances timeDay.
Proof. intros d. cbn. rewrite setDate_getDate. lia. Qed.

#[global] Instance timeMonth_advances : Advances timeMonth.
Proof. intros d. cbn. apply month_progress. Qed.

(** The loop of [interval.range]:
    [do range.push(start); while (offseti(start, 1), floori(start), start < stop)]. *)
Equations? range_loop (i : interval) `{!Advances i} (start stop : t) : list t
  by wf (Z.to_nat (stop - start)) lt :=
  range_loop i start stop
    with Z_lt_dec (floori i (offseti i start 1)) stop := {
    | left _ := start :: range_loop i (floori i (offseti i start 1)) stop;
    | right _ := [start] }.
Proof. pose proof (advances start). lia. Qed.

(** [interval.range(start, stop)], step 1. *)
Definition interval_range (i : interval) `{!Advances i} (start stop : t) : list t :=
  let start := ceil i start in
  if negb (start <? stop) then [] else range_loop i start stop.

Definition timeDays := interval_range timeDay.
Definition timeMonths := interval_range timeMonth.

(** d3-time-format's [pad(value, fill, width)]: the sign, then the digits
    filled up to [width] characters. *)
Definition pad (value : Z) (fill : ascii) (width : nat) : string :=
  let sign := if value <? 0 then "-" else "" in
  let digits := JS.toString (if value <? 0 then - value else value) in
  let len := String.length digits in
  sign +:+ (if (len <? width)%nat
            then string_of_list_ascii (replicate (width - len) fill) +:+ digits
            else digits).

(** [d3.timeFormat("%Y-%m-%d")]: [%Y] is [pad(getFullYear() % 10000, "0", 4)]
    (the remainder of JavaScript takes the sign of the year), [%m] is
    [pad(getMonth() + 1, "0", 2)], [%d] is [pad(getDate(), "0", 2)]. *)
Definition timeFormat_Ymd (d : t) : string :=
  pad (Z.rem (getFullYear d) 10000) "0" 4
  +:+ "-" +:+ pad (getMonth d + 1) "0" 2
  +:+ "-" +:+ pad (getDate d) "0" 2.

(** [d3.scaleQuantize().domain([x0, x1]).range(r)] on integers: the
    thresholds are [((i + 1) * x1 - (i - n) * x0) / (n + 1)] for [i < n],
    [n = r.length - 1], and the value is [r[bisect(thresholds, x)]], the
    number of thresholds not above [x]. *)
Definition quantize_thresholds (x0 x1 : Z) (n : nat) : list Z :=
  map (fun i => ((Z.of_nat i + 1) * x1 - (Z.of_nat i - Z.of_nat n) * x0)
                / (Z.of_nat n + 1)) (seq 0 n).

Definition bisect (thresholds : list Z) (x : Z) : nat :=
  length (filter (fun th => th <= x) thresholds).

Definition scaleQuantize {A} (x0 x1 : Z) (r : list A) (x : Z) : option A :=
  r !! bisect (quantize_thresholds x0 x1 (length r - 1)) x.

End D3.

(** ** SVG path data, the fragment the script writes

    The [d] attribute of a [<path>]: absolute commands [M x,y], [H x],
    [V y] and [Z], with unsigned decimal integers as coordinates. *)

Module Svg.

Inductive command :=
| MoveTo (x y : Z)
| HLineTo (x : Z)
| VLineTo (y : Z)
| ClosePath.

Definition point : Type := Z * Z.

(** The value of a decimal digit character. *)
Definition digit (c : ascii) : option Z :=
  let n := Z.of_N (N_of_ascii c) in
  if (48 <=? n) && (n <=? 57) then Some (n - 48) else None.

(** What the reader of path data is in the middle of: the argument that
    is being read, and the digits read for it so far. *)
Inductive slot := SlotMx | SlotMy (x : Z) | SlotH | SlotV.

Inductive pending := Idle | Reading (k : slot) (acc : option Z).

Definition push (acc : option Z) (k : Z) : option Z :=
  Some (10 * default 0 acc + k).

(** The command that is complete when the next command letter, or the end
    of the string, is met. *)
Definition flush (p : pending) : option (list command) :=
  match p with
  | Idle => Some []
  | Reading (SlotMy x) (Some y) => Some [MoveTo x y]
  | Reading SlotH (Some x) => Some [HLineTo x]
  | Reading SlotV (Some y) => Some [VLineTo y]
  | _ => None
  end.

Fixpoint parse_from (p : pending) (s : string) : option (list command) :=
  match s with
  | EmptyString => flush p
  | String c s' =>
      match digit c with
      | Some k =>
          match p with
          | Reading sl acc => parse_from (Reading sl (push acc k)) s'
          | Idle => None
          end
      | None =>
          if Ascii.eqb c "," then
            match p with
            | Reading SlotMx (Some x) => parse_from (Reading (SlotMy x) None) s'
            | _ => None
            end
          else
            done ← flush p;
            if Ascii.eqb c "M" then
              rest ← parse_from (Reading SlotMx None) s'; Some (done ++ rest)
            else if Ascii.eqb c "H" then
              rest ← parse_from (Reading SlotH None) s'; Some (done ++ rest)
            else if Ascii.eqb c "V" then
              rest ← parse_from (Reading SlotV None) s'; Some (done ++ rest)
            else if Ascii.eqb c "Z" then
              rest ← parse_from Idle s'; Some (done ++ ClosePath :: rest)
            else None
      end
  end.

(** The commands a path description denotes, if it is well formed. *)
Definition parse (s : string) : option (list command) := parse_from Idle s.

(** The points a pen visits: one per command.  [start] is the first point
    of the current subpath, where [Z] returns to; [cur] is the current
    point. *)
Fixpoint trace (start cur : point) (cmds : list command) : list point :=
  match cmds with
  | [] => []
  | MoveTo x y :: r => (x, y) :: trace (x, y) (x, y) r
  | HLineTo x :: r => (x, snd cur) :: trace start (x, snd cur) r
  | VLineTo y :: r => (fst cur, y) :: trace start (fst cur, y) r
  | ClosePath :: r => start :: trace start start r
  end.

Definition points (cmds : list command) : list point := trace (0, 0) (0, 0) cmds.

End Svg.

(** ** The calendar script: grid geometry *)

Module Calendar.
Import JSDate.

Section Grid.

(** The size of each day cell, in pixels: the [cellSize] the nested
    functions of the script close over. *)
Variable cellSize : Z.

(** Week number of the date, 0 for the first week of the year. *)
Definition getWeekNumber (date : JSDate.t) : Z :=
  D3.count D3.timeWeek (D3.floor D3.timeYear date) date.

(** Day number of the date, 0 for Sunday, 6 for Saturday. *)
Definition getDayNumber (date : JSDate.t) : Z := getDay date.

(** Top-left corner of the rectangle of the date. *)
Definition getX (date : JSDate.t) : Z := getWeekNumber date * cellSize.

Definition getY (date : JSDate.t) : Z := getDayNumber date * cellSize.

(** All the days of the year. *)
Definition getAllDaysInYear (year : Z) : list JSDate.t :=
  D3.timeDays (newDate year 0 1) (newDate (year + 1) 0 1).

(** All the months of the year, each as its first day. *)
Definition getAllMonthsInYear (year : Z) : list JSDate.t :=
  D3.timeMonths (newDate year 0 1) (newDate (year + 1) 0 1).

(** The expression assigned to [path], as a function of the four numbers
    it is built from:
    [M{0.x},{0.y}H{1.x}V{2.y}H{3.x}V{4.y}H{5.x}V{6.y}H{7.x}Z].
    The products are those of the script as long as they are integers up
    to [JS.MAX_SAFE_INTEGER]; the week numbers being at most 53, that is
    for an integer [cellSize] with [54 * cellSize <= JS.MAX_SAFE_INTEGER]. *)
Definition pathDescription (thisMonthWeekOfYear thisMonthDayOfWeek
    nextMonthWeekOfYear nextMonthDayOfWeek : Z) : string :=
  "M" +:+ JS.toString ((thisMonthWeekOfYear + 1) * cellSize)
      +:+ "," +:+ JS.toString (thisMonthDayOfWeek * cellSize)
  +:+ "H" +:+ JS.toString (thisMonthWeekOfYear * cellSize)
  +:+ "V" +:+ JS.toString (7 * cellSize)
  +:+ "H" +:+ JS.toString (nextMonthWeekOfYear * cellSize)
  +:+ "V" +:+ JS.toString ((nextMonthDayOfWeek + 1) * cellSize)
  +:+ "H" +:+ JS.toString ((nextMonthWeekOfYear + 1) * cellSize)
  +:+ "V" +:+ JS.toString 0
  +:+ "H" +:+ JS.toString ((thisMonthWeekOfYear + 1) * cellSize)
  +:+ "Z".

(** The path description of the outline of a month. *)
Definition getPathDescriptionForMonth (month : JSDate.t) : string :=
  let nextMonth := newDate (getFullYear month) (getMonth month + 1) 0 in
  let thisMonthDayOfWeek := getDay month in
  let thisMonthWeekOfYear :=
    D3.count D3.timeWeek (D3.floor D3.timeYear month) month in
  let nextMonthDayOfWeek := getDay nextMonth in
  let nextMonthWeekOfYear :=
    D3.count D3.timeWeek (D3.floor D3.timeYear nextMonth) nextMonth in
  pathDescription thisMonthWeekOfYear thisMonthDayOfWeek
    nextMonthWeekOfYear nextMonthDayOfWeek.

End Grid.

(** *** The page and the script's effects on it

    The part of the document the script builds: the [<svg>] children of
    [#calendar], one per year, each with a [<g>] that holds a [<text>], the
    day [<rect>]s (each with [<title>] children) and the month [<path>]s.
    A d3 selection is a list of positions in that tree; the methods that
    set attributes change the elements in place. *)

(** A CSV row and the entry kept for a date.  [d3.csv] reads every field
    as a string; the [Value] column is held as the number the colour scale
    coerces it to. *)
Record Entry := { Value : Z; Name : string }.

Record CsvRow := { row_Date : string; row_Value : Z; row_Name : string }.

Record Title := { title_datum : string; title_text : string }.

Record DayRect := {
  rect_class : string;
  rect_width : Z;
  rect_height : Z;
  rect_x : Z;
  rect_y : Z;
  rect_datum : string;
  rect_titles : list Title
}.

Record MonthPath := { path_class : string; path_datum : JSDate.t; path_d : string }.

Record YearText := {
  text_translate : Q * Q;
  text_rotate : Z;
  text_anchor : string;
  text_content : string
}.

Record YearSvg := {
  svg_datum : Z;
  svg_width : Z;
  svg_height : Z;
  svg_class : string;
  g_translate : Q * Q;
  g_texts : list YearText;
  g_days : list DayRect;
  g_months : list MonthPath
}.

(** The page: the [<svg>] elements inside [#calendar] ([None] when the
    page has no such element), and what was written to the console. *)
Record page := {
  calendar : option (list YearSvg);
  console : list (gmap string Entry)
}.

(** An error object handed to the load callback. *)
Record ErrorObject := { message : string }.

Inductive Exn := LoadError (e : ErrorObject) | TypeError.

(** A run of script code from a page: it returns, or throws, and leaves a
    page behind either way. *)
Inductive outcome (A : Type) :=
| Returned (a : A) (p : page)
| Thrown (e : Exn) (p : page).
Arguments Returned {A} a p.
Arguments Thrown {A} e p.

Definition Script (A : Type) : Type := page -> outcome A.

#[global] Instance Script_ret : MRet Script := fun A a p => Returned a p.

#[global] Instance Script_bind : MBind Script := fun A B f m p =>
  match m p with
  | Returned a p' => f a p'
  | Thrown e p' => Thrown e p'
  end.

Definition throw {A} (e : Exn) : Script A := fun p => Thrown e p.

Definition console_log (v : gmap string Entry) : Script unit := fun p =>
  Returned () {| calendar := calendar p; console := console p ++ [v] |}.

(** [selection.each]: run [f] on the elements of the selection in order. *)
Fixpoint each {A} (sel : list A) (f : A -> Script unit) : Script unit :=
  match sel with
  | [] => mret ()
  | a :: rest => _ ← f a; each rest f
  end.

Definition set_svg_datum (y : Z) (g : YearSvg) : YearSvg :=
  {| svg_datum := y; svg_width := svg_width g; svg_height := svg_height g;
     svg_class := svg_class g; g_translate := g_translate g;
     g_texts := g_texts g; g_days := g_days g; g_months := g_months g |}.

Definition set_g_texts (l : list YearText) (g : YearSvg) : YearSvg :=
  {| svg_datum := svg_datum g; svg_width := svg_width g;
     svg_height := svg_height g; svg_class := svg_class g;
     g_translate := g_translate g;
     g_texts := l; g_days := g_days g; g_months := g_months g |}.

Definition set_g_days (l : list DayRect) (g : YearSvg) : YearSvg :=
  {| svg_datum := svg_datum g; svg_width := svg_width g;
     svg_height := svg_height g; svg_class := svg_class g;
     g_translate := g_translate g;
     g_texts := g_texts g; g_days := l; g_months := g_months g |}.

Definition set_g_months (l : list MonthPath) (g : YearSvg) : YearSvg :=
  {| svg_datum := svg_datum g; svg_width := svg_width g;
     svg_height := svg_height g; svg_class := svg_class g;
     g_translate := g_translate g;
     g_texts := g_texts g; g_days := g_days g; g_months := l |}.

Definition set_rect_class (c : string) (r : DayRect) : DayRect :=
  {| rect_class := c; rect_width := rect_width r; rect_height := rect_height r;
     rect_x := rect_x r; rect_y := rect_y r; rect_datum := rect_datum r;
     rect_titles := rect_titles r |}.

Definition set_rect_titles (l : list Title) (r : DayRect) : DayRect :=
  {| rect_class := rect_class r; rect_width := rect_width r;
     rect_height := rect_height r; rect_x := rect_x r; rect_y := rect_y r;
     rect_datum := rect_datum r; rect_titles := l |}.

(** The [<g>] of the [i]-th [<svg>], and the [k]-th day [<rect>] in it. *)
Definition group_at (i : nat) (p : page) : option YearSvg :=
  svgs ← calendar p; svgs !! i.

Definition rect_at (path : nat * nat) (p : page) : option DayRect :=
  g ← group_at path.1 p; g_days g !! path.2.

(** Change one element in place. *)
Definition update_group (i : nat) (f : YearSvg -> YearSvg) : Script unit :=
  fun p => Returned () {| calendar := alter f i <$> calendar p;
                          console := console p |}.

Definition update_rect (path : nat * nat) (f : DayRect -> DayRect) : Script unit :=
  update_group path.1 (fun g => set_g_days (alter f path.2 (g_days g)) g).

Definition read_group (i : nat) : Script (option YearSvg) :=
  fun p => Returned (group_at i p) p.

Definition read_rect (path : nat * nat) : Script (option DayRect) :=
  fun p => Returned (rect_at path p) p.

(** Generate one [<svg>] per year, each containing a [<g>]; the selection
    of the generated elements is returned.  The data join of
    [selectAll("svg").data(...)] is by position: [<svg>] elements already in
    [#calendar] receive the first years as their data, and [enter()] holds
    the years left over. *)
Definition generateYearGroups (width height cellSize : Z) : Script (list nat) :=
  let getOffsetX : Q := (inject_Z (width - cellSize * 53) / 2)%Q in
  let getOffsetY : Q := inject_Z (height - cellSize * 7 - 1) in
  fun p =>
    match calendar p with
    | None => Returned [] p
    | Some svgs =>
        let years := D3.range 2016 2100 in
        let bound :=
          imap (fun i g => from_option (fun y => set_svg_datum y g) g (years !! i))
               svgs in
        let entered :=
          (fun year =>
             {| svg_datum := year; svg_width := width; svg_height := height;
                svg_class := "year"; g_translate := (getOffsetX, getOffsetY);
                g_texts := []; g_days := []; g_months := [] |})
            <$> drop (length svgs) years in
        Returned (seq (length svgs) (length entered))
                 {| calendar := Some (bound ++ entered); console := console p |}
    end.

(** Attach a [<text>] to each [<g>], with the year as its text. *)
Definition attachTextToYearGroups (yearGroups : list nat) (cellSize : Z)
  : Script unit :=
  each yearGroups (fun i =>
    update_group i (fun g =>
      set_g_texts
        (g_texts g ++
           [{| text_translate :=
                 (inject_Z (-6), (inject_Z (cellSize * 7) / 2)%Q);
               text_rotate := -90;
               text_anchor := "middle";
               text_content := JS.toString (svg_datum g) |}]) g)).

(** Generate one [<rect class="day">] for each day of each year, with the
    formatted date as its data.  The join with the (absent) [.day] elements
    of the group is by position. *)
Definition generateDayRects (yearGroups : list nat) (cellSize : Z)
  : Script (list (nat * nat)) :=
  sels ← mapM (fun i =>
      og ← read_group i;
      match og with
      | None => mret []
      | Some g =>
          let dates := drop (length (g_days g)) (getAllDaysInYear (svg_datum g)) in
          let rects :=
            (fun date =>
               {| rect_class := "day";
                  rect_width := cellSize; rect_height := cellSize;
                  rect_x := getX cellSize date; rect_y := getY cellSize date;
                  rect_datum := D3.timeFormat_Ymd date;
                  rect_titles := [] |}) <$> dates in
          _ ← update_group i (fun g => set_g_days (g_days g ++ rects) g);
          mret ((fun k => (i, k)) <$> seq (length (g_days g)) (length rects))
      end) yearGroups;
  mret (concat sels).

(** Attach a [<title>] to each day rectangle, with the data string of the
    rectangle as its text. *)
Definition attachTitlesToDayRects (dayRects : list (nat * nat))
    (data : gmap string Entry) : Script unit :=
  each dayRects (fun path =>
    update_rect path (fun r =>
      set_rect_titles
        (rect_titles r ++
           [{| title_datum := rect_datum r; title_text := rect_datum r |}]) r)).

(** Generate one [<path class="month">] for each month of each year. *)
Definition appendMonthPathsToYearGroups (yearGroups : list nat) (cellSize : Z)
  : Script unit :=
  each yearGroups (fun i =>
    update_group i (fun g =>
      let months :=
        drop (length (g_months g)) (getAllMonthsInYear (svg_datum g)) in
      set_g_months
        (g_months g ++
           ((fun month =>
               {| path_class := "month"; path_datum := month;
                  path_d := getPathDescriptionForMonth cellSize month |})
              <$> months)) g)).

Section Update.

(** The nested map built from the CSV rows. *)
Variable data : gmap string Entry.

(** The scale from values 0..100 to one of ten colour classes. *)
Definition getColorScale : Z -> option string :=
  D3.scaleQuantize 0 100
    ((fun int => "color" +:+ JS.toString int) <$> D3.range 0 10).

(** Whether the date string exists in the data set. *)
Definition isRectDataInCsvData (dateString : string) : bool :=
  bool_decide (is_Some (data !! dateString)).

(** The class attribute for a rectangle with the given date string;
    [None] when [data.get(dateString)] is undefined and reading its
    [Value] throws. *)
Definition getRectClass (dateString : string) : option string :=
  e ← data !! dateString;
  c ← getColorScale (Value e);
  Some ("day " +:+ c).

(** The title for a rectangle with the given date string; it also logs
    the data. *)
Definition getRectTitle (dateString : string) : option string :=
  e ← data !! dateString;
  Some (dateString +:+ ": " +:+ Name e).

(** Update the class attribute and the [<title>] of each day rectangle
    that appears in the data set:
    [dayRects.filter(isRectDataInCsvData).attr("class", getRectClass)
             .select("title").text(getRectTitle)]. *)
Definition updateClassAndTitleForDayRects (dayRects : list (nat * nat))
  : Script unit :=
  (* .filter( isRectDataInCsvData ) *)
  filtered ← mapM (fun path =>
      o ← read_rect path;
      mret (match o with
            | Some r => if isRectDataInCsvData (rect_datum r) then [path] else []
            | None => []
            end)) dayRects;
  let filtered := concat filtered in
  (* .attr( "class", getRectClass ) *)
  _ ← each filtered (fun path =>
      o ← read_rect path;
      match o with
      | Some r =>
          match getRectClass (rect_datum r) with
          | Some c => update_rect path (set_rect_class c)
          | None => throw TypeError
          end
      | None => mret ()
      end);
  (* .select( "title" ): the first <title> of each, which takes over the
     data of its rectangle *)
  titles ← mapM (fun path =>
      o ← read_rect path;
      match o with
      | Some r =>
          match rect_titles r with
          | first :: others =>
              _ ← update_rect path
                    (set_rect_titles
                       ({| title_datum := rect_datum r;
                           title_text := title_text first |} :: others));
              mret [path]
          | [] => mret []
          end
      | None => mret []
      end) filtered;
  let titles := concat titles in
  (* .text( getRectTitle ) *)
  each titles (fun path =>
    o ← read_rect path;
    match o with
    | Some r =>
        match rect_titles r with
        | first :: others =>
            _ ← console_log data;
            match getRectTitle (title_datum first) with
            | Some text =>
                update_rect path
                  (set_rect_titles
                     ({| title_datum := title_datum first;
                         title_text := text |} :: others))
            | None => throw TypeError
            end
        | [] => mret ()
        end
    | None => mret ()
    end).

End Update.

(** The key of a CSV row, and the value kept for the rows of one key: the
    [Value] and [Name] of the first of them. *)
Definition getDataObjectKey (dataObject : CsvRow) : string := row_Date dataObject.

Definition getDataObjectValue (first : CsvRow) (others : list CsvRow) : Entry :=
  {| Value := row_Value first; Name := row_Name first |}.

(** [d3.nest().key(k).rollup(r).map(rows)]: the rows are grouped by key, in
    their order, and each group is rolled up. *)
Definition nest_map (rows : list CsvRow) : gmap string Entry :=
  foldr (fun row m =>
           <[getDataObjectKey row :=
               getDataObjectValue row
                 (filter (fun r => getDataObjectKey r = getDataObjectKey row) rows)]> m)
        ∅ rows.

(** Transform the CSV rows into a nested map (and log it). *)
Definition transformCsvData (csv : list CsvRow) : Script (gmap string Entry) :=
  let hello := nest_map csv in
  _ ← console_log hello;
  mret hello.

(** Render a calendar using the data in the nested map. *)
Definition render (data : gmap string Entry) : Script unit :=
  let cellSize := 17 in
  let height := 136 in
  let width := 960 in
  yearGroups ← generateYearGroups width height cellSize;
  _ ← attachTextToYearGroups yearGroups cellSize;
  dayRects ← generateDayRects yearGroups cellSize;
  _ ← attachTitlesToDayRects dayRects data;
  _ ← appendMonthPathsToYearGroups yearGroups cellSize;
  updateClassAndTitleForDayRects data dayRects.

(** The callback given to [d3.csv]: load, transform, render. *)
Definition csv_callback (err : option ErrorObject) (csv : list CsvRow)
  : Script unit :=
  match err with
  | Some e => throw (LoadError e)
  | None =>
      data ← transformCsvData csv;
      render data
  end.

End Calendar.

(** * Properties *)

(** ** The calendar's own notions, for stating the properties *)

Module CalendarSpec.
Import JSDate.

(** Gregorian leap years. *)
Definition isLeapYear (y : Z) : bool :=
  (y mod 4 =? 0) && (negb (y mod 100 =? 0) || (y mod 400 =? 0)).

Inductive Weekday :=
| Sunday | Monday | Tuesday | Wednesday | Thursday | Friday | Saturday.

(** The index of a weekday on the grid: 0 for Sunday up to 6 for Saturday. *)
Definition weekdayIndex (w : Weekday) : Z :=
  match w with
  | Sunday => 0 | Monday => 1 | Tuesday => 2 | Wednesday => 3
  | Thursday => 4 | Friday => 5 | Saturday => 6
  end.

(** The weekday of the civil date of year [y], month [m] (0 = January) and
    day [q], by Zeller's congruence for the Gregorian calendar: January and
    February count as months 13 and 14 of the year before, and the
    congruence yields 0 for Saturday. *)
Definition zellerCongruence (y m q : Z) : Z :=
  let m' := if m <? 2 then m + 13 else m + 1 in
  let y' := if m <? 2 then y - 1 else y in
  let K := y' mod 100 in
  let J := y' / 100 in
  (q + 13 * (m' + 1) / 5 + K + K / 4 + J / 4 + 5 * J) mod 7.

Definition weekdayOfCivil (y m q : Z) : Weekday :=
  let h := zellerCongruence y m q in
  if h =? 0 then Saturday
  else if h =? 1 then Sunday
  else if h =? 2 then Monday
  else if h =? 3 then Tuesday
  else if h =? 4 then Wednesday
  else if h =? 5 then Thursday
  else Friday.

(** The days after [j] up to and including [d]. *)
Definition daysAfter (j d : Z) : list Z :=
  map (fun i => j + 1 + Z.of_nat i) (seq 0 (Z.to_nat (d - j))).

(** The number of week boundaries crossed on the way from day [j] to day
    [d]: a boundary is crossed on entering a Sunday, the first day of a
    Sunday-to-Saturday week. *)
Definition weekBoundariesCrossed (j d : Z) : Z :=
  Z.of_nat (length (filter (fun t => getDay t = 0) (daysAfter j d))).

(** [d] is 1 January of year [y]; 31 December of year [y]. *)
Definition isJanuary1 (y d : Z) : Prop :=
  getFullYear d = y /\ getMonth d = 0 /\ getDate d = 1.

Definition isDecember31 (y d : Z) : Prop :=
  getFullYear d = y /\ getMonth d = 11 /\ getDate d = 31.

(** [days] enumerates year [y]: 365 dates, 366 in a leap year, strictly
    ascending, from 1 January to 31 December, exactly the dates of [y]. *)
Definition enumeratesYear (y : Z) (days : list Z) : Prop :=
  length days = (if isLeapYear y then 366 else 365)%nat
  /\ StronglySorted Z.lt days
  /\ (exists first, head days = Some first /\ isJanuary1 y first)
  /\ (exists lst, last days = Some lst /\ isDecember31 y lst)
  /\ (forall d, d ∈ days <-> getFullYear d = y).

(** [l] is the last day of the month that [d] lies in. *)
Definition isLastDayOfMonthOf (d l : Z) : Prop :=
  getFullYear l = getFullYear d /\ getMonth l = getMonth d
  /\ d <= l /\ getMonth (l + 1) <> getMonth d.

End CalendarSpec.

(** ** Week and day numbers *)

Module GridFacts.
Import JSDate JSDateFacts Calendar CalendarSpec.

Lemma isLeapYear_InLeapYear y : InLeapYear y = if isLeapYear y then 1 else 0.
Proof. unfold InLeapYear, DaysInYear, isLeapYear. zbool; lia. Qed.

Lemma timeYear_floor d : D3.floor D3.timeYear d = DayFromYear (getFullYear d).
Proof.
  change (D3.floor D3.timeYear d) with (setMonthDate d 0 1).
  unfold setMonthDate. rewrite MakeDay_in_range by lia.
  change (DaysBeforeMonth (InLeapYear (getFullYear d)) 0) with 0. lia.
Qed.

Lemma timeWeek_floori d : D3.floori D3.timeWeek d = d - getDay d.
Proof.
  change (D3.floori D3.timeWeek d)
    with (setDate d (getDate d - (getDay d + 7 - 0) mod 7)).
  replace (getDate d - (getDay d + 7 - 0) mod 7) with (getDate d + - getDay d).
  - rewrite setDate_getDate. lia.
  - unfold getDay. Z.div_mod_to_equations. lia.
Qed.

Lemma timeWeek_count a b : D3.count D3.timeWeek a b = (b + 4) / 7 - (a + 4) / 7.
Proof.
  change (D3.count D3.timeWeek a b)
    with ((D3.floori D3.timeWeek b - D3.floori D3.timeWeek a) / 7).
  rewrite !timeWeek_floori. unfold getDay.
  Z.div_mod_to_equations. lia.
Qed.

Lemma getWeekNumber_eq d :
  getWeekNumber d = (d + 4) / 7 - (DayFromYear (getFullYear d) + 4) / 7.
Proof. unfold getWeekNumber. rewrite timeWeek_count, timeYear_floor. reflexivity. Qed.

Lemma getDay_range d : 0 <= getDay d <= 6.
Proof. unfold getDay. Z.div_mod_to_equations. lia. Qed.

Lemma getWeekNumber_range d : 0 <= getWeekNumber d <= 53.
Proof.
  rewrite getWeekNumber_eq. pose proof (DayWithinYear_range d) as R.
  pose proof (InLeapYear_01 (YearFromDay d)).
  unfold DayWithinYear, getFullYear in *. Z.div_mod_to_equations. lia.
Qed.

(** 1 January of a year, as a day number. *)
Lemma January1_fields y :
  isJanuary1 y (DayFromYear y).
Proof.
  pose proof (fields_MakeDay y 0 1) as F.
  rewrite MakeDay_in_range in F by lia.
  change (DaysBeforeMonth (InLeapYear y) 0) with 0 in F.
  replace (DayFromYear y + 0 + 1 - 1) with (DayFromYear y) in F by lia.
  apply F; [lia|]. unfold DaysInMonth. cbn. lia.
Qed.

Lemma weekBoundaries_count_nat j n :
  weekBoundariesCrossed j (j + Z.of_nat n)
  = (j + Z.of_nat n + 4) / 7 - (j + 4) / 7.
Proof.
  unfold weekBoundariesCrossed, daysAfter.
  replace (j + Z.of_nat n - j) with (Z.of_nat n) by lia. rewrite Nat2Z.id.
  induction n as [|n IH].
  - cbn. rewrite Z.add_0_r. lia.
  - rewrite seq_S, map_app, filter_app, length_app, Nat2Z.inj_add, IH.
    cbn [map Nat.add].
    replace (j + 1 + Z.of_nat n) with (j + Z.of_nat (S n)) by lia.
    rewrite filter_cons, filter_nil. unfold getDay.
    case_decide; cbn [length]; rewrite Nat2Z.inj_succ in *;
      Z.div_mod_to_equations; lia.
Qed.

Lemma weekBoundaries_count j d :
  j <= d -> weekBoundariesCrossed j d = (d + 4) / 7 - (j + 4) / 7.
Proof.
  intros H. replace d with (j + Z.of_nat (Z.to_nat (d - j))) by lia.
  apply weekBoundaries_count_nat.
Qed.

Lemma weekdayIndex_ofCivil y m q :
  weekdayIndex (weekdayOfCivil y m q) = (zellerCongruence y m q + 6) mod 7.
Proof.
  unfold weekdayOfCivil.
  assert (H : 0 <= zellerCongruence y m q < 7)
    by (unfold zellerCongruence; apply Z.mod_pos_bound; lia).
  set (h := zellerCongruence y m q) in *. clearbody h.
  assert (C : h = 0 \/ h = 1 \/ h = 2 \/ h = 3 \/ h = 4 \/ h = 5 \/ h = 6) by lia.
  repeat (destruct C as [C|C]); subst h; reflexivity.
Qed.

(** The day number agrees with Zeller's congruence on the civil date. *)
Lemma getDay_MakeDay_zeller y m q :
  0 <= m <= 11 ->
  (DayFromYear y + DaysBeforeMonth (InLeapYear y) m + q - 1 + 4) mod 7
  = weekdayIndex (weekdayOfCivil y m q).
Proof.
  intros Hm. rewrite weekdayIndex_ofCivil.
  month_cases m;
    cbv [zellerCongruence DaysBeforeMonth Z.eqb Z.ltb Z.compare Pos.compare
         Pos.compare_cont Pos.eqb];
    unfold InLeapYear, DaysInYear, DayFromYear;
    zbool; Z.div_mod_to_equations; lia.
Qed.

Lemma getDay_weekday d :
  getDay d = weekdayIndex (weekdayOfCivil (getFullYear d) (getMonth d) (getDate d)).
Proof.
  pose proof (MakeDay_fields d (getDate d)) as E.
  rewrite MakeDay_in_range in E by apply getMonth_range.
  rewrite <- getDay_MakeDay_zeller by apply getMonth_range.
  unfold getDay. f_equal. lia.
Qed.

End GridFacts.

Module GridClaims.
Import JSDate JSDateFacts Calendar CalendarSpec GridFacts.

(** C2.  For every date, the day index is the weekday of its civil date
    (0 = Sunday .. 6 = Saturday, checked against Zeller's congruence), the
    week index is the number of Sunday week boundaries crossed since
    1 January of the date's year, 1 January itself being in week 0 whatever
    its weekday, and the pixel position is
    (weekIndex * cellSize, dayIndex * cellSize).  The functions are total:
    nothing is assumed of the date. *)
Theorem DateGridMapper_coordinates (cellSize date : Z) :
  let jan1 := D3.floor D3.timeYear date in
  isJanuary1 (getFullYear date) jan1 /\ jan1 <= date
  /\ getDayNumber date
     = weekdayIndex (weekdayOfCivil (getFullYear date) (getMonth date) (getDate date))
  /\ 0 <= getDayNumber date <= 6
  /\ getWeekNumber date = weekBoundariesCrossed jan1 date
  /\ getWeekNumber jan1 = 0
  /\ (getX cellSize date, getY cellSize date)
     = (getWeekNumber date * cellSize, getDayNumber date * cellSize).
Proof.
  cbv zeta. rewrite timeYear_floor.
  pose proof (January1_fields (getFullYear date)) as J.
  pose proof (YearFromDay_spec date) as [Hle _]. fold (getFullYear date) in Hle.
  repeat split; try apply J; try assumption.
  - apply getDay_weekday.
  - apply getDay_range.
  - apply getDay_range.
  - rewrite weekBoundaries_count by assumption. apply getWeekNumber_eq.
  - rewrite getWeekNumber_eq. destruct J as (-> & _). lia.
Qed.

(** C4.  31 December 2028, one of the days the script draws, is a Sunday
    in week 53: its week index is outside 0..52, and its rectangle is put
    at x = 53 * 17, past the 53 columns the grid is centred for. *)
Theorem weekIndex_52_exceeded :
  let date := newDate 2028 11 31 in
  isDecember31 2028 date
  /\ getWeekNumber date = 53 /\ getDayNumber date = 0
  /\ getX 17 date = 53 * 17
  /\ ~ (0 <= getWeekNumber date <= 52).
Proof. vm_compute. intuition discriminate. Qed.

(** What does hold of every date: the week index lies in 0..53 and the
    day index in 0..6, and week 53 is reached exactly on 31 December of a
    leap year whose 1 January is a Saturday. *)
Lemma weekIndex_dayIndex_bounds (date : Z) :
  0 <= getWeekNumber date <= 53 /\ 0 <= getDayNumber date <= 6
  /\ (getWeekNumber date = 53 <->
      isLeapYear (getFullYear date) = true
      /\ getDay (D3.floor D3.timeYear date) = 6
      /\ isDecember31 (getFullYear date) date).
Proof.
  split; [apply getWeekNumber_range|]. split; [apply getDay_range|].
  rewrite timeYear_floor, getWeekNumber_eq.
  pose proof (DayWithinYear_range date) as R.
  pose proof (isLeapYear_InLeapYear (getFullYear date)) as L.
  unfold DayWithinYear in R. fold (getFullYear date) in R.
  set (y := getFullYear date) in *. set (j := DayFromYear y) in *.
  assert (E31 : MakeDay y 11 31 = j + 334 + InLeapYear y + 30).
  { rewrite MakeDay_in_range by lia. tables. unfold j. lia. }
  pose proof (fields_MakeDay y 11 31) as F.
  split.
  - intros H53.
    assert (K : date - j = 365 /\ InLeapYear y = 1 /\ (j + 4) mod 7 = 6).
    { destruct (isLeapYear y); Z.div_mod_to_equations; lia. }
    destruct K as (K1 & K2 & K3).
    split; [destruct (isLeapYear y); [reflexivity | lia]|].
    split; [exact K3|].
    replace date with (MakeDay y 11 31) by lia.
    apply F; [lia|]. cbn. lia.
  - intros (Hl & Hs & Hy & Hm & Hd).
    pose proof (MakeDay_fields date 31) as E. rewrite Hm, Hd in E.
    fold y in E. rewrite Hl in L. unfold getDay in Hs.
    Z.div_mod_to_equations. lia.
Qed.

End GridClaims.

(** ** The days of a year *)

Module YearFacts.
Import JSDate JSDateFacts Calendar CalendarSpec GridFacts.

(** [n] days in a row, from day [s]. *)
Definition consecutiveDays (s : Z) (n : nat) : list Z :=
  map (fun i => s + Z.of_nat i) (seq 0 n).

Lemma timeDay_step d : D3.floori D3.timeDay (D3.offseti D3.timeDay d 1) = d + 1.
Proof.
  change (D3.floori D3.timeDay (D3.offseti D3.timeDay d 1))
    with (setDate d (getDate d + 1)).
  apply setDate_getDate.
Qed.

(** One turn of the loop of [interval.range]. *)
Lemma range_loop_step (i : D3.interval) `{!D3.Advances i} (s stop : Z) :
  D3.range_loop i s stop
  = s :: (if decide (D3.floori i (D3.offseti i s 1) < stop)
          then D3.range_loop i (D3.floori i (D3.offseti i s 1)) stop
          else []).
Proof.
  rewrite D3.range_loop_equation_1.
  destruct (Z_lt_dec _ stop) as [Hlt|Hge].
  - rewrite D3.range_loop_clause_1_equation_1. rewrite decide_True by exact Hlt.
    reflexivity.
  - rewrite decide_False by exact Hge. reflexivity.
Qed.

Lemma consecutiveDays_S s n :
  consecutiveDays s (S n) = s :: consecutiveDays (s + 1) n.
Proof.
  unfold consecutiveDays. cbn [seq map]. rewrite <- seq_shift, map_map.
  f_equal; [apply Z.add_0_r|]. apply map_ext. intros i. lia.
Qed.

Lemma range_loop_timeDay n : forall s stop,
  Z.to_nat (stop - s) = S n ->
  D3.range_loop D3.timeDay s stop = consecutiveDays s (S n).
Proof.
  induction n as [|n IH]; intros s stop Hn;
    rewrite range_loop_step, timeDay_step, consecutiveDays_S;
    case_decide; try lia.
  - reflexivity.
  - rewrite (IH (s + 1) stop) by lia. reflexivity.
Qed.

(** [d3.timeDays(start, stop)] is the run of days from [start] up to,
    not including, [stop]. *)
Lemma timeDays_eq s stop :
  D3.timeDays s stop = consecutiveDays s (Z.to_nat (stop - s)).
Proof.
  unfold D3.timeDays, D3.interval_range.
  assert (C : D3.ceil D3.timeDay s = s).
  { unfold D3.ceil. rewrite timeDay_step.
    change (D3.floori D3.timeDay (s - 1)) with (s - 1). lia. }
  rewrite C.
  destruct (Z.ltb_spec s stop) as [H|H]; cbn [negb].
  - destruct (Z.to_nat (stop - s)) as [|n] eqn:E; [lia|].
    apply range_loop_timeDay. exact E.
  - replace (Z.to_nat (stop - s)) with 0%nat by lia. reflexivity.
Qed.

Lemma elem_of_consecutiveDays s n d :
  d ∈ consecutiveDays s n <-> s <= d < s + Z.of_nat n.
Proof.
  unfold consecutiveDays. rewrite list_elem_of_In, in_map_iff. split.
  - intros (i & <- & Hi). apply in_seq in Hi. lia.
  - intros H. exists (Z.to_nat (d - s)). split; [lia|]. apply in_seq. lia.
Qed.

Lemma consecutiveDays_sorted n :
  forall s, StronglySorted Z.lt (consecutiveDays s n).
Proof.
  induction n as [|n IH]; intros s.
  - constructor.
  - rewrite consecutiveDays_S. constructor; [apply IH|].
    apply List.Forall_forall. intros d Hd.
    apply list_elem_of_In, elem_of_consecutiveDays in Hd. lia.
Qed.

Lemma consecutiveDays_last s n :
  last (consecutiveDays s (S n)) = Some (s + Z.of_nat n).
Proof.
  unfold consecutiveDays. rewrite seq_S, map_app. cbn [map].
  rewrite last_snoc. reflexivity.
Qed.

(** Outside 0..99 the year given to [new Date] is taken as it is. *)
Lemma newDate_full_year y m d :
  y < 0 \/ 99 < y -> newDate y m d = MakeDay y m d.
Proof.
  intros H. unfold newDate.
  destruct (Z.leb_spec 0 y), (Z.leb_spec y 99); cbn [andb]; try reflexivity; lia.
Qed.

Lemma DaysInYear_isLeapYear y : DaysInYear y = if isLeapYear y then 366 else 365.
Proof.
  pose proof (isLeapYear_InLeapYear y). unfold InLeapYear in *.
  destruct (isLeapYear y); lia.
Qed.

Lemma December31_fields y : isDecember31 y (DayFromYear (y + 1) - 1).
Proof.
  pose proof (fields_MakeDay y 11 31) as F.
  rewrite MakeDay_in_range in F by lia.
  assert (E : DayFromYear y + DaysBeforeMonth (InLeapYear y) 11 + 31 - 1
              = DayFromYear (y + 1) - 1).
  { rewrite DayFromYear_succ. tables. unfold InLeapYear. lia. }
  rewrite E in F. apply F; [lia|]. cbn. lia.
Qed.

End YearFacts.

Module YearClaims.
Import JSDate JSDateFacts Calendar CalendarSpec GridFacts YearFacts.


(** Where the year number is read as it is, outside -1..99 (and inside
    the years a Date can hold), the enumeration of the year has 365 dates,
    366 in a leap year, is strictly ascending, starts at 1 January of y,
    ends at 31 December of y, and holds exactly the dates of y; all of them
    are days a Date can hold. *)
Lemma getAllDaysInYear_enumerates (y : Z) :
  y < -1 \/ 99 < y -> -271820 <= y <= 275759 ->
  enumeratesYear y (getAllDaysInYear y)
  /\ (forall d, d ∈ getAllDaysInYear y -> -100000000 <= d <= 100000000).
Proof.
  intros Hy Hr. unfold enumeratesYear, getAllDaysInYear.
  rewrite !newDate_full_year by lia.
  rewrite timeDays_eq.
  assert (E0 : MakeDay y 0 1 = DayFromYear y).
  { rewrite MakeDay_in_range by lia. tables. lia. }
  assert (E1 : MakeDay (y + 1) 0 1 = DayFromYear y + DaysInYear y).
  { rewrite MakeDay_in_range by lia. tables. rewrite DayFromYear_succ. lia. }
  rewrite E0, E1.
  replace (DayFromYear y + DaysInYear y - DayFromYear y) with (DaysInYear y) by lia.
  pose proof (DaysInYear_isLeapYear y) as L.
  assert (N : Z.to_nat (DaysInYear y) = if isLeapYear y then 366%nat else 365%nat).
  { rewrite L. destruct (isLeapYear y); reflexivity. }
  set (n := Z.to_nat (DaysInYear y)) in *.
  assert (Hn : Z.of_nat n = DaysInYear y) by (unfold n; destruct (isLeapYear y); lia).
  split; [split; [|split; [|split; [|split]]]|].
  { unfold consecutiveDays. rewrite length_map, length_seq. exact N. }
  { apply consecutiveDays_sorted. }
  { exists (DayFromYear y). split; [|apply January1_fields].
    destruct n as [|n']; [destruct (isLeapYear y); discriminate|].
    rewrite consecutiveDays_S. reflexivity. }
  { exists (DayFromYear (y + 1) - 1). split; [|apply December31_fields].
    destruct n as [|n']; [destruct (isLeapYear y); discriminate|].
    rewrite consecutiveDays_last. f_equal. rewrite DayFromYear_succ. lia. }
  { intros d. rewrite elem_of_consecutiveDays, Hn. split.
    - intros H. apply YearFromDay_unique. rewrite DayFromYear_succ. lia.
    - intros <-. pose proof (YearFromDay_spec d) as S.
      rewrite DayFromYear_succ in S. exact S. }
  intros d Hd. apply elem_of_consecutiveDays in Hd. rewrite Hn in Hd.
  pose proof (DayFromYear_mono (-271820) y ltac:(lia)) as Lo.
  pose proof (DayFromYear_mono (y + 1) 275760 ltac:(lia)) as Hi.
  rewrite DayFromYear_succ in Hi.
  change (DayFromYear (-271820)) with (-99999744) in Lo.
  change (DayFromYear 275760) with 99999744 in Hi. lia.
Qed.

(** The year 2016 as an instance. *)
Lemma getAllDaysInYear_enumerates_2016 :
  (2016 < -1 \/ 99 < 2016) /\ -271820 <= 2016 <= 275759
  /\ enumeratesYear 2016 (getAllDaysInYear 2016)
  /\ (forall d, d ∈ getAllDaysInYear 2016 -> -100000000 <= d <= 100000000).
Proof.
  split; [lia|]. split; [lia|].
  apply (getAllDaysInYear_enumerates 2016); lia.
Defined.

End YearClaims.

(** ** Outlines: the notions the properties of the month paths are stated in *)

Module Outline.
Import Svg.


(** An edge of an outline, from its first to its second end. *)
Definition segment : Type := point * point.

(** The outline on given column and row coordinates: [X0 < X1] bound the
    column of the first day, [X2 < X3] that of the last day, [Y1] is the top
    of the first day, [Y2] the bottom of the last day, [Y3] the bottom of
    the grid. *)
Definition outlineAt (X0 X1 X2 X3 Y1 Y2 Y3 : Z) : list point :=
  [ (X1, Y1); (X0, Y1); (X0, Y3); (X2, Y3); (X2, Y2); (X3, Y2); (X3, 0); (X1, 0) ].

(** The eight vertices of the outline of a month, from the week and day
    indices of its first and of its last day (the list of the
    MonthOutlineBuilder). *)
Definition outlineVertices (cs thisWeek thisDow nextWeek nextDow : Z) : list point :=
  [ ((thisWeek + 1) * cs, thisDow * cs);
    (thisWeek * cs, thisDow * cs);
    (thisWeek * cs, 7 * cs);
    (nextWeek * cs, 7 * cs);
    (nextWeek * cs, (nextDow + 1) * cs);
    ((nextWeek + 1) * cs, (nextDow + 1) * cs);
    ((nextWeek + 1) * cs, 0);
    ((thisWeek + 1) * cs, 0) ].

(** The path through these vertices: move to the first, a horizontal or
    vertical line to each of the others in turn, close. *)
Definition outlineCommands (cs tw td nw nd : Z) : list command :=
  [ MoveTo ((tw + 1) * cs) (td * cs);
    HLineTo (tw * cs);
    VLineTo (7 * cs);
    HLineTo (nw * cs);
    VLineTo ((nd + 1) * cs);
    HLineTo ((nw + 1) * cs);
    VLineTo 0;
    HLineTo ((tw + 1) * cs);
    ClosePath ].

(** The points a path description visits, if it is well formed. *)
Definition pathPoints (d : string) : option (list point) :=
  cmds ← Svg.parse d; Some (Svg.points cmds).

(** The edges of the closed loop through the vertices [vs]: from each
    vertex to the next, and from the last back to the first. *)
Definition loopEdges (vs : list point) : list segment :=
  match vs with
  | [] => []
  | v :: rest => zip vs (rest ++ [v])
  end.

Definition horizontal (e : segment) : Prop := snd (fst e) = snd (snd e).

Definition vertical (e : segment) : Prop := fst (fst e) = fst (snd e).

(** Horizontal and vertical edges in turn, starting with a horizontal one
    when [h] is true. *)
Fixpoint alternates (h : bool) (es : list segment) : Prop :=
  match es with
  | [] => True
  | e :: rest =>
      (if h then horizontal e else vertical e) /\ alternates (negb h) rest
  end.

(** The same, and every edge has two different ends. *)
Fixpoint alternatesProperly (h : bool) (es : list segment) : Prop :=
  match es with
  | [] => True
  | e :: rest =>
      (if h then horizontal e else vertical e) /\ fst e <> snd e
      /\ alternatesProperly (negb h) rest
  end.

(** Points of the plane are taken on the half-integer grid: [p] stands for
    the point (fst p / 2, snd p / 2).  Two axis-parallel segments with
    integer ends that meet have such a point in common, and if they
    overlap along a stretch they have one in common that is not an end of
    both. *)
Definition between (a x b : Z) : Prop := Z.min a b <= x <= Z.max a b.

Definition double (v : point) : point := (2 * fst v, 2 * snd v).

Definition onSegment (p : point) (e : segment) : Prop :=
  between (2 * fst (fst e)) (fst p) (2 * fst (snd e))
  /\ between (2 * snd (fst e)) (snd p) (2 * snd (snd e)).

(** A loop of edges does not meet itself: two of its edges have a point in
    common only when one follows the other (the first follows the last),
    and then only the end they share. *)
Definition simpleLoop (es : list segment) : Prop :=
  forall (i j : nat) (e f : segment) (p : point),
    (i < j)%nat -> es !! i = Some e -> es !! j = Some f ->
    onSegment p e -> onSegment p f ->
    (j = S i /\ p = double (snd e))
    \/ (i = 0%nat /\ S j = length es /\ p = double (fst e)).

(** The edges that are more than a point. *)
Definition properEdges (es : list segment) : list segment :=
  filter (fun e => fst e <> snd e) es.

(** Eight vertices that form a loop of four horizontal and four vertical
    edges in turn, none of them a mere point, that does not meet itself. *)
Definition rectilinearOctagon (vs : list point) : Prop :=
  length vs = 8%nat
  /\ alternatesProperly true (loopEdges vs)
  /\ simpleLoop (loopEdges vs).

(** The edge lies on the boundary of the box [x0, x1] x [y0, y1]. *)
Definition onBoundary (x0 x1 y0 y1 : Z) (e : segment) : Prop :=
  (x0 <= fst (fst e) <= x1 /\ y0 <= snd (fst e) <= y1)
  /\ (x0 <= fst (snd e) <= x1 /\ y0 <= snd (snd e) <= y1)
  /\ ((horizontal e /\ (snd (fst e) = y0 \/ snd (fst e) = y1))
      \/ (vertical e /\ (fst (fst e) = x0 \/ fst (fst e) = x1))).

(** The loop through [vs] traces a rectangle: all its edges lie on the
    boundary of one box, and the edges that are more than a point form a
    loop that does not meet itself. *)
Definition rectangleOutline (vs : list point) : Prop :=
  exists x0 x1 y0 y1,
    x0 < x1 /\ y0 < y1
    /\ Forall (onBoundary x0 x1 y0 y1) (loopEdges vs)
    /\ properEdges (loopEdges vs) <> []
    /\ simpleLoop (properEdges (loopEdges vs)).

End Outline.

(** ** Reading back the numbers the script prints *)

Module SvgFacts.
Import Svg Outline Calendar.

(** The number read from the digits [d] after [a]. *)
Fixpoint uval (d : Decimal.uint) (a : Z) : Z :=
  match d with
  | Decimal.Nil => a
  | Decimal.D0 l => uval l (10 * a + 0)
  | Decimal.D1 l => uval l (10 * a + 1)
  | Decimal.D2 l => uval l (10 * a + 2)
  | Decimal.D3 l => uval l (10 * a + 3)
  | Decimal.D4 l => uval l (10 * a + 4)
  | Decimal.D5 l => uval l (10 * a + 5)
  | Decimal.D6 l => uval l (10 * a + 6)
  | Decimal.D7 l => uval l (10 * a + 7)
  | Decimal.D8 l => uval l (10 * a + 8)
  | Decimal.D9 l => uval l (10 * a + 9)
  end.

Lemma of_uint_acc_uval d : forall p, Z.pos (Pos.of_uint_acc d p) = uval d (Z.pos p).
Proof.
  induction d; intros p; cbn [Pos.of_uint_acc uval]; try reflexivity;
    rewrite IHd; f_equal; lia.
Qed.

Lemma of_uint_uval d : Z.of_N (Pos.of_uint d) = uval d 0.
Proof.
  induction d; cbn [Pos.of_uint uval]; try reflexivity; try exact IHd;
    cbn [Z.of_N]; rewrite of_uint_acc_uval; reflexivity.
Qed.

(** The digits [d] fed to the reader one by one. *)
Fixpoint feed (acc : option Z) (d : Decimal.uint) : option Z :=
  match d with
  | Decimal.Nil => acc
  | Decimal.D0 l => feed (push acc 0) l
  | Decimal.D1 l => feed (push acc 1) l
  | Decimal.D2 l => feed (push acc 2) l
  | Decimal.D3 l => feed (push acc 3) l
  | Decimal.D4 l => feed (push acc 4) l
  | Decimal.D5 l => feed (push acc 5) l
  | Decimal.D6 l => feed (push acc 6) l
  | Decimal.D7 l => feed (push acc 7) l
  | Decimal.D8 l => feed (push acc 8) l
  | Decimal.D9 l => feed (push acc 9) l
  end.

Lemma feed_Some d : forall a, feed (Some a) d = Some (uval d a).
Proof.
  induction d; intros a; cbn [feed uval]; unfold push; cbn [default];
    [reflexivity | apply IHd ..].
Qed.

Lemma feed_uval d acc :
  d <> Decimal.Nil -> feed acc d = Some (uval d (default 0 acc)).
Proof.
  destruct d; [congruence| ..]; intros _; cbn [feed uval]; unfold push;
    apply feed_Some.
Qed.

Ltac string_head :=
  repeat match goal with
  | |- context [String ?c ?s +:+ ?r] =>
      change (String c s +:+ r) with (String c (s +:+ r))
  | |- context [EmptyString +:+ ?r] => change (EmptyString +:+ r) with r
  end.

Ltac read_char :=
  string_head; cbn [parse_from];
  match goal with
  | |- context [digit ?c] =>
      let v := eval vm_compute in (digit c) in change (digit c) with v
  end; cbv iota beta.

Lemma parse_feed sl d : forall acc rest,
  parse_from (Reading sl acc) (NilEmpty.string_of_uint d +:+ rest)
  = parse_from (Reading sl (feed acc d)) rest.
Proof.
  induction d; intros acc rest;
    cbn [NilEmpty.string_of_uint feed]; [reflexivity| ..];
    read_char; apply IHd.
Qed.

Lemma parse_number sl n rest :
  0 <= n ->
  parse_from (Reading sl None) (JS.toString n +:+ rest)
  = parse_from (Reading sl (Some n)) rest.
Proof.
  intros Hn. unfold JS.toString. destruct n as [|p|p]; [reflexivity| |lia].
  cbn [Z.to_int NilEmpty.string_of_int].
  rewrite parse_feed, feed_uval by apply Unsigned.to_uint_nonnil.
  cbn [default]. rewrite <- of_uint_uval, Unsigned.of_to. reflexivity.
Qed.

Ltac read_letter :=
  string_head; cbn [parse_from];
  match goal with
  | |- context [digit ?c] =>
      let v := eval vm_compute in (digit c) in change (digit c) with v
  end; cbv iota beta;
  repeat match goal with
  | |- context [Ascii.eqb ?a ?b] =>
      let v := eval vm_compute in (Ascii.eqb a b) in change (Ascii.eqb a b) with v
  end; cbv iota beta; cbn [flush mbind option_bind].

Lemma parse_path (a b c d e f g h : Z) :
  0 <= a -> 0 <= b -> 0 <= c -> 0 <= d -> 0 <= e -> 0 <= f -> 0 <= g -> 0 <= h ->
  parse ("M" +:+ JS.toString a +:+ "," +:+ JS.toString b
         +:+ "H" +:+ JS.toString c +:+ "V" +:+ JS.toString d
         +:+ "H" +:+ JS.toString e +:+ "V" +:+ JS.toString f
         +:+ "H" +:+ JS.toString g +:+ "V" +:+ JS.toString 0
         +:+ "H" +:+ JS.toString h +:+ "Z")
  = Some [MoveTo a b; HLineTo c; VLineTo d; HLineTo e; VLineTo f; HLineTo g;
          VLineTo 0; HLineTo h; ClosePath].
Proof.
  intros. unfold parse.
  do 8 (read_letter; rewrite parse_number by lia).
  read_letter. rewrite parse_number by assumption.
  read_letter. reflexivity.
Qed.

Lemma parse_pathDescription cs tw td nw nd :
  0 < cs -> 0 <= tw -> 0 <= td -> 0 <= nw -> 0 <= nd ->
  parse (pathDescription cs tw td nw nd) = Some (outlineCommands cs tw td nw nd).
Proof. intros. apply parse_path; nia. Qed.

Lemma points_outlineCommands cs tw td nw nd :
  points (outlineCommands cs tw td nw nd)
  = outlineVertices cs tw td nw nd ++ [((tw + 1) * cs, td * cs)].
Proof. reflexivity. Qed.

End SvgFacts.

(** ** The outline of a month *)

Module MonthFacts.
Import JSDate JSDateFacts Calendar CalendarSpec GridFacts YearFacts.
Import Svg Outline SvgFacts.

(** The year [new Date] makes of a year number. *)
Definition dateYear (y : Z) : Z :=
  if (0 <=? y) && (y <=? 99) then 1900 + y else y.

Lemma DaysInMonth_range l m : l = 0 \/ l = 1 -> 28 <= DaysInMonth l m <= 31.
Proof. intros H. unfold DaysInMonth. zbool; lia. Qed.

(** The date [nextMonth] of the script: day 0 of the month after. *)
Lemma nextMonth_eq month :
  newDate (getFullYear month) (getMonth month + 1) 0
  = MakeDay (dateYear (getFullYear month)) (getMonth month)
      (DaysInMonth (InLeapYear (dateYear (getFullYear month))) (getMonth month)).
Proof.
  unfold newDate. fold (dateYear (getFullYear month)).
  rewrite MakeDay_next_month by apply getMonth_range. f_equal. lia.
Qed.

Lemma nextMonth_fields month :
  let next := newDate (getFullYear month) (getMonth month + 1) 0 in
  getFullYear next = dateYear (getFullYear month)
  /\ getMonth next = getMonth month
  /\ getDate next
     = DaysInMonth (InLeapYear (dateYear (getFullYear month))) (getMonth month).
Proof.
  cbv zeta. rewrite nextMonth_eq.
  apply fields_MakeDay; [apply getMonth_range|].
  pose proof (DaysInMonth_range (InLeapYear (dateYear (getFullYear month)))
                (getMonth month) (InLeapYear_01 _)). lia.
Qed.

Lemma week_span j k :
  0 <= k -> k / 7 <= (j + k + 4) / 7 - (j + 4) / 7 <= k / 7 + 1.
Proof. intros. Z.div_mod_to_equations. lia. Qed.

(** The last day of a month is at least two week columns after its first
    day (three, unless the year number is read as 1900 + year). *)
Lemma weeks_apart month :
  getDate month = 1 ->
  getWeekNumber month + 2
  <= getWeekNumber (newDate (getFullYear month) (getMonth month + 1) 0).
Proof.
  intros D1.
  pose proof (nextMonth_fields month) as (Fy & Fm & Fd).
  rewrite !getWeekNumber_eq, Fy.
  rewrite nextMonth_eq.
  pose proof (getMonth_range month) as Hm.
  pose proof (MakeDay_fields month 1) as E. rewrite D1 in E.
  rewrite !MakeDay_in_range in * by exact Hm.
  pose proof (InLeapYear_01 (getFullYear month)) as L1.
  pose proof (InLeapYear_01 (dateYear (getFullYear month))) as L2.
  set (l1 := InLeapYear (getFullYear month)) in *.
  set (l2 := InLeapYear (dateYear (getFullYear month))) in *.
  set (j1 := DayFromYear (getFullYear month)) in *.
  set (j2 := DayFromYear (dateYear (getFullYear month))) in *.
  set (m := getMonth month) in *.
  clearbody l1 l2 j1 j2 m. clear - Hm L1 L2 E.
  set (a := DaysBeforeMonth l1 m) in *.
  set (b := DaysBeforeMonth l2 m + DaysInMonth l2 m - 1).
  assert (Hab : 0 <= a /\ 0 <= b /\ a / 7 + 3 <= b / 7).
  { unfold a, b. destruct L1 as [-> | ->], L2 as [-> | ->];
      month_cases m; vm_compute; intuition discriminate. }
  pose proof (week_span j1 a). pose proof (week_span j2 b).
  replace (month + 4) with (j1 + a + 4) by lia.
  replace (j2 + DaysBeforeMonth l2 m + DaysInMonth l2 m - 1 + 4)
    with (j2 + b + 4) by (unfold b; lia).
  lia.
Qed.

(** What the script's path denotes, in terms of the numbers it computes. *)
Lemma getPathDescriptionForMonth_parse cs month :
  0 < cs ->
  parse (getPathDescriptionForMonth cs month)
  = Some (outlineCommands cs (getWeekNumber month) (getDay month)
            (getWeekNumber (newDate (getFullYear month) (getMonth month + 1) 0))
            (getDay (newDate (getFullYear month) (getMonth month + 1) 0))).
Proof.
  intros Hcs.
  pose proof (getWeekNumber_range month) as R1.
  pose proof (getWeekNumber_range (newDate (getFullYear month) (getMonth month + 1) 0)) as R2.
  pose proof (getDay_range month) as R3.
  pose proof (getDay_range (newDate (getFullYear month) (getMonth month + 1) 0)) as R4.
  unfold getPathDescriptionForMonth. cbv zeta. unfold getWeekNumber in *.
  apply parse_pathDescription; [exact Hcs | apply R1 | apply R3 | apply R2 | apply R4].
Qed.

Lemma dateYear_full y : y < 0 \/ 99 < y -> dateYear y = y.
Proof.
  intros H. unfold dateYear.
  destruct (Z.leb_spec 0 y), (Z.leb_spec y 99); cbn [andb]; try reflexivity; lia.
Qed.

(** Outside the years 0..99, [nextMonth] is the last day of the month. *)
Lemma nextMonth_last_day month :
  getFullYear month < 0 \/ 99 < getFullYear month ->
  isLastDayOfMonthOf month (newDate (getFullYear month) (getMonth month + 1) 0).
Proof.
  intros Hy.
  pose proof (nextMonth_fields month) as (Fy & Fm & Fd).
  rewrite (dateYear_full _ Hy) in *.
  pose proof (getMonth_range month) as Hm.
  pose proof (getDate_range month) as Hd.
  set (next := newDate (getFullYear month) (getMonth month + 1) 0) in *.
  assert (E : next = month + (getDate next - getDate month)).
  { rewrite <- (MakeDay_fields month (getDate next)).
    rewrite <- Fy, <- Fm. rewrite MakeDay_fields. lia. }
  split; [exact Fy|]. split; [exact Fm|]. split; [lia|].
  (* the day after is the first of the month after *)
  assert (E' : next + 1 = MakeDay (getFullYear month) (getMonth month + 1) 1).
  { rewrite MakeDay_next_month by exact Hm.
    rewrite <- Fd, <- Fy, <- Fm, MakeDay_fields. lia. }
  rewrite E'.
  destruct (Z.eq_dec (getMonth month) 11) as [E11|N11].
  - rewrite E11, MakeDay_normal.
    change ((11 + 1) / 12) with 1. change ((11 + 1) mod 12) with 0.
    destruct (fields_MakeDay (getFullYear month + 1) 0 1) as (_ & -> & _);
      [lia | cbn; pose proof (InLeapYear_01 (getFullYear month + 1)); lia | lia].
  - destruct (fields_MakeDay (getFullYear month) (getMonth month + 1) 1)
      as (_ & -> & _); [lia | | lia].
    pose proof (DaysInMonth_range (InLeapYear (getFullYear month))
                  (getMonth month + 1) (InLeapYear_01 _)). lia.
Qed.

Lemma lastDay_unique d l :
  isLastDayOfMonthOf d l ->
  l = MakeDay (getFullYear d) (getMonth d)
        (DaysInMonth (InLeapYear (getFullYear d)) (getMonth d)).
Proof.
  intros (Hy & Hm & Hle & Hnext).
  pose proof (getDate_range l) as Hd. rewrite Hy, Hm in Hd.
  pose proof (MakeDay_fields l (getDate l + 1)) as E1. rewrite Hy, Hm in E1.
  pose proof (MakeDay_fields l (DaysInMonth (InLeapYear (getFullYear d)) (getMonth d)))
    as E2. rewrite Hy, Hm in E2. rewrite E2.
  destruct (Z.eq_dec (getDate l) (DaysInMonth (InLeapYear (getFullYear d)) (getMonth d)))
    as [E|N]; [lia|exfalso].
  apply Hnext.
  replace (l + 1) with (MakeDay (getFullYear d) (getMonth d) (getDate l + 1)) by lia.
  apply fields_MakeDay; [apply getMonth_range | lia].
Qed.


Ltac filter_edges :=
  unfold properEdges;
  repeat first
    [ rewrite filter_nil
    | rewrite filter_cons_True by (cbn [fst snd]; intros [=]; lia)
    | rewrite filter_cons_False by (cbn [fst snd]; intros HH; apply HH; f_equal; lia) ].

Ltac simple_loop :=
  let i := fresh "i" in let j := fresh "j" in
  let e := fresh "e" in let f := fresh "f" in
  let px := fresh "px" in let py := fresh "py" in
  intros i j e f [px py] Hij Hi Hj [Hx Hy] [Hx' Hy'];
  do 9 (try (destruct i as [|i]));
  do 9 (try (destruct j as [|j]));
  cbn in Hi, Hj; try discriminate; try lia;
  injection Hi as <-; injection Hj as <-;
  unfold between, double in *; cbn [fst snd length] in *;
  first
    [ exfalso; lia
    | left; split; [reflexivity | f_equal; lia]
    | right; split; [reflexivity | split; [reflexivity | f_equal; lia]] ].

Lemma outline_simple X0 X1 X2 X3 Y1 Y2 Y3 :
  X0 < X1 -> X1 < X2 -> X2 < X3 -> 0 <= Y1 < Y3 -> 0 < Y2 <= Y3 ->
  simpleLoop (properEdges (loopEdges (outlineAt X0 X1 X2 X3 Y1 Y2 Y3))).
Proof.
  intros H01 H12 H23 HY1 HY2.
  unfold outlineAt, loopEdges. cbn [zip zip_with app].
  destruct (Z.eq_dec Y1 0) as [E1|E1], (Z.eq_dec Y2 Y3) as [E2|E2];
    filter_edges; simple_loop.
Qed.

Lemma outline_alternates X0 X1 X2 X3 Y1 Y2 Y3 :
  alternates true (loopEdges (outlineAt X0 X1 X2 X3 Y1 Y2 Y3)).
Proof. cbn. unfold horizontal, vertical. cbn. tauto. Qed.

Lemma outline_degenerate X0 X1 X2 X3 Y1 Y2 Y3 (k : nat) (e : segment) :
  X0 < X1 -> X0 < X2 -> X1 < X3 -> X2 < X3 -> 0 <= Y1 < Y3 -> 0 < Y2 <= Y3 ->
  loopEdges (outlineAt X0 X1 X2 X3 Y1 Y2 Y3) !! k = Some e ->
  (fst e = snd e <-> (k = 3%nat /\ Y2 = Y3) \/ (k = 7%nat /\ Y1 = 0)).
Proof.
  intros H1 H2 H3 H4 H5 H6 Hk.
  do 8 (try (destruct k as [|k])); cbn in Hk; try discriminate;
    injection Hk as <-; cbn [fst snd];
    (split; [intros [=]; lia | intros [[? ?]|[? ?]]; try (f_equal; lia); lia]).
Qed.

Lemma outline_rectangle_only_if X0 X1 X2 X3 Y1 Y2 Y3 :
  X0 < X1 -> X2 < X3 -> 0 <= Y1 < Y3 -> 0 < Y2 <= Y3 ->
  rectangleOutline (outlineAt X0 X1 X2 X3 Y1 Y2 Y3) -> Y1 = 0 /\ Y2 = Y3.
Proof.
  intros H01 H23 HY1 HY2 (x0 & x1 & y0 & y1 & Hx & Hy & Hb & _).
  unfold outlineAt, loopEdges in Hb. cbn [zip zip_with app] in Hb.
  apply Forall_cons in Hb as [E1 Hb]. apply Forall_cons in Hb as [E2 Hb].
  apply Forall_cons in Hb as [E3 Hb]. apply Forall_cons in Hb as [E4 Hb].
  apply Forall_cons in Hb as [E5 Hb]. apply Forall_cons in Hb as [E6 Hb].
  apply Forall_cons in Hb as [E7 Hb]. clear Hb E2 E4 E6.
  unfold onBoundary, horizontal, vertical in *. cbn [fst snd] in *.
  (* the three horizontal edges of positive length lie on the top or the
     bottom side of the box *)
  destruct E1 as (_ & _ & [[_ T1]|[V1 _]]); [|exfalso; lia].
  destruct E5 as (_ & _ & [[_ T5]|[V5 _]]); [|exfalso; lia].
  destruct E7 as ((_ & B7) & _).
  destruct E3 as ((_ & B3) & _).
  split; lia.
Qed.

Lemma outline_rectangle_if X0 X1 X2 X3 Y3 :
  X0 < X1 -> X1 < X2 -> X2 < X3 -> 0 < Y3 ->
  rectangleOutline (outlineAt X0 X1 X2 X3 0 Y3 Y3).
Proof.
  intros H01 H12 H23 HY.
  exists X0, X3, 0, Y3. split; [lia|]. split; [lia|]. split; [|split].
  - unfold outlineAt, loopEdges. cbn [zip zip_with app].
    repeat (apply Forall_cons; split); try apply Forall_nil;
      unfold onBoundary, horizontal, vertical; cbn [fst snd]; lia.
  - unfold outlineAt, loopEdges. cbn [zip zip_with app]. filter_edges. discriminate.
  - apply outline_simple; lia.
Qed.

Lemma outlineVertices_at cs tw td nw nd :
  outlineVertices cs tw td nw nd
  = outlineAt (tw * cs) ((tw + 1) * cs) (nw * cs) ((nw + 1) * cs)
      (td * cs) ((nd + 1) * cs) (7 * cs).
Proof. reflexivity. Qed.

Lemma pathPoints_month cs month :
  0 < cs ->
  let nextMonth := newDate (getFullYear month) (getMonth month + 1) 0 in
  pathPoints (getPathDescriptionForMonth cs month)
  = Some (outlineVertices cs (getWeekNumber month) (getDay month)
            (getWeekNumber nextMonth) (getDay nextMonth)
          ++ [((getWeekNumber month + 1) * cs, getDay month * cs)]).
Proof.
  intros Hcs. cbv zeta. unfold pathPoints.
  rewrite getPathDescriptionForMonth_parse by exact Hcs. reflexivity.
Qed.

Lemma alternatesProperly_proper es :
  forall h, alternatesProperly h es -> Forall (fun e => fst e <> snd e) es.
Proof.
  induction es as [|e es IH]; intros h H; [constructor|].
  destruct H as (_ & Hne & H). constructor; [exact Hne | exact (IH _ H)].
Qed.

Lemma nextMonth_offset month :
  getDate month = 1 ->
  getFullYear month < 0 \/ 99 < getFullYear month ->
  newDate (getFullYear month) (getMonth month + 1) 0
  = month + DaysInMonth (InLeapYear (getFullYear month)) (getMonth month) - 1
  /\ getFullYear (newDate (getFullYear month) (getMonth month + 1) 0)
     = getFullYear month.
Proof.
  intros D1 Hy. pose proof (nextMonth_fields month) as (Fy & _ & _).
  rewrite (dateYear_full _ Hy) in Fy. split; [|exact Fy].
  rewrite nextMonth_eq, (dateYear_full _ Hy), MakeDay_fields. lia.
Qed.

(** Outside the years 0..99 the last day of a month is the day the script
    takes for it. *)
Lemma lastDay_is_nextMonth month lastDay :
  getFullYear month < 0 \/ 99 < getFullYear month ->
  isLastDayOfMonthOf month lastDay ->
  lastDay = newDate (getFullYear month) (getMonth month + 1) 0.
Proof.
  intros Hy Hlast. rewrite (lastDay_unique _ _ Hlast).
  apply eq_sym, lastDay_unique, nextMonth_last_day. exact Hy.
Qed.

(** The last day of a month is at least three week columns after its
    first day. *)
Lemma lastDay_weeks_apart month lastDay :
  getDate month = 1 ->
  getFullYear month < 0 \/ 99 < getFullYear month ->
  isLastDayOfMonthOf month lastDay ->
  getWeekNumber month + 3 <= getWeekNumber lastDay.
Proof.
  intros D1 Hy Hlast. rewrite (lastDay_is_nextMonth month lastDay Hy Hlast).
  destruct (nextMonth_offset month D1 Hy) as [El Ely].
  rewrite !getWeekNumber_eq, Ely, El.
  pose proof (DaysInMonth_range (InLeapYear (getFullYear month)) (getMonth month)
                (InLeapYear_01 _)) as Hn.
  set (n := DaysInMonth _ _) in *. clearbody n.
  set (j := DayFromYear (getFullYear month)). clearbody j.
  Z.div_mod_to_equations. lia.
Qed.

(** The loop of the outline, in terms of the two dates the script
    computes with. *)
Lemma outline_loop_computed (cellSize month : Z) :
  0 < cellSize -> getDate month = 1 ->
  let nextMonth := newDate (getFullYear month) (getMonth month + 1) 0 in
  exists vs first,
    pathPoints (getPathDescriptionForMonth cellSize month) = Some (vs ++ [first])
    /\ head vs = Some first /\ length vs = 8%nat
    /\ alternates true (loopEdges vs)
    /\ (forall k e, loopEdges vs !! k = Some e ->
          (fst e = snd e <->
           (k = 3%nat /\ getDay nextMonth = 6) \/ (k = 7%nat /\ getDay month = 0)))
    /\ simpleLoop (properEdges (loopEdges vs)).
Proof.
  intros Hcs D1 nextMonth.
  pose proof (weeks_apart month D1) as W. fold nextMonth in W.
  pose proof (getDay_range month) as R1. pose proof (getDay_range nextMonth) as R2.
  eexists _, _. split; [apply pathPoints_month; exact Hcs|].
  fold nextMonth. rewrite outlineVertices_at.
  set (tw := getWeekNumber month) in *. set (nw := getWeekNumber nextMonth) in *.
  set (td := getDay month) in *. set (nd := getDay nextMonth) in *.
  clearbody tw nw td nd.
  split; [reflexivity|]. split; [reflexivity|].
  split; [apply outline_alternates|]. split.
  - intros k e Hk.
    assert (H1 : tw * cellSize < (tw + 1) * cellSize) by nia.
    assert (H2 : tw * cellSize < nw * cellSize) by nia.
    assert (H3 : (tw + 1) * cellSize < (nw + 1) * cellSize) by nia.
    assert (H4 : nw * cellSize < (nw + 1) * cellSize) by nia.
    assert (H5 : 0 <= td * cellSize < 7 * cellSize) by nia.
    assert (H6 : 0 < (nd + 1) * cellSize <= 7 * cellSize) by nia.
    pose proof (outline_degenerate _ _ _ _ _ _ _ k e H1 H2 H3 H4 H5 H6 Hk) as Dg.
    assert ((nd + 1) * cellSize = 7 * cellSize <-> nd = 6) by nia.
    assert (td * cellSize = 0 <-> td = 0) by nia. tauto.
  - apply outline_simple; nia.
Qed.

(** When the outline is a rectangle, in the same terms. *)
Lemma outline_rectangle_computed (cellSize month : Z) :
  0 < cellSize -> getDate month = 1 ->
  let nextMonth := newDate (getFullYear month) (getMonth month + 1) 0 in
  exists vs first,
    pathPoints (getPathDescriptionForMonth cellSize month) = Some (vs ++ [first])
    /\ (rectangleOutline vs <-> getDay month = 0 /\ getDay nextMonth = 6).
Proof.
  intros Hcs D1 nextMonth.
  pose proof (weeks_apart month D1) as W. fold nextMonth in W.
  pose proof (getDay_range month) as R1. pose proof (getDay_range nextMonth) as R2.
  eexists _, _. split; [apply pathPoints_month; exact Hcs|].
  fold nextMonth. rewrite outlineVertices_at.
  set (tw := getWeekNumber month) in *. set (nw := getWeekNumber nextMonth) in *.
  set (td := getDay month) in *. set (nd := getDay nextMonth) in *.
  clearbody tw nw td nd.
  assert (H1 : tw * cellSize < (tw + 1) * cellSize) by nia.
  assert (H2 : (tw + 1) * cellSize < nw * cellSize) by nia.
  assert (H4 : nw * cellSize < (nw + 1) * cellSize) by nia.
  assert (H5 : 0 <= td * cellSize < 7 * cellSize) by nia.
  assert (H6 : 0 < (nd + 1) * cellSize <= 7 * cellSize) by nia.
  assert (E6 : (nd + 1) * cellSize = 7 * cellSize <-> nd = 6) by nia.
  assert (E0 : td * cellSize = 0 <-> td = 0) by nia.
  split.
  - intros R. apply outline_rectangle_only_if in R; [tauto | assumption ..].
  - intros [T0 T6]. apply E0 in T0. apply E6 in T6. rewrite T0, T6.
    apply outline_rectangle_if; lia.
Qed.

End MonthFacts.

Module OutlineClaims.
Import JSDate JSDateFacts Calendar CalendarSpec GridFacts YearFacts.
Import Svg Outline SvgFacts MonthFacts.


(** Where the year is read as it is, outside 0..99, and the products are
    exact, the path description of a month, given as the date of its first
    day, denotes the closed path: move to ((thisWeek+1) cs, thisDow cs),
    then lines to (thisWeek cs, thisDow cs), (thisWeek cs, 7 cs),
    (nextWeek cs, 7 cs), (nextWeek cs, (nextDow+1) cs),
    ((nextWeek+1) cs, (nextDow+1) cs), ((nextWeek+1) cs, 0),
    ((thisWeek+1) cs, 0), then close; thisWeek and thisDow are the week and
    day index of the first day of the month, nextWeek and nextDow those of
    its last day. *)
Lemma month_outline_path (cellSize month lastDay : Z) :
  0 < cellSize -> 54 * cellSize <= JS.MAX_SAFE_INTEGER -> getDate month = 1 ->
  getFullYear month < 0 \/ 99 < getFullYear month ->
  isLastDayOfMonthOf month lastDay ->
  let thisWeek := getWeekNumber month in
  let thisDow := getDayNumber month in
  let nextWeek := getWeekNumber lastDay in
  let nextDow := getDayNumber lastDay in
  Svg.parse (getPathDescriptionForMonth cellSize month)
  = Some (outlineCommands cellSize thisWeek thisDow nextWeek nextDow)
  /\ Svg.points (outlineCommands cellSize thisWeek thisDow nextWeek nextDow)
     = outlineVertices cellSize thisWeek thisDow nextWeek nextDow
       ++ [((thisWeek + 1) * cellSize, thisDow * cellSize)].
Proof.
  intros Hcs _ _ Hy Hlast. cbv zeta. split; [|reflexivity].
  rewrite (lastDay_is_nextMonth month lastDay Hy Hlast).
  apply getPathDescriptionForMonth_parse. exact Hcs.
Qed.

(** C3, as the claim states it, fails: 31 January 2016 is in week 5, not
    4, and the outline reaches x = 85 and x = 102, not 68 and 85. *)
Lemma january_2016_as_specified_fails :
  ~ (getDayNumber (newDate 2016 0 1) = 5 /\ getWeekNumber (newDate 2016 0 1) = 0
     /\ getDayNumber (newDate 2016 0 31) = 0 /\ getWeekNumber (newDate 2016 0 31) = 4
     /\ pathPoints (getPathDescriptionForMonth 17 (newDate 2016 0 1))
        = Some [(17, 85); (0, 85); (0, 119); (68, 119); (68, 17); (85, 17);
                (85, 0); (17, 0); (17, 85)]).
Proof. vm_compute. intuition discriminate. Qed.

(** C3, amended.  With cellSize 17 and January 2016: 1 January 2016 has day
    index 5 and week index 0, 31 January 2016 has day index 0 and week index
    5, and the path is M17,85H0V119H85V17H102V0H17Z, through the vertices
    (17,85), (0,85), (0,119), (85,119), (85,17), (102,17), (102,0), (17,0)
    and back to (17,85). *)
Theorem january_2016_outline :
  let first := newDate 2016 0 1 in
  let lastDay := newDate 2016 0 31 in
  isJanuary1 2016 first /\ isLastDayOfMonthOf first lastDay
  /\ getDayNumber first = 5 /\ getWeekNumber first = 0
  /\ getDayNumber lastDay = 0 /\ getWeekNumber lastDay = 5
  /\ getPathDescriptionForMonth 17 first = "M17,85H0V119H85V17H102V0H17Z"
  /\ pathPoints (getPathDescriptionForMonth 17 first)
     = Some [(17, 85); (0, 85); (0, 119); (85, 119); (85, 17); (102, 17);
             (102, 0); (17, 0); (17, 85)].
Proof. vm_compute. intuition discriminate. Qed.

(** C6, as the claim states it, fails for a month that starts on a Sunday:
    for May 2016 the eighth vertex is the first one, so the closing edge is
    a point, and only three vertical edges are left. *)
Lemma may_2016_closing_edge_degenerate :
  let vs := [(323, 0); (306, 0); (306, 119); (374, 119); (374, 51); (391, 51);
             (391, 0); (323, 0)] in
  getDate (newDate 2016 4 1) = 1
  /\ pathPoints (getPathDescriptionForMonth 17 (newDate 2016 4 1))
     = Some (vs ++ [(323, 0)])
  /\ ~ rectilinearOctagon vs.
Proof.
  cbv zeta. split; [vm_compute; reflexivity|]. split; [vm_compute; reflexivity|].
  intros (_ & Halt & _). apply alternatesProperly_proper in Halt.
  rewrite Forall_forall in Halt.
  apply (Halt ((323, 0), (323, 0))); [|reflexivity].
  cbn. repeat first [apply list_elem_of_here | apply list_elem_of_further].
Qed.

(** C6, amended.  For every month of a year outside 0..99, given as the
    date of its first day, and every positive cellSize whose products are
    exact, the path visits eight vertices and returns to the first; the
    edges of this loop are horizontal and vertical in turn, four of each;
    an edge is a mere point exactly when it is the vertical edge from
    vertex 4 to vertex 5 and the month ends on a Saturday, or the closing
    edge from vertex 8 to vertex 1 and the month starts on a Sunday; the
    edges that are more than a point form a loop that does not meet
    itself. *)
Theorem month_outline_loop (cellSize month lastDay : Z) :
  0 < cellSize -> 54 * cellSize <= JS.MAX_SAFE_INTEGER -> getDate month = 1 ->
  getFullYear month < 0 \/ 99 < getFullYear month ->
  isLastDayOfMonthOf month lastDay ->
  exists vs first,
    pathPoints (getPathDescriptionForMonth cellSize month) = Some (vs ++ [first])
    /\ head vs = Some first /\ length vs = 8%nat
    /\ alternates true (loopEdges vs)
    /\ (forall k e, loopEdges vs !! k = Some e ->
          (fst e = snd e <->
           (k = 3%nat /\ getDay lastDay = 6) \/ (k = 7%nat /\ getDay month = 0)))
    /\ simpleLoop (properEdges (loopEdges vs)).
Proof.
  intros Hcs _ D1 Hy Hlast.
  rewrite (lastDay_is_nextMonth month lastDay Hy Hlast).
  apply outline_loop_computed; assumption.
Qed.

(** May 2016, from Sunday the 1st to Tuesday the 31st, with cells of 17
    pixels, as an instance. *)
Lemma month_outline_loop_may_2016 :
  0 < 17 /\ 54 * 17 <= JS.MAX_SAFE_INTEGER /\ getDate 16922 = 1
  /\ (getFullYear 16922 < 0 \/ 99 < getFullYear 16922)
  /\ isLastDayOfMonthOf 16922 16952
  /\ exists vs first,
       pathPoints (getPathDescriptionForMonth 17 16922) = Some (vs ++ [first])
       /\ head vs = Some first /\ length vs = 8%nat
       /\ alternates true (loopEdges vs)
       /\ (forall k e, loopEdges vs !! k = Some e ->
             (fst e = snd e <->
              (k = 3%nat /\ getDay 16952 = 6) \/ (k = 7%nat /\ getDay 16922 = 0)))
       /\ simpleLoop (properEdges (loopEdges vs)).
Proof.
  assert (H0 : 54 * 17 <= JS.MAX_SAFE_INTEGER) by (vm_compute; discriminate).
  assert (H1 : getDate 16922 = 1) by (vm_compute; reflexivity).
  assert (H2 : getFullYear 16922 < 0 \/ 99 < getFullYear 16922)
    by (right; vm_compute; reflexivity).
  assert (H3 : isLastDayOfMonthOf 16922 16952)
    by (vm_compute; intuition discriminate).
  split; [lia|]. split; [exact H0|]. split; [exact H1|]. split; [exact H2|].
  split; [exact H3|].
  apply (month_outline_loop 17 16922 16952); [lia | exact H0 | exact H1 | exact H2 | exact H3].
Defined.


(** The formula itself, were it given the same week column for both days
    (week 1, Tuesday to Thursday), would run down the left side to the
    bottom of the grid and back up, and up the right side to the top and
    back down, which is no rectangle. *)
Lemma same_column_formula_not_rectangle :
  pathPoints (pathDescription 17 1 2 1 4)
  = Some (outlineVertices 17 1 2 1 4 ++ [(34, 34)])
  /\ ~ rectangleOutline (outlineVertices 17 1 2 1 4).
Proof.
  split; [vm_compute; reflexivity|].
  rewrite outlineVertices_at. intros R.
  apply outline_rectangle_only_if in R; lia.
Qed.



End OutlineClaims.

(** ** The page after the script *)

Module PageFacts.
Import JSDate JSDateFacts Calendar CalendarSpec.

(** The years bound to the [<svg>] elements of the page. *)
Definition pageYears (p : page) : option (list Z) :=
  fmap (M := option) (fmap (M := list) svg_datum) (calendar p).

Lemma bind_returned {A B} (m : Script A) (k : A -> Script B) p a p' :
  m p = Returned a p' -> (m ≫= k) p = k a p'.
Proof. intros H. unfold mbind, Script_bind. rewrite H. reflexivity. Qed.

Lemma rect_at_update_rect path path' f p :
  exists p', update_rect path' f p = Returned () p'
    /\ rect_at path p'
       = (if decide (path = path') then f <$> rect_at path p else rect_at path p)
    /\ pageYears p' = pageYears p
    /\ console p' = console p.
Proof.
  eexists. split; [reflexivity|]. destruct p as [c con], path as [i k], path' as [i' k'].
  unfold rect_at, group_at, pageYears. cbn [calendar console fst snd].
  destruct c as [svgs|]; cbn [fmap option_fmap option_map mbind option_bind];
    [|split; [case_decide; reflexivity | split; reflexivity]].
  split; [|split; [|reflexivity]].
  - destruct (decide (i = i')) as [->|Hi].
    + rewrite list_lookup_alter_eq. destruct (svgs !! i') as [g|]; cbn;
        [|case_decide; reflexivity].
      destruct (decide (k = k')) as [->|Hk].
      * rewrite list_lookup_alter_eq. rewrite decide_True by reflexivity. reflexivity.
      * rewrite list_lookup_alter_ne by congruence.
        rewrite decide_False by congruence. reflexivity.
    + rewrite list_lookup_alter_ne by congruence.
      rewrite decide_False by congruence. reflexivity.
  - f_equal. apply list_eq. intros j. rewrite !list_lookup_fmap.
    destruct (decide (i' = j)) as [->|Hj].
    + rewrite list_lookup_alter_eq. destruct (svgs !! j); reflexivity.
    + rewrite list_lookup_alter_ne by congruence. reflexivity.
Qed.

Lemma each_inv {A} (I : page -> Prop) (sel : list A) (f : A -> Script unit) :
  (forall a p, a ∈ sel -> I p -> exists p', f a p = Returned () p' /\ I p') ->
  forall p, I p -> exists p', each sel f p = Returned () p' /\ I p'.
Proof.
  induction sel as [|a sel IH]; intros Hf p Hp.
  - exists p. split; [reflexivity | exact Hp].
  - destruct (Hf a p ltac:(left) Hp) as (p1 & E1 & H1).
    destruct (IH (fun b q Hb => Hf b q (list_elem_of_further _ _ _ Hb)) p1 H1)
      as (p2 & E2 & H2).
    exists p2. split; [|exact H2].
    cbn [each]. rewrite (bind_returned _ _ _ _ _ E1). exact E2.
Qed.

Lemma elem_of_concat {A} (x : A) (ls : list (list A)) :
  x ∈ concat ls <-> exists l, x ∈ l /\ l ∈ ls.
Proof.
  rewrite list_elem_of_In, in_concat. split.
  - intros (l & Hl & Hx). exists l. rewrite !list_elem_of_In. auto.
  - intros (l & Hx & Hl). exists l. rewrite <- !list_elem_of_In. auto.
Qed.

(** A pass that only reads the rectangles. *)
Lemma mapM_read_rect {B} (g : nat * nat -> option DayRect -> B) sel p :
  mapM (fun path => o ← read_rect path; mret (g path o)) sel p
  = Returned ((fun path => g path (rect_at path p)) <$> sel) p.
Proof.
  induction sel as [|a sel IH]; [reflexivity|].
  cbn [mapM fmap list_fmap].
  erewrite bind_returned; [|reflexivity].
  erewrite bind_returned; [|exact IH]. reflexivity.
Qed.

Section Restyle.
Variable data : gmap string Entry.

(** [p'] is [p] with some rectangles restyled: the same years, the same
    rectangles with the same data, and those whose date string is not a
    key of the data altogether unchanged; the console has only grown. *)
Definition restyled (p p' : page) : Prop :=
  pageYears p' = pageYears p
  /\ (exists logged, console p' = console p ++ logged)
  /\ forall path,
       match rect_at path p with
       | Some r =>
           exists r', rect_at path p' = Some r'
             /\ rect_datum r' = rect_datum r
             /\ (data !! rect_datum r = None -> r' = r)
       | None => rect_at path p' = None
       end.

Lemma restyled_refl p : restyled p p.
Proof.
  split; [reflexivity|]. split; [exists []; rewrite app_nil_r; reflexivity|].
  intros path. destruct (rect_at path p) as [r|]; [|reflexivity].
  exists r. auto.
Qed.

Lemma restyled_trans p q r : restyled p q -> restyled q r -> restyled p r.
Proof.
  intros (Y1 & (l1 & C1) & H1) (Y2 & (l2 & C2) & H2). split; [congruence|].
  split; [exists (l1 ++ l2); rewrite C2, C1, app_assoc; reflexivity|].
  intros path.
  specialize (H1 path). specialize (H2 path).
  destruct (rect_at path p) as [a|].
  - destruct H1 as (b & Eb & Db & Fb). rewrite Eb in H2.
    destruct H2 as (c & Ec & Dc & Fc). exists c.
    split; [exact Ec|]. split; [congruence|].
    intros N. rewrite Fc; [apply Fb; exact N|]. rewrite Db. exact N.
  - rewrite H1 in H2. exact H2.
Qed.

Lemma restyled_update path f p :
  (forall r, rect_datum (f r) = rect_datum r) ->
  (forall r, rect_at path p = Some r -> is_Some (data !! rect_datum r)) ->
  exists p', update_rect path f p = Returned () p' /\ restyled p p'
    /\ rect_at path p' = f <$> rect_at path p
    /\ (forall other, other <> path -> rect_at other p' = rect_at other p).
Proof.
  intros Hf Hin.
  destruct (rect_at_update_rect path path f p) as (p' & E & Er & Ey & Ec).
  exists p'. split; [exact E|]. rewrite decide_True in Er by reflexivity.
  assert (Ho : forall other, other <> path -> rect_at other p' = rect_at other p).
  { intros other Hne.
    destruct (rect_at_update_rect other path f p) as (p'' & E' & Er' & _ & _).
    rewrite E in E'. injection E' as <-. rewrite decide_False in Er' by exact Hne.
    exact Er'. }
  split; [|split; [exact Er | exact Ho]].
  split; [exact Ey|].
  split; [exists []; rewrite app_nil_r; exact Ec|]. intros other.
  destruct (decide (other = path)) as [->|Hne].
  - rewrite Er. destruct (rect_at path p) as [r|] eqn:Hr; [|reflexivity].
    exists (f r). split; [reflexivity|]. split; [apply Hf|].
    intros N. destruct (Hin r eq_refl) as [e He]. congruence.
  - rewrite (Ho other Hne). destruct (rect_at other p) as [r|]; [|reflexivity].
    exists r. auto.
Qed.

Lemma restyled_console_log v p :
  exists p', console_log v p = Returned () p' /\ restyled p p'
    /\ forall path, rect_at path p' = rect_at path p.
Proof.
  eexists. split; [reflexivity|]. split; [|reflexivity].
  split; [reflexivity|]. split; [exists [v]; reflexivity|]. intros path.
  change (rect_at path {| calendar := calendar p; console := console p ++ [v] |})
    with (rect_at path p).
  destruct (rect_at path p) as [r|]; [|reflexivity]. exists r. auto.
Qed.

End Restyle.

Lemma bisect_le thresholds x : (D3.bisect thresholds x <= length thresholds)%nat.
Proof. unfold D3.bisect. apply length_filter. Qed.

(** The colour scale has a class for every value. *)
Lemma getColorScale_total v : is_Some (getColorScale v).
Proof.
  unfold getColorScale, D3.scaleQuantize. apply lookup_lt_is_Some.
  match goal with |- (D3.bisect ?t _ < ?n)%nat =>
    pose proof (bisect_le t v) as H;
    assert (Hl : (length t < n)%nat) by (vm_compute; lia)
  end. lia.
Qed.

Section UpdatePass.
Variable data : gmap string Entry.

Lemma getRectClass_Some s : is_Some (data !! s) -> is_Some (getRectClass data s).
Proof.
  intros [e He]. unfold getRectClass. rewrite He. cbn.
  destruct (getColorScale_total (Value e)) as [c Hc]. rewrite Hc. cbn. eauto.
Qed.

Lemma getRectTitle_Some s : is_Some (data !! s) -> is_Some (getRectTitle data s).
Proof. intros [e He]. unfold getRectTitle. rewrite He. cbn. eauto. Qed.

(** A rectangle that is there, with a date string the data has. *)
Definition matched (p : page) (path : nat * nat) : Prop :=
  exists r, rect_at path p = Some r /\ is_Some (data !! rect_datum r).

(** Such a rectangle whose first title carries a date string the data
    has. *)
Definition titled (p : page) (path : nat * nat) : Prop :=
  exists r first others,
    rect_at path p = Some r /\ rect_titles r = first :: others
    /\ is_Some (data !! title_datum first) /\ is_Some (data !! rect_datum r).

Lemma matched_restyled p q path : matched p path -> restyled data p q -> matched q path.
Proof.
  intros (r & Hr & Hin) (_ & _ & H). specialize (H path). rewrite Hr in H.
  destruct H as (r' & Hr' & Hd & _). exists r'. rewrite Hd. auto.
Qed.

(** The step of [.attr("class", getRectClass)] on one rectangle. *)
Definition class_step (path : nat * nat) : Script unit :=
  o ← read_rect path;
  match o with
  | Some r =>
      match getRectClass data (rect_datum r) with
      | Some c => update_rect path (set_rect_class c)
      | None => throw TypeError
      end
  | None => mret ()
  end.

Lemma class_step_spec path q :
  matched q path ->
  exists q', class_step path q = Returned () q' /\ restyled data q q'.
Proof.
  intros (r & Hr & Hin). unfold class_step.
  erewrite bind_returned; [|reflexivity]. rewrite Hr.
  destruct (getRectClass_Some _ Hin) as [c Hc]. rewrite Hc.
  destruct (restyled_update data path (set_rect_class c) q) as (q' & E & R & _).
  - reflexivity.
  - intros r0 Hr0. rewrite Hr in Hr0. injection Hr0 as <-. exact Hin.
  - exists q'. auto.
Qed.

(** The step of [.select("title")] on one rectangle. *)
Definition select_step (path : nat * nat) : Script (list (nat * nat)) :=
  o ← read_rect path;
  match o with
  | Some r =>
      match rect_titles r with
      | first :: others =>
          _ ← update_rect path
                (set_rect_titles
                   ({| title_datum := rect_datum r;
                       title_text := title_text first |} :: others));
          mret [path]
      | [] => mret []
      end
  | None => mret []
  end.

Lemma titled_other p q path :
  titled p path -> rect_at path q = rect_at path p -> titled q path.
Proof.
  intros (r & first & others & Hr & H) E. exists r, first, others.
  rewrite E. auto.
Qed.

Lemma select_step_spec path q :
  matched q path ->
  exists b q', select_step path q = Returned b q' /\ restyled data q q'
    /\ (forall x, titled q x -> titled q' x)
    /\ (forall x, x ∈ b -> titled q' x).
Proof.
  intros (r & Hr & Hin). unfold select_step.
  erewrite bind_returned; [|reflexivity]. rewrite Hr.
  destruct (rect_titles r) as [|first others] eqn:Ht.
  - exists [], q. split; [reflexivity|]. split; [apply restyled_refl|].
    split; [auto|]. intros x Hx. inversion Hx.
  - destruct (restyled_update data path
                (set_rect_titles ({| title_datum := rect_datum r;
                                     title_text := title_text first |} :: others)) q)
      as (q' & E & R & Eq & Ho).
    + reflexivity.
    + intros r0 Hr0. rewrite Hr in Hr0. injection Hr0 as <-. exact Hin.
    + assert (Tp : titled q' path).
      { rewrite Hr in Eq. eexists _, _, _. split; [exact Eq|].
        split; [reflexivity|]. split; exact Hin. }
      exists [path], q'. erewrite bind_returned; [|exact E].
      split; [reflexivity|]. split; [exact R|]. split.
      * intros x Tx. destruct (decide (x = path)) as [->|Hne]; [exact Tp|].
        eapply titled_other; [exact Tx | apply Ho; exact Hne].
      * intros x Hx. apply list_elem_of_singleton in Hx as ->. exact Tp.
Qed.

Lemma select_loop_spec p0 : forall sel q done,
  (forall path, path ∈ sel -> matched p0 path) ->
  restyled data p0 q ->
  (forall path, path ∈ done -> titled q path) ->
  exists bs q',
    mapM select_step sel q = Returned bs q' /\ restyled data p0 q'
    /\ (forall path, path ∈ done ++ concat bs -> titled q' path).
Proof.
  induction sel as [|a sel IH]; intros q done Hsel HR Hdone.
  - exists [], q. split; [reflexivity|]. split; [exact HR|].
    cbn. rewrite app_nil_r. exact Hdone.
  - assert (Ma : matched q a)
      by (eapply matched_restyled; [apply Hsel; left | exact HR]).
    destruct (select_step_spec a q Ma) as (b & q1 & E1 & R1 & O1 & B1).
    destruct (IH q1 (done ++ b)) as (bs & q2 & E2 & R2 & T2).
    + intros path Hp. apply Hsel. right. exact Hp.
    + eapply restyled_trans; eassumption.
    + intros path Hp. apply elem_of_app in Hp as [Hp|Hp].
      * apply O1, Hdone. exact Hp.
      * apply B1. exact Hp.
    + exists (b :: bs), q2. cbn [mapM].
      erewrite bind_returned; [|exact E1].
      erewrite bind_returned; [|exact E2].
      split; [reflexivity|]. split; [exact R2|].
      cbn [concat]. rewrite app_assoc. exact T2.
Qed.

(** The step of [.text(getRectTitle)] on one title. *)
Definition text_step (path : nat * nat) : Script unit :=
  o ← read_rect path;
  match o with
  | Some r =>
      match rect_titles r with
      | first :: others =>
          _ ← console_log data;
          match getRectTitle data (title_datum first) with
          | Some text =>
              update_rect path
                (set_rect_titles
                   ({| title_datum := title_datum first;
                       title_text := text |} :: others))
          | None => throw TypeError
          end
      | [] => mret ()
      end
  | None => mret ()
  end.

Lemma text_step_spec path q :
  titled q path ->
  exists q', text_step path q = Returned () q' /\ restyled data q q'
    /\ titled q' path
    /\ (forall other, other <> path -> rect_at other q' = rect_at other q).
Proof.
  intros (r & first & others & Hr & Ht & Hin1 & Hin2). unfold text_step.
  erewrite bind_returned; [|reflexivity]. rewrite Hr, Ht.
  destruct (restyled_console_log data data q) as (q1 & E1 & R1 & S1).
  erewrite bind_returned; [|exact E1].
  destruct (getRectTitle_Some _ Hin1) as [text Htext]. rewrite Htext.
  destruct (restyled_update data path
              (set_rect_titles ({| title_datum := title_datum first;
                                   title_text := text |} :: others)) q1)
    as (q2 & E2 & R2 & Eq & Ho).
  - reflexivity.
  - intros r0 Hr0. rewrite S1, Hr in Hr0. injection Hr0 as <-. exact Hin2.
  - exists q2. split; [exact E2|]. split; [eapply restyled_trans; eassumption|].
    split.
    + rewrite S1, Hr in Eq. eexists _, _, _. split; [exact Eq|].
      split; [reflexivity|]. split; assumption.
    + intros other Hne. rewrite (Ho other Hne). apply S1.
Qed.

(** The update pass returns, and restyles only rectangles whose date
    string is a key of the data. *)
Lemma updateClassAndTitle_restyles dayRects p :
  exists p', updateClassAndTitleForDayRects data dayRects p = Returned () p'
    /\ restyled data p p'.
Proof.
  unfold updateClassAndTitleForDayRects.
  erewrite bind_returned; [|apply mapM_read_rect].
  set (filtered := concat _).
  assert (HF : forall path, path ∈ filtered -> matched p path).
  { intros path Hp. unfold filtered in Hp.
    apply elem_of_concat in Hp as (l & Hp & Hl).
    apply list_elem_of_fmap in Hl as (path' & -> & _).
    destruct (rect_at path' p) as [r|] eqn:Hr; [|inversion Hp].
    destruct (isRectDataInCsvData data (rect_datum r)) eqn:Hb; [|inversion Hp].
    apply list_elem_of_singleton in Hp as ->.
    exists r. split; [exact Hr|].
    unfold isRectDataInCsvData in Hb. apply bool_decide_eq_true in Hb. exact Hb. }
  fold class_step.
  destruct (each_inv (restyled data p) filtered class_step) with (p := p)
    as (p1 & E1 & R1).
  { intros a q Ha Hq.
    destruct (class_step_spec a q) as (q' & E & R);
      [eapply matched_restyled; [apply HF; exact Ha | exact Hq]|].
    exists q'. split; [exact E|]. eapply restyled_trans; eassumption. }
  { apply restyled_refl. }
  erewrite bind_returned; [|exact E1].
  fold select_step.
  destruct (select_loop_spec p filtered p1 []) as (bs & p2 & E2 & R2 & T2);
    [exact HF | exact R1 | intros path Hp; inversion Hp |].
  erewrite bind_returned; [|exact E2]. cbn [app] in T2.
  fold text_step.
  destruct (each_inv (fun q => restyled data p q
                                /\ forall path, path ∈ concat bs -> titled q path)
              (concat bs) text_step) with (p := p2) as (p3 & E3 & R3 & _).
  { intros a q Ha [Hq Tq].
    destruct (text_step_spec a q (Tq a Ha)) as (q' & E & R & Ta & Ho).
    exists q'. split; [exact E|]. split; [eapply restyled_trans; eassumption|].
    intros path Hp. destruct (decide (path = a)) as [->|Hne]; [exact Ta|].
    eapply titled_other; [apply Tq; exact Hp | apply Ho; exact Hne]. }
  { split; assumption. }
  exists p3. split; [exact E3 | exact R3].
Qed.

End UpdatePass.

Definition mkPage (svgs : list YearSvg) (con : list (gmap string Entry)) : page :=
  {| calendar := Some svgs; console := con |}.

Lemma update_group_app f pre g post con :
  update_group (length pre) f (mkPage (pre ++ g :: post) con)
  = Returned () (mkPage (pre ++ f g :: post) con).
Proof.
  unfold update_group, mkPage. cbn [calendar console fmap option_fmap option_map].
  rewrite alter_app_r_alt by lia. rewrite Nat.sub_diag. reflexivity.
Qed.

Lemma each_app_returned {A} (l1 l2 : list A) (f : A -> Script unit) p p1 :
  each l1 f p = Returned () p1 -> each (l1 ++ l2) f p = each l2 f p1.
Proof.
  revert p. induction l1 as [|a l1 IH]; intros p E.
  - cbn in E. injection E as <-. reflexivity.
  - cbn [each app] in *. unfold mbind, Script_bind in *.
    destruct (f a p) as [[] q|]; [|discriminate]. apply IH. exact E.
Qed.

(** A pass over the groups of a selection that covers the elements
    [new] after [pre]. *)
Lemma each_update_groups f : forall new pre con,
  each (seq (length pre) (length new)) (fun i => update_group i f)
       (mkPage (pre ++ new) con)
  = Returned () (mkPage (pre ++ (f <$> new)) con).
Proof.
  induction new as [|g new IH]; intros pre con.
  - reflexivity.
  - cbn [length seq each fmap list_fmap].
    erewrite bind_returned; [|apply update_group_app].
    replace (pre ++ f g :: new) with ((pre ++ [f g]) ++ new)
      by (rewrite <- app_assoc; reflexivity).
    replace (S (length pre)) with (length (pre ++ [f g]))
      by (rewrite length_app; cbn; lia).
    rewrite IH. rewrite <- app_assoc. reflexivity.
Qed.

(** The rectangle made for a date. *)
Definition dayRect (cellSize : Z) (date : Z) : DayRect :=
  {| rect_class := "day"; rect_width := cellSize; rect_height := cellSize;
     rect_x := getX cellSize date; rect_y := getY cellSize date;
     rect_datum := D3.timeFormat_Ymd date; rect_titles := [] |}.

Definition withDays (cellSize : Z) (g : YearSvg) : YearSvg :=
  set_g_days (dayRect cellSize <$> getAllDaysInYear (svg_datum g)) g.

(** The positions of all the rectangles of the groups [new] after [n]
    others. *)
Definition rectPaths (n : nat) (new : list YearSvg) : list (nat * nat) :=
  concat (imap (fun j g => (fun k => ((n + j)%nat, k)) <$> seq 0 (length (g_days g)))
               new).

Lemma rectPaths_cons n g new :
  rectPaths n (g :: new)
  = ((fun k => (n, k)) <$> seq 0 (length (g_days g))) ++ rectPaths (S n) new.
Proof.
  unfold rectPaths. rewrite imap_cons. cbn [concat]. f_equal.
  - rewrite Nat.add_0_r. reflexivity.
  - f_equal. apply imap_ext. intros j x _. cbn.
    replace (n + S j)%nat with (S (n + j)) by lia. reflexivity.
Qed.

Lemma generateDayRects_fresh cellSize : forall new pre con,
  Forall (fun g => g_days g = []) new ->
  generateDayRects (seq (length pre) (length new)) cellSize (mkPage (pre ++ new) con)
  = Returned (rectPaths (length pre) (withDays cellSize <$> new))
             (mkPage (pre ++ (withDays cellSize <$> new)) con).
Proof.
  intros new pre con Hnew. unfold generateDayRects.
  match goal with |- (mapM ?f _ ≫= _) _ = _ => set (step := f) end.
  assert (H : forall new pre, Forall (fun g => g_days g = []) new ->
    mapM step (seq (length pre) (length new)) (mkPage (pre ++ new) con)
    = Returned (imap (fun j g => (fun k => ((length pre + j)%nat, k))
                                   <$> seq 0 (length (g_days g)))
                     (withDays cellSize <$> new))
               (mkPage (pre ++ (withDays cellSize <$> new)) con)).
  { clear. induction new as [|g new IH]; intros pre Hnew; [reflexivity|].
    apply Forall_cons in Hnew as [Hg Hnew].
    cbn [length seq mapM fmap list_fmap]. rewrite imap_cons.
    assert (E : step (length pre) (mkPage (pre ++ g :: new) con)
                = Returned ((fun k => (length pre, k))
                              <$> seq 0 (length (g_days (withDays cellSize g))))
                           (mkPage (pre ++ withDays cellSize g :: new) con)).
    { unfold step. erewrite bind_returned; [|reflexivity].
      unfold group_at. cbn [calendar mkPage mbind option_bind].
      rewrite lookup_app_r by lia. rewrite Nat.sub_diag. cbn [lookup list_lookup].
      rewrite Hg. cbn [length drop app].
      erewrite bind_returned; [|apply update_group_app].
      unfold withDays, set_g_days at 2. cbn [g_days]. rewrite !length_fmap.
      rewrite Hg. reflexivity. }
    erewrite bind_returned; [|exact E].
    replace (pre ++ withDays cellSize g :: new)
      with ((pre ++ [withDays cellSize g]) ++ new)
      by (rewrite <- app_assoc; reflexivity).
    replace (S (length pre)) with (length (pre ++ [withDays cellSize g]))
      by (rewrite length_app; cbn; lia).
    erewrite bind_returned; [|apply IH; exact Hnew].
    rewrite <- app_assoc. cbn [app mret Script_ret]. f_equal.
    f_equal.
    - rewrite Nat.add_0_r. reflexivity.
    - apply imap_ext. intros j x _. cbn. rewrite length_app. cbn [length].
      replace (length pre + 1 + j)%nat with (length pre + S j)%nat by lia.
      reflexivity. }
  erewrite bind_returned; [|apply H; exact Hnew]. reflexivity.
Qed.

Definition mapDays (f : DayRect -> DayRect) (g : YearSvg) : YearSvg :=
  set_g_days (f <$> g_days g) g.

Lemma update_rect_app f pre g post con done r todo :
  g_days g = done ++ r :: todo ->
  update_rect (length pre, length done) f (mkPage (pre ++ g :: post) con)
  = Returned () (mkPage (pre ++ set_g_days (done ++ f r :: todo) g :: post) con).
Proof.
  intros Hg. unfold update_rect. cbn [fst snd].
  rewrite update_group_app. rewrite Hg.
  rewrite alter_app_r_alt by lia. rewrite Nat.sub_diag. reflexivity.
Qed.

Lemma set_g_days_twice l l' g : set_g_days l (set_g_days l' g) = set_g_days l g.
Proof. reflexivity. Qed.

Lemma set_g_days_same g : set_g_days (g_days g) g = g.
Proof. destruct g. reflexivity. Qed.

(** A pass over the rectangles [todo] of one group. *)
Lemma each_update_rects_group f pre post con g : forall todo done,
  g_days g = done ++ todo ->
  each ((fun k => (length pre, k)) <$> seq (length done) (length todo))
       (fun path => update_rect path f)
       (mkPage (pre ++ g :: post) con)
  = Returned () (mkPage (pre ++ set_g_days (done ++ (f <$> todo)) g :: post) con).
Proof.
  intros todo. revert g. induction todo as [|r todo IH]; intros g done Hg.
  - cbn. rewrite <- Hg, set_g_days_same. reflexivity.
  - cbn [length seq fmap list_fmap each].
    erewrite bind_returned; [|apply (update_rect_app f pre g post con done r todo Hg)].
    replace (S (length done)) with (length (done ++ [f r]))
      by (rewrite length_app; cbn; lia).
    rewrite (IH _ (done ++ [f r])).
    + rewrite set_g_days_twice, <- app_assoc. reflexivity.
    + cbn [g_days set_g_days]. rewrite <- app_assoc. reflexivity.
Qed.

(** A pass over all the rectangles of the groups [new]. *)
Lemma each_update_rects f : forall new pre con,
  each (rectPaths (length pre) new) (fun path => update_rect path f)
       (mkPage (pre ++ new) con)
  = Returned () (mkPage (pre ++ (mapDays f <$> new)) con).
Proof.
  induction new as [|g new IH]; intros pre con; [reflexivity|].
  rewrite rectPaths_cons.
  erewrite each_app_returned;
    [|apply (each_update_rects_group f pre new con g (g_days g) []); reflexivity].
  cbn [app]. fold (mapDays f g).
  replace (pre ++ mapDays f g :: new) with ((pre ++ [mapDays f g]) ++ new)
    by (rewrite <- app_assoc; reflexivity).
  replace (S (length pre)) with (length (pre ++ [mapDays f g]))
    by (rewrite length_app; cbn; lia).
  rewrite IH. rewrite <- app_assoc. reflexivity.
Qed.

Lemma rectPaths_mapDays f n new : rectPaths n (mapDays f <$> new) = rectPaths n new.
Proof.
  unfold rectPaths. rewrite imap_fmap. f_equal. apply imap_ext.
  intros j g _. cbn. rewrite length_fmap. reflexivity.
Qed.

(** The years of the calendar. *)
Definition calendarYears : list Z := D3.range 2016 2100.

(** The [<svg>] elements already in the page, with the data the join binds
    to them. *)
Definition boundSvgs (svgs : list YearSvg) : list YearSvg :=
  imap (fun i g => from_option (fun y => set_svg_datum y g) g (calendarYears !! i))
       svgs.

(** The [<title>] given to a day rectangle. *)
Definition withTitle (r : DayRect) : DayRect :=
  set_rect_titles
    (rect_titles r ++ [{| title_datum := rect_datum r; title_text := rect_datum r |}])
    r.

(** The group of a year as the script has built it before the update
    pass. *)
Definition yearGroup (width height cellSize year : Z) : YearSvg :=
  {| svg_datum := year; svg_width := width; svg_height := height;
     svg_class := "year";
     g_translate := ((inject_Z (width - cellSize * 53) / 2)%Q,
                     inject_Z (height - cellSize * 7 - 1));
     g_texts := [{| text_translate :=
                      (inject_Z (-6), (inject_Z (cellSize * 7) / 2)%Q);
                    text_rotate := -90; text_anchor := "middle";
                    text_content := JS.toString year |}];
     g_days := withTitle <$> (dayRect cellSize <$> getAllDaysInYear year);
     g_months :=
       (fun month => {| path_class := "month"; path_datum := month;
                        path_d := getPathDescriptionForMonth cellSize month |})
         <$> getAllMonthsInYear year |}.

Definition builtPage (p : page) (svgs : list YearSvg) : page :=
  mkPage (boundSvgs svgs
          ++ (yearGroup 960 136 17 <$> drop (length svgs) calendarYears))
         (console p).

Lemma render_built data p svgs :
  calendar p = Some svgs ->
  exists p', render data p = Returned () p' /\ restyled data (builtPage p svgs) p'.
Proof.
  intros Hc. unfold render.
  assert (Lb : length (boundSvgs svgs) = length svgs) by apply length_imap.
  set (years' := drop (length svgs) calendarYears).
  (* generateYearGroups *)
  match goal with |- context [generateYearGroups ?w ?h ?c] =>
    assert (E1 : exists entered,
      generateYearGroups w h c p
      = Returned (seq (length (boundSvgs svgs)) (length entered))
                 (mkPage (boundSvgs svgs ++ entered) (console p))
      /\ entered = (fun year =>
             {| svg_datum := year; svg_width := w; svg_height := h;
                svg_class := "year";
                g_translate := ((inject_Z (w - c * 53) / 2)%Q,
                                inject_Z (h - c * 7 - 1));
                g_texts := []; g_days := []; g_months := [] |}) <$> years')
  end.
  { eexists. split; [|reflexivity].
    unfold generateYearGroups. rewrite Hc. rewrite Lb. reflexivity. }
  destruct E1 as (entered & E1 & Hent).
  erewrite bind_returned; [|exact E1].
  (* attachTextToYearGroups *)
  unfold attachTextToYearGroups at 1.
  erewrite bind_returned; [|apply each_update_groups].
  (* generateDayRects *)
  match goal with |- context [mkPage (_ ++ (?f <$> entered))] => set (withText := f) end.
  replace (length entered) with (length (withText <$> entered))
    by apply length_fmap.
  erewrite bind_returned;
    [|apply generateDayRects_fresh; subst entered;
      rewrite Forall_fmap, Forall_fmap; apply Forall_true; reflexivity].
  (* attachTitlesToDayRects *)
  unfold attachTitlesToDayRects at 1.
  erewrite bind_returned; [|apply each_update_rects].
  fold withTitle.
  (* appendMonthPathsToYearGroups *)
  unfold appendMonthPathsToYearGroups at 1.
  replace (length (withText <$> entered))
    with (length (mapDays withTitle <$> (withDays 17 <$> (withText <$> entered))))
    by (rewrite !length_fmap; reflexivity).
  erewrite bind_returned; [|apply each_update_groups].
  (* the page built so far *)
  match goal with |- context [updateClassAndTitleForDayRects _ ?sel ?q] =>
    assert (Eq : q = builtPage p svgs)
  end.
  { unfold builtPage. f_equal. f_equal. subst entered. fold years'.
    rewrite <- !list_fmap_compose. apply list_fmap_ext. intros _ year _.
    reflexivity. }
  rewrite Eq. apply updateClassAndTitle_restyles.
Qed.

Lemma elem_of_range a b y : y ∈ D3.range a b <-> a <= y < b.
Proof.
  unfold D3.range. rewrite list_elem_of_In, in_map_iff. split.
  - intros (i & <- & Hi). apply in_seq in Hi. lia.
  - intros H. exists (Z.to_nat (y - a)). split; [lia|]. apply in_seq. lia.
Qed.

Lemma rect_at_mkPage_app pre new con i k :
  (length pre <= i)%nat ->
  rect_at (i, k) (mkPage (pre ++ new) con)
  = new !! (i - length pre)%nat ≫= (fun g => g_days g !! k).
Proof.
  intros Hi. unfold rect_at, group_at, mkPage.
  cbn [calendar fst snd mbind option_bind].
  rewrite lookup_app_r by exact Hi. reflexivity.
Qed.

Lemma g_days_yearGroup w h c y :
  g_days (yearGroup w h c y)
  = withTitle <$> (dayRect c <$> getAllDaysInYear y).
Proof. reflexivity. Qed.

Lemma rect_at_built p svgs i k r :
  (length svgs <= i)%nat ->
  rect_at (i, k) (builtPage p svgs) = Some r ->
  exists date, r = withTitle (dayRect 17 date).
Proof.
  intros Hi. unfold builtPage.
  rewrite rect_at_mkPage_app by (unfold boundSvgs; rewrite length_imap; exact Hi).
  intros H. apply bind_Some in H as (g & Hg & Hk).
  apply list_lookup_fmap_Some in Hg as (year & -> & _).
  rewrite g_days_yearGroup in Hk.
  apply list_lookup_fmap_Some in Hk as (r0 & -> & Hk).
  apply list_lookup_fmap_Some in Hk as (date & -> & _).
  exists date. reflexivity.
Qed.

Lemma rect_at_built_lookup p svgs i k year date :
  (length svgs <= i)%nat ->
  calendarYears !! i = Some year ->
  getAllDaysInYear year !! k = Some date ->
  rect_at (i, k) (builtPage p svgs) = Some (withTitle (dayRect 17 date)).
Proof.
  intros Hi Hy Hd. unfold builtPage.
  rewrite rect_at_mkPage_app by (unfold boundSvgs; rewrite length_imap; exact Hi).
  unfold boundSvgs. rewrite length_imap, list_lookup_fmap, lookup_drop.
  replace (length svgs + (i - length svgs))%nat with i by lia. rewrite Hy.
  cbn [fmap option_fmap option_map mbind option_bind].
  rewrite g_days_yearGroup, !list_lookup_fmap, Hd. reflexivity.
Qed.

Lemma withTitle_dayRect c date :
  rect_datum (withTitle (dayRect c date)) = D3.timeFormat_Ymd date
  /\ rect_class (withTitle (dayRect c date)) = "day"
  /\ rect_titles (withTitle (dayRect c date))
     = [{| title_datum := D3.timeFormat_Ymd date;
           title_text := D3.timeFormat_Ymd date |}].
Proof. repeat split. Qed.


Lemma years_of_yearGroups w h c (ys : list Z) :
  svg_datum <$> (yearGroup w h c <$> ys) = ys.
Proof.
  induction ys as [|y ys IH]; [reflexivity|].
  rewrite !fmap_cons, IH. reflexivity.
Qed.

Lemma pageYears_built p svgs :
  pageYears (builtPage p svgs)
  = Some ((svg_datum <$> boundSvgs svgs) ++ drop (length svgs) calendarYears).
Proof.
  unfold pageYears, builtPage, mkPage. cbn [calendar fmap option_fmap option_map].
  rewrite fmap_app, years_of_yearGroups. reflexivity.
Qed.

(** [render] returns from every page, and only adds to the console. *)
Lemma render_returns data p :
  exists p' logged,
    render data p = Returned () p' /\ console p' = console p ++ logged.
Proof.
  destruct (calendar p) as [svgs|] eqn:Hc.
  - destruct (render_built data p svgs Hc) as (p' & E & _ & (logged & C) & _).
    exists p', logged. split; [exact E | exact C].
  - exists p, []. split; [|rewrite app_nil_r; reflexivity].
    unfold render.
    erewrite bind_returned; [|unfold generateYearGroups; rewrite Hc; reflexivity].
    reflexivity.
Qed.

Lemma pageYears_Some p ys :
  pageYears p = Some ys ->
  exists svgs, calendar p = Some svgs /\ svg_datum <$> svgs = ys.
Proof.
  unfold pageYears. destruct (calendar p) as [svgs|]; [|discriminate].
  intros [= <-]. exists svgs. auto.
Qed.

End PageFacts.

Module PageClaims.
Import JSDate JSDateFacts Calendar CalendarSpec PageFacts.

(** C8.  The update pass always returns, and leaves every day rectangle
    whose date string is not a key of the data map exactly as it was.
    After [render], for every date of a year the script has made a grid
    for, the rectangle of that date is in the page, with the formatted date
    as its data; and every rectangle of such a grid whose date string is
    not a key of the data map still has the class "day" and a single title
    whose text is that date string. *)
Theorem unmatched_days_left_unchanged (data : gmap string Entry) :
  (forall dayRects p,
     exists p', updateClassAndTitleForDayRects data dayRects p = Returned () p'
       /\ forall path r,
            rect_at path p = Some r -> data !! rect_datum r = None ->
            rect_at path p' = Some r)
  /\ (forall p svgs,
        calendar p = Some svgs ->
        exists p', render data p = Returned () p'
          /\ (forall i k year date,
                (length svgs <= i)%nat ->
                D3.range 2016 2100 !! i = Some year ->
                getAllDaysInYear year !! k = Some date ->
                exists r, rect_at (i, k) p' = Some r
                  /\ rect_datum r = D3.timeFormat_Ymd date)
          /\ forall i k r,
               (length svgs <= i)%nat -> rect_at (i, k) p' = Some r ->
               exists date,
                 rect_datum r = D3.timeFormat_Ymd date
                 /\ (data !! rect_datum r = None ->
                     rect_class r = "day"
                     /\ rect_titles r
                        = [{| title_datum := rect_datum r;
                              title_text := rect_datum r |}])).
Proof.
  split.
  - intros dayRects p.
    destruct (updateClassAndTitle_restyles data dayRects p) as (p' & E & _ & _ & R).
    exists p'. split; [exact E|]. intros path r Hr Hn.
    specialize (R path). rewrite Hr in R. destruct R as (r' & Hr' & _ & F).
    rewrite Hr'. f_equal. apply F. exact Hn.
  - intros p svgs Hc.
    destruct (render_built data p svgs Hc) as (p' & E & _ & _ & R).
    exists p'. split; [exact E|]. split.
    { intros i k year date Hi Hy Hd. specialize (R (i, k)).
      rewrite (rect_at_built_lookup p svgs i k year date Hi Hy Hd) in R.
      destruct R as (r & Hr & Dr & _). exists r. split; [exact Hr|].
      rewrite Dr. apply withTitle_dayRect. }
    intros i k r' Hi Hr'.
    specialize (R (i, k)).
    destruct (rect_at (i, k) (builtPage p svgs)) as [r|] eqn:Hr;
      [|congruence].
    destruct R as (r'' & Hr'' & Hd & F). rewrite Hr' in Hr''. injection Hr'' as <-.
    destruct (rect_at_built p svgs i k r Hi Hr) as (date & ->).
    destruct (withTitle_dayRect 17 date) as (W1 & W2 & W3).
    exists date. split; [rewrite Hd; exact W1|]. intros Hn. rewrite Hd in Hn.
    rewrite (F Hn). rewrite W1. split; [exact W2 | exact W3].
Qed.


(** C9.  When the load callback receives an error, it throws that error
    and leaves the page as it was: nothing is transformed, logged or
    rendered.  Without an error the callback returns instead, and the
    transformed rows are the first thing it has added to the console. *)
Theorem csv_callback_rethrows (e : ErrorObject) (csv : list CsvRow) (p : page) :
  csv_callback (Some e) csv p = Thrown (LoadError e) p
  /\ exists p' logged,
       csv_callback None csv p = Returned () p'
       /\ console p' = console p ++ nest_map csv :: logged.
Proof.
  split; [reflexivity|].
  unfold csv_callback, transformCsvData. cbv zeta.
  erewrite bind_returned; [|erewrite bind_returned; reflexivity].
  match goal with |- context [render _ ?q] =>
    destruct (render_returns (nest_map csv) q) as (p' & logged & E & C)
  end.
  exists p', logged. split; [exact E|].
  rewrite C. cbn [console]. rewrite <- app_assoc. reflexivity.
Qed.


End PageClaims.


(** * Further properties of the script *)

(** ** The months of a year *)

Module MonthsOfYear.
Import JSDate JSDateFacts Calendar CalendarSpec GridFacts YearFacts MonthFacts.

Lemma monthStart_fields y m :
  0 <= m <= 11 ->
  getFullYear (MakeDay y m 1) = y /\ getMonth (MakeDay y m 1) = m
  /\ getDate (MakeDay y m 1) = 1.
Proof.
  intros Hm. apply fields_MakeDay; [exact Hm|].
  pose proof (DaysInMonth_range (InLeapYear y) m (InLeapYear_01 y)). lia.
Qed.

(** One turn of d3's month interval from the first of a month. *)
Lemma timeMonth_step y m :
  0 <= m <= 11 ->
  D3.floori D3.timeMonth (D3.offseti D3.timeMonth (MakeDay y m 1) 1)
  = MakeDay y (m + 1) 1.
Proof.
  intros Hm. destruct (monthStart_fields y m Hm) as (Fy & Fm & Fd).
  change (D3.floori D3.timeMonth (D3.offseti D3.timeMonth (MakeDay y m 1) 1))
    with (setDate (setMonth (MakeDay y m 1) (getMonth (MakeDay y m 1) + 1)) 1).
  unfold setMonth. rewrite Fy, Fm, Fd.
  unfold setDate. rewrite MakeDay_fields, getDate_first. lia.
Qed.

Lemma monthStart_12 y : MakeDay y 12 1 = MakeDay (y + 1) 0 1.
Proof. rewrite MakeDay_normal. reflexivity. Qed.

Lemma monthStart_before_next_year y m :
  0 <= m <= 11 -> MakeDay y m 1 < MakeDay (y + 1) 0 1.
Proof.
  intros Hm. rewrite !MakeDay_in_range by lia. rewrite DayFromYear_succ.
  pose proof (InLeapYear_01 y) as Hl.
  assert (El : InLeapYear y = DaysInYear y - 365) by reflexivity.
  set (l := InLeapYear y) in *. clearbody l.
  month_cases m; tables; lia.
Qed.

(** The loop of [d3.timeMonths], started at the first of month [12 - n] of
    year [y], up to the first of the year after. *)
Lemma range_loop_timeMonth y : forall (n : nat) m,
  0 <= m -> m + Z.of_nat n = 11 ->
  D3.range_loop D3.timeMonth (MakeDay y m 1) (MakeDay (y + 1) 0 1)
  = (fun k => MakeDay y k 1) <$> D3.range m 12.
Proof.
  induction n as [|n IH]; intros m Hm Hn.
  - assert (m = 11) as -> by lia.
    rewrite range_loop_step, timeMonth_step by lia.
    change (11 + 1) with 12. rewrite monthStart_12.
    rewrite decide_False by lia. reflexivity.
  - rewrite range_loop_step, timeMonth_step by lia.
    rewrite decide_True by (apply monthStart_before_next_year; lia).
    rewrite (IH (m + 1)) by lia.
    unfold D3.range.
    replace (Z.to_nat (Z.max 0 (12 - m))) with (S (Z.to_nat (Z.max 0 (12 - (m + 1)))))
      by lia.
    cbn [seq map fmap list_fmap]. rewrite Z.add_0_r. f_equal.
    rewrite <- seq_shift, map_map. rewrite <- !list_fmap_compose.
    apply list_fmap_ext. intros _ i _. cbn. f_equal. lia.
Qed.

Lemma timeMonth_ceil_january y :
  D3.ceil D3.timeMonth (MakeDay y 0 1) = MakeDay y 0 1.
Proof.
  unfold D3.ceil.
  assert (E : MakeDay y 0 1 - 1 = MakeDay (y - 1) 11 31).
  { rewrite !MakeDay_in_range by lia.
    replace y with (y - 1 + 1) at 1 by lia. rewrite DayFromYear_succ.
    tables. unfold InLeapYear. lia. }
  rewrite E.
  assert (F : D3.floori D3.timeMonth (MakeDay (y - 1) 11 31) = MakeDay (y - 1) 11 1).
  { change (D3.floori D3.timeMonth (MakeDay (y - 1) 11 31))
      with (setDate (MakeDay (y - 1) 11 31) 1).
    unfold setDate.
    destruct (fields_MakeDay (y - 1) 11 31) as (-> & -> & _); [lia | cbn; lia|].
    reflexivity. }
  rewrite F, timeMonth_step by lia. change (11 + 1) with 12.
  rewrite monthStart_12. f_equal. lia.
Qed.

Lemma getAllMonthsInYear_eq y :
  y < -1 \/ 99 < y ->
  getAllMonthsInYear y = (fun m => MakeDay y m 1) <$> D3.range 0 12.
Proof.
  intros Hy. unfold getAllMonthsInYear.
  rewrite !newDate_full_year by lia.
  unfold D3.timeMonths, D3.interval_range. rewrite timeMonth_ceil_january.
  pose proof (monthStart_before_next_year y 0 ltac:(lia)) as Hlt.
  destruct (Z.ltb_spec (MakeDay y 0 1) (MakeDay (y + 1) 0 1)) as [_|]; [|lia].
  cbn [negb]. apply (range_loop_timeMonth y 11 0); lia.
Qed.

End MonthsOfYear.

(** ** Day squares and month outlines *)

Module CellFacts.
Import JSDate JSDateFacts Calendar CalendarSpec GridFacts YearFacts MonthFacts.
Import Svg Outline.

(** The segments the pen draws on its way through the points [vs]: from
    each point to the next. *)
Definition drawnEdges (vs : list point) : list segment := zip vs (tail vs).

(** Whether the ray from the point [P] to the right crosses the segment
    [e].  [P] is a point of the half-integer grid, given by its doubled
    coordinates (as in [onSegment]); an end of a segment counts for the
    segment only on its lower side, so that a ray through a vertex is
    counted once. *)
Definition crossesRay (P : point) (e : segment) : bool :=
  let x1 := 2 * fst (fst e) in let y1 := 2 * snd (fst e) in
  let x2 := 2 * fst (snd e) in let y2 := 2 * snd (snd e) in
  if (y1 <=? snd P) && (snd P <? y2)
  then (fst P - x1) * (y2 - y1) <? (snd P - y1) * (x2 - x1)
  else if (y2 <=? snd P) && (snd P <? y1)
  then (snd P - y1) * (x2 - x1) <? (fst P - x1) * (y2 - y1)
  else false.

(** The even-odd rule: [P] is inside the drawn path when the ray from
    [P] to the right crosses an odd number of its segments. *)
Definition insidePath (vs : list point) (P : point) : bool :=
  foldr (fun e inside => xorb (crossesRay P e) inside) false (drawnEdges vs).

(** The points strictly inside the box of width [w] and height [h] with
    top-left corner [(x, y)]. *)
Definition interior (x y w h : Z) (P : point) : Prop :=
  2 * x < fst P < 2 * (x + w) /\ 2 * y < snd P < 2 * (y + h).

Definition enclosesBox (vs : list point) (x y w h : Z) : Prop :=
  forall P, interior x y w h P -> insidePath vs P = true.

Definition excludesBox (vs : list point) (x y w h : Z) : Prop :=
  forall P, interior x y w h P -> insidePath vs P = false.

Lemma crossesRay_horizontal P x1 x2 y : crossesRay P ((x1, y), (x2, y)) = false.
Proof.
  unfold crossesRay. cbn [fst snd].
  destruct (Z.leb_spec (2 * y) (snd P)), (Z.ltb_spec (snd P) (2 * y));
    cbn [andb]; try reflexivity; lia.
Qed.

Lemma crossesRay_vertical P x ya yb :
  crossesRay P ((x, ya), (x, yb))
  = (((2 * ya <=? snd P) && (snd P <? 2 * yb))
     || ((2 * yb <=? snd P) && (snd P <? 2 * ya)))
    && (fst P <? 2 * x).
Proof.
  unfold crossesRay. cbn [fst snd].
  replace (2 * x - 2 * x) with 0 by lia. rewrite !Z.mul_0_r.
  destruct (Z.leb_spec (2 * ya) (snd P)), (Z.ltb_spec (snd P) (2 * yb)),
           (Z.leb_spec (2 * yb) (snd P)), (Z.ltb_spec (snd P) (2 * ya)),
           (Z.ltb_spec (fst P) (2 * x));
    cbn [andb orb]; try lia;
    first [ apply Z.ltb_lt; nia | apply Z.ltb_ge; nia | reflexivity ].
Qed.

Lemma grid_line_leb cs k r q :
  0 < cs -> 2 * (r * cs) < q < 2 * (r * cs + cs) ->
  (2 * (k * cs) <=? q) = (k <=? r) /\ (q <? 2 * (k * cs)) = (r <? k).
Proof.
  intros Hcs Hq.
  assert (L : k <= r -> k * cs <= r * cs)
    by (intros; apply Z.mul_le_mono_nonneg_r; lia).
  assert (G : r + 1 <= k -> (r + 1) * cs <= k * cs)
    by (intros; apply Z.mul_le_mono_nonneg_r; lia).
  destruct (Z.leb_spec k r) as [H|H], (Z.ltb_spec r k) as [H'|H']; lia.
Qed.

Ltac decide_comparisons :=
  repeat match goal with
  | |- context [?a <=? ?b] =>
      first [ rewrite (proj2 (Z.leb_le a b)) by lia
            | rewrite (proj2 (Z.leb_gt a b)) by lia ]
  | |- context [?a <? ?b] =>
      first [ rewrite (proj2 (Z.ltb_lt a b)) by lia
            | rewrite (proj2 (Z.ltb_ge a b)) by lia ]
  end.

(** The region the outline of a month bounds, by the even-odd rule: the
    columns from that of the first day to that of the last, the first from
    the row of the first day down, the last down to the row of the last
    day. *)
Lemma outline_inside cs tw td nw nd w r P :
  0 < cs -> 0 <= td <= 6 -> 0 <= nd <= 6 -> 0 <= r <= 6 -> tw < nw ->
  interior (w * cs) (r * cs) cs cs P ->
  insidePath (outlineVertices cs tw td nw nd ++ [((tw + 1) * cs, td * cs)]) P
  = (tw <=? w) && (w <=? nw) && ((tw <? w) || (td <=? r))
    && ((w <? nw) || (r <=? nd)).
Proof.
  intros Hcs Htd Hnd Hr Hw [Hx Hy].
  unfold insidePath, drawnEdges, outlineVertices.
  cbn [app tail zip zip_with foldr].
  rewrite !crossesRay_horizontal, !crossesRay_vertical.
  destruct P as [px py]. cbn [fst snd] in *.
  rewrite !(proj2 (grid_line_leb cs _ w px Hcs Hx)).
  rewrite !(proj1 (grid_line_leb cs _ r py Hcs Hy)).
  rewrite !(proj2 (grid_line_leb cs _ r py Hcs Hy)).
  assert (H0 : 0 < py).
  { assert (0 <= r * cs) by (apply Z.mul_nonneg_nonneg; lia). lia. }
  change (2 * 0) with 0.
  assert (Cw : w < tw \/ w = tw \/ tw < w < nw \/ w = nw \/ nw < w) by lia.
  assert (C1 : r < td \/ td <= r) by lia.
  assert (C2 : r <= nd \/ nd < r) by lia.
  destruct Cw as [Cw|[Cw|[Cw|[Cw|Cw]]]], C1 as [C1|C1], C2 as [C2|C2];
    decide_comparisons; reflexivity.
Qed.

Lemma scaled_le cs a b : 0 < cs -> a * cs <= b * cs <-> a <= b.
Proof. intros H. split; intros; nia. Qed.

Lemma scaled_succ_le cs a b : 0 < cs -> a * cs + cs <= b * cs <-> a + 1 <= b.
Proof. intros H. split; intros; nia. Qed.

Lemma scaled_ge_0 cs a : 0 < cs -> 0 <= a * cs <-> 0 <= a.
Proof. intros H. split; intros; nia. Qed.

(** The dates of a month, counted from its first day. *)
Lemma same_month_iff month d :
  getDate month = 1 -> getFullYear d = getFullYear month ->
  getMonth d = getMonth month
  <-> month <= d
      < month + DaysInMonth (InLeapYear (getFullYear month)) (getMonth month).
Proof.
  intros D1 Hy.
  pose proof (MakeDay_fields month 1) as E. rewrite D1 in E.
  split.
  - intros Hm. pose proof (MakeDay_fields d 1) as Ed. rewrite Hy, Hm in Ed.
    pose proof (getDate_range d) as R. rewrite Hy, Hm in R. lia.
  - intros H.
    replace d with (MakeDay (getFullYear month) (getMonth month) (1 + (d - month)))
      by (rewrite MakeDay_fields; lia).
    apply fields_MakeDay; [apply getMonth_range | lia].
Qed.

(** Two different dates of one year have squares that do not overlap. *)
Lemma cells_apart (cellSize d1 d2 : Z) :
  0 < cellSize -> getFullYear d1 = getFullYear d2 -> d1 <> d2 ->
  getX cellSize d1 + cellSize <= getX cellSize d2
  \/ getX cellSize d2 + cellSize <= getX cellSize d1
  \/ getY cellSize d1 + cellSize <= getY cellSize d2
  \/ getY cellSize d2 + cellSize <= getY cellSize d1.
Proof.
  intros Hcs Hy Hne. unfold getX, getY.
  rewrite !(scaled_succ_le cellSize) by exact Hcs.
  rewrite !getWeekNumber_eq, Hy. unfold getDayNumber, getDay.
  set (j := (DayFromYear (getFullYear d2) + 4) / 7). clearbody j.
  Z.div_mod_to_equations. lia.
Qed.

(** The even-odd rule sees the closing edge: without the return of [Z]
    to the first point, the path of January 2016 would leave the square at
    the top of column 0, a day of no month of 2016, on the inside. *)
Lemma insidePath_sees_the_close :
  let vs := [(17, 85); (0, 85); (0, 119); (85, 119); (85, 17); (102, 17);
             (102, 0); (17, 0)] in
  insidePath (vs ++ [(17, 85)]) (17, 17) = false
  /\ insidePath vs (17, 17) = true.
Proof. split; reflexivity. Qed.

(** The cells between those of the first and of the last day of a
    month, column by column, are those of the days of the month. *)
Lemma month_region (first d n j : Z) :
  28 <= n <= 31 ->
  let w k := (k + 4) / 7 - j in
  let r k := (k + 4) mod 7 in
  (w first <=? w d) && (w d <=? w (first + n - 1))
  && ((w first <? w d) || (r first <=? r d))
  && ((w d <? w (first + n - 1)) || (r d <=? r (first + n - 1))) = true
  <-> first <= d < first + n.
Proof.
  intros Hn. cbv zeta.
  rewrite !andb_true_iff, !orb_true_iff, !Z.leb_le, !Z.ltb_lt.
  Z.div_mod_to_equations. lia.
Qed.

Lemma getX_eq cs d : getX cs d = getWeekNumber d * cs.
Proof. reflexivity. Qed.

Lemma getY_eq cs d : getY cs d = getDay d * cs.
Proof. reflexivity. Qed.

(** A point strictly inside the square of a date is inside the path of a
    month of the date's year exactly when the date is in that month. *)
Lemma outline_inside_month (cellSize month d : Z) (P : point) :
  0 < cellSize -> getDate month = 1 ->
  getFullYear month < 0 \/ 99 < getFullYear month ->
  getFullYear d = getFullYear month ->
  interior (getX cellSize d) (getY cellSize d) cellSize cellSize P ->
  insidePath
    (outlineVertices cellSize (getWeekNumber month) (getDay month)
       (getWeekNumber (newDate (getFullYear month) (getMonth month + 1) 0))
       (getDay (newDate (getFullYear month) (getMonth month + 1) 0))
     ++ [((getWeekNumber month + 1) * cellSize, getDay month * cellSize)]) P
  = true
  <-> getMonth d = getMonth month.
Proof.
  intros Hcs D1 Hy Hd HP. rewrite getX_eq, getY_eq in HP.
  assert (W : getWeekNumber month
              < getWeekNumber (newDate (getFullYear month) (getMonth month + 1) 0))
    by (pose proof (weeks_apart month D1); lia).
  rewrite (outline_inside cellSize _ _ _ _ _ _ P Hcs (getDay_range _)
             (getDay_range _) (getDay_range _) W HP).
  rewrite (same_month_iff month d D1 Hd).
  destruct (nextMonth_offset month D1 Hy) as [El Ely].
  rewrite !getWeekNumber_eq, Ely, Hd, El. unfold getDay.
  apply (month_region month d _ ((DayFromYear (getFullYear month) + 4) / 7)).
  apply DaysInMonth_range, InLeapYear_01.
Qed.

(** The outline of a month and the squares of the days of its year. *)
Lemma outline_encloses (cellSize month : Z) :
  0 < cellSize -> getDate month = 1 ->
  getFullYear month < 0 \/ 99 < getFullYear month ->
  exists vs,
    pathPoints (getPathDescriptionForMonth cellSize month) = Some vs
    /\ head vs = last vs
    /\ forall d, getFullYear d = getFullYear month ->
         (getMonth d = getMonth month ->
          enclosesBox vs (getX cellSize d) (getY cellSize d) cellSize cellSize)
         /\ (getMonth d <> getMonth month ->
             excludesBox vs (getX cellSize d) (getY cellSize d) cellSize cellSize).
Proof.
  intros Hcs D1 Hy.
  exists (outlineVertices cellSize (getWeekNumber month) (getDay month)
            (getWeekNumber (newDate (getFullYear month) (getMonth month + 1) 0))
            (getDay (newDate (getFullYear month) (getMonth month + 1) 0))
          ++ [((getWeekNumber month + 1) * cellSize, getDay month * cellSize)]).
  split; [apply (pathPoints_month cellSize month Hcs)|].
  split; [reflexivity|]. intros d Hd. split.
  - intros Hm P HP. apply (outline_inside_month cellSize month d P); assumption.
  - intros Hm P HP. apply not_true_is_false. intros T. apply Hm.
    apply (outline_inside_month cellSize month d P); assumption.
Qed.

End CellFacts.

(** ** The data map and the colour scale *)

Module DataFacts.
Import JSDate Calendar PageFacts.

(** The entry the script keeps for a CSV row. *)
Definition entryOf (row : CsvRow) : Entry :=
  {| Value := row_Value row; Name := row_Name row |}.

Lemma nest_fold_lookup (all : list CsvRow) (date : string) : forall rows,
  foldr (fun row m =>
           <[getDataObjectKey row :=
               getDataObjectValue row
                 (filter (fun r => getDataObjectKey r = getDataObjectKey row) all)]> m)
        (∅ : gmap string Entry) rows !! date
  = entryOf <$> head (filter (fun row => row_Date row = date) rows).
Proof.
  induction rows as [|row rows IH]; [reflexivity|].
  cbn [foldr]. rewrite filter_cons. unfold getDataObjectKey at 1.
  destruct (decide (row_Date row = date)) as [E|N].
  - rewrite E, lookup_insert_eq. reflexivity.
  - rewrite lookup_insert_ne by exact N. exact IH.
Qed.

(** The bucket of the colour scale a value falls in. *)
Definition colorBucket (v : Z) : Z := Z.max 0 (Z.min 9 (v / 10)).

Lemma getColorScale_eq v :
  getColorScale v = Some ("color" +:+ JS.toString (colorBucket v)).
Proof.
  unfold getColorScale, D3.scaleQuantize.
  match goal with |- context [D3.quantize_thresholds ?a ?b ?n] =>
    let t := eval vm_compute in (D3.quantize_thresholds a b n) in
    change (D3.quantize_thresholds a b n) with t
  end.
  match goal with |- ?l !! _ = _ =>
    let t := eval vm_compute in l in change l with t
  end.
  unfold D3.bisect, colorBucket.
  assert (C : v < 10 \/ 10 <= v < 20 \/ 20 <= v < 30 \/ 30 <= v < 40
              \/ 40 <= v < 50 \/ 50 <= v < 60 \/ 60 <= v < 70
              \/ 70 <= v < 80 \/ 80 <= v < 90 \/ 90 <= v) by lia.
  repeat (destruct C as [C|C]);
    repeat (rewrite filter_cons;
            first [rewrite decide_True by lia | rewrite decide_False by lia]);
    rewrite filter_nil; cbn [length lookup list_lookup]; f_equal.
  all: match goal with |- _ = _ +:+ JS.toString ?b =>
         first [ replace b with 0 by (Z.div_mod_to_equations; lia)
               | replace b with 1 by (Z.div_mod_to_equations; lia)
               | replace b with 2 by (Z.div_mod_to_equations; lia)
               | replace b with 3 by (Z.div_mod_to_equations; lia)
               | replace b with 4 by (Z.div_mod_to_equations; lia)
               | replace b with 5 by (Z.div_mod_to_equations; lia)
               | replace b with 6 by (Z.div_mod_to_equations; lia)
               | replace b with 7 by (Z.div_mod_to_equations; lia)
               | replace b with 8 by (Z.div_mod_to_equations; lia)
               | replace b with 9 by (Z.div_mod_to_equations; lia) ]
       end; reflexivity.
Qed.

Lemma getRectClass_eq (data : gmap string Entry) (dateString : string) :
  getRectClass data dateString
  = (fun e => "day color" +:+ JS.toString (colorBucket (Value e)))
      <$> data !! dateString.
Proof.
  unfold getRectClass. destruct (data !! dateString) as [e|]; [|reflexivity].
  cbn [mbind option_bind fmap option_fmap option_map].
  rewrite getColorScale_eq. reflexivity.
Qed.

End DataFacts.

(** ** The update pass, rectangle by rectangle *)

Module RestyleFacts.
Import JSDate Calendar PageFacts DataFacts.

Section Passes.
Variable data : gmap string Entry.

(** What the three passes of the update make of one rectangle. *)
Definition restyleClass (r : DayRect) : DayRect :=
  match getRectClass data (rect_datum r) with
  | Some c => set_rect_class c r
  | None => r
  end.

Definition adoptDatum (r : DayRect) : DayRect :=
  match rect_titles r with
  | first :: others =>
      set_rect_titles
        ({| title_datum := rect_datum r; title_text := title_text first |} :: others) r
  | [] => r
  end.

Definition retitle (r : DayRect) : DayRect :=
  match rect_titles r with
  | first :: others =>
      match getRectTitle data (title_datum first) with
      | Some text =>
          set_rect_titles
            ({| title_datum := title_datum first; title_text := text |} :: others) r
      | None => r
      end
  | [] => r
  end.

(** [q'] is [q] with [g] applied to the rectangle at [path], and the data
    logged some number of times. *)
Definition acts (g : DayRect -> DayRect) (path : nat * nat) (q q' : page) : Prop :=
  (forall x, rect_at x q'
             = if decide (x = path) then g <$> rect_at x q else rect_at x q)
  /\ exists n, console q' = console q ++ replicate n data.

Lemma update_rect_acts path f p :
  exists p', update_rect path f p = Returned () p' /\ acts f path p p'.
Proof.
  destruct (rect_at_update_rect path path f p) as (p' & E & _ & _ & Ec).
  exists p'. split; [exact E|]. split.
  - intros x. destruct (rect_at_update_rect x path f p) as (p'' & E' & Er & _ & _).
    rewrite E in E'. injection E' as <-. exact Er.
  - exists 0%nat. rewrite app_nil_r. exact Ec.
Qed.

Lemma acts_nothing g path q :
  (forall r, rect_at path q = Some r -> g r = r) -> acts g path q q.
Proof.
  intros H. split; [|exists 0%nat; rewrite app_nil_r; reflexivity].
  intros x. case_decide as E; [subst x|reflexivity].
  destruct (rect_at path q) as [r|] eqn:Hr; [|reflexivity].
  cbn. rewrite (H r eq_refl). reflexivity.
Qed.

Lemma acts_ext g g' path q q' :
  (forall r, rect_at path q = Some r -> g r = g' r) ->
  acts g path q q' -> acts g' path q q'.
Proof.
  intros H [A L]. split; [|exact L]. intros x. rewrite A.
  case_decide as E; [subst x|reflexivity].
  destruct (rect_at path q) as [r|] eqn:Hr; [|reflexivity].
  cbn. rewrite (H r eq_refl). reflexivity.
Qed.

(** A pass of [selection.each] whose step applies [g], a function that
    does nothing new the second time, to the rectangle it is run on. *)
Lemma each_acts (g : DayRect -> DayRect) (Pre : DayRect -> Prop)
    (step : nat * nat -> Script unit) :
  (forall r, g (g r) = g r) ->
  (forall r, Pre r -> Pre (g r)) ->
  (forall path q r, rect_at path q = Some r -> Pre r ->
     exists q', step path q = Returned () q' /\ acts g path q q') ->
  forall sel p,
    (forall path, path ∈ sel -> exists r, rect_at path p = Some r /\ Pre r) ->
    exists p', each sel step p = Returned () p'
      /\ (forall x, rect_at x p'
                    = if decide (x ∈ sel) then g <$> rect_at x p else rect_at x p)
      /\ exists n, console p' = console p ++ replicate n data.
Proof.
  intros Hidem Hpre Hstep. induction sel as [|a sel IH]; intros p Hsel.
  - exists p. split; [reflexivity|]. split.
    + intros x. rewrite decide_False by apply not_elem_of_nil. reflexivity.
    + exists 0%nat. rewrite app_nil_r. reflexivity.
  - destruct (Hsel a ltac:(left)) as (r & Hr & Pr).
    destruct (Hstep a p r Hr Pr) as (q & E & A & (n1 & C1)).
    destruct (IH q) as (p' & E' & A' & (n2 & C2)).
    { intros path Hp. destruct (Hsel path ltac:(right; exact Hp)) as (r0 & Hr0 & Pr0).
      rewrite A. case_decide.
      - exists (g r0). rewrite Hr0. auto.
      - exists r0. auto. }
    exists p'. cbn [each]. rewrite (bind_returned _ _ _ _ _ E).
    split; [exact E'|]. split.
    + intros x. rewrite A', A.
      destruct (decide (x = a)) as [->|Hne].
      * rewrite (decide_True (P := a ∈ a :: sel)) by left.
        case_decide; [|reflexivity].
        destruct (rect_at a p) as [r0|]; [|reflexivity].
        cbn. rewrite Hidem. reflexivity.
      * destruct (decide (x ∈ sel)) as [Hin|Hnin].
        -- rewrite decide_True by (right; exact Hin). reflexivity.
        -- rewrite decide_False; [reflexivity|].
           intros Hx. apply elem_of_cons in Hx as [?|?]; contradiction.
    + exists (n1 + n2)%nat. rewrite C2, C1, replicate_add, app_assoc. reflexivity.
Qed.

Lemma restyleClass_idem r : restyleClass (restyleClass r) = restyleClass r.
Proof.
  unfold restyleClass. destruct (getRectClass data (rect_datum r)) as [c|] eqn:E.
  - cbn [rect_datum set_rect_class]. rewrite E. reflexivity.
  - rewrite E. reflexivity.
Qed.

Lemma adoptDatum_idem r : adoptDatum (adoptDatum r) = adoptDatum r.
Proof.
  unfold adoptDatum. destruct (rect_titles r) as [|first others] eqn:E.
  - rewrite E. reflexivity.
  - reflexivity.
Qed.

Lemma retitle_idem r : retitle (retitle r) = retitle r.
Proof.
  unfold retitle. destruct (rect_titles r) as [|first others] eqn:E.
  - rewrite E. reflexivity.
  - destruct (getRectTitle data (title_datum first)) as [text|] eqn:T.
    + cbn [rect_titles set_rect_titles title_datum]. rewrite T. reflexivity.
    + rewrite E, T. reflexivity.
Qed.

Lemma restyleClass_datum r : rect_datum (restyleClass r) = rect_datum r.
Proof. unfold restyleClass. destruct (getRectClass _ _); reflexivity. Qed.

Lemma restyleClass_titles r : rect_titles (restyleClass r) = rect_titles r.
Proof. unfold restyleClass. destruct (getRectClass _ _); reflexivity. Qed.

Lemma adoptDatum_datum r : rect_datum (adoptDatum r) = rect_datum r.
Proof. unfold adoptDatum. destruct (rect_titles r); reflexivity. Qed.

Lemma class_step_acts path q r :
  rect_at path q = Some r -> is_Some (data !! rect_datum r) ->
  exists q', class_step data path q = Returned () q' /\ acts restyleClass path q q'.
Proof.
  intros Hr Hin. unfold class_step.
  erewrite bind_returned; [|reflexivity]. rewrite Hr.
  destruct (getRectClass_Some data _ Hin) as [c Hc]. rewrite Hc.
  destruct (update_rect_acts path (set_rect_class c) q) as (q' & E & A).
  exists q'. split; [exact E|]. eapply acts_ext; [|exact A].
  intros r0 Hr0. rewrite Hr in Hr0. injection Hr0 as <-.
  unfold restyleClass. rewrite Hc. reflexivity.
Qed.

(** The step of [.select("title")]: it applies [adoptDatum], and keeps
    the rectangle exactly when it has a title. *)
Lemma select_step_acts path q :
  exists b q', select_step path q = Returned b q' /\ acts adoptDatum path q q'
    /\ b = match rect_at path q with
           | Some r => if decide (rect_titles r = []) then [] else [path]
           | None => []
           end.
Proof.
  unfold select_step. erewrite bind_returned; [|reflexivity].
  destruct (rect_at path q) as [r|] eqn:Hr.
  - destruct (rect_titles r) as [|first others] eqn:Ht.
    + exists [], q. split; [reflexivity|]. split; [|reflexivity].
      apply acts_nothing. intros r0 Hr0. rewrite Hr in Hr0. injection Hr0 as <-.
      unfold adoptDatum. rewrite Ht. reflexivity.
    + destruct (update_rect_acts path
                  (set_rect_titles ({| title_datum := rect_datum r;
                                       title_text := title_text first |} :: others)) q)
        as (q' & E & A).
      exists [path], q'. erewrite bind_returned; [|exact E].
      split; [reflexivity|]. split; [|reflexivity].
      eapply acts_ext; [|exact A].
      intros r0 Hr0. rewrite Hr in Hr0. injection Hr0 as <-.
      unfold adoptDatum. rewrite Ht. reflexivity.
  - exists [], q. split; [reflexivity|]. split; [|reflexivity].
    apply acts_nothing. intros r0 Hr0. rewrite Hr in Hr0. discriminate.
Qed.

Definition hasTitle (p : page) (x : nat * nat) : Prop :=
  exists r, rect_at x p = Some r /\ rect_titles r <> [].

Lemma adoptDatum_titles_nil r : rect_titles (adoptDatum r) = [] <-> rect_titles r = [].
Proof.
  unfold adoptDatum. destruct (rect_titles r) eqn:E; [rewrite E; tauto|].
  cbn. split; discriminate.
Qed.

Lemma mapM_select_acts : forall sel p,
  exists bs p', mapM select_step sel p = Returned bs p'
    /\ (forall x, rect_at x p'
                  = if decide (x ∈ sel) then adoptDatum <$> rect_at x p
                    else rect_at x p)
    /\ (forall x, x ∈ concat bs <-> x ∈ sel /\ hasTitle p x)
    /\ exists n, console p' = console p ++ replicate n data.
Proof.
  induction sel as [|a sel IH]; intros p.
  - exists [], p. split; [reflexivity|]. split; [|split].
    + intros x. rewrite decide_False by apply not_elem_of_nil. reflexivity.
    + intros x. cbn. split; [intros H; inversion H|intros [H _]; inversion H].
    + exists 0%nat. rewrite app_nil_r. reflexivity.
  - destruct (select_step_acts a p) as (b & q & E & [A (n1 & C1)] & Hb).
    destruct (IH q) as (bs & p' & E' & A' & B' & (n2 & C2)).
    exists (b :: bs), p'. cbn [mapM].
    erewrite bind_returned; [|exact E].
    erewrite bind_returned; [|exact E'].
    split; [reflexivity|]. split; [|split].
    + intros x. rewrite A', A.
      destruct (decide (x = a)) as [->|Hne].
      * rewrite (decide_True (P := a ∈ a :: sel)) by left.
        case_decide; [|reflexivity].
        destruct (rect_at a p) as [r0|]; [|reflexivity].
        cbn. rewrite adoptDatum_idem. reflexivity.
      * destruct (decide (x ∈ sel)) as [Hin|Hnin].
        -- rewrite decide_True by (right; exact Hin). reflexivity.
        -- rewrite decide_False; [reflexivity|].
           intros Hx. apply elem_of_cons in Hx as [?|?]; contradiction.
    + assert (HT : forall x, hasTitle q x <-> hasTitle p x).
      { intros x. unfold hasTitle. rewrite A. case_decide as Ex.
        - subst x. destruct (rect_at a p) as [r0|]; cbn.
          + split; intros (r1 & [= <-] & Hn); eexists; (split; [reflexivity|]);
              rewrite ?adoptDatum_titles_nil in *; exact Hn.
          + split; intros (r1 & [=] & _).
        - reflexivity. }
      intros x. cbn [concat]. rewrite elem_of_app, B', HT, elem_of_cons.
      assert (Hxb : x ∈ b <-> x = a /\ hasTitle p x).
      { rewrite Hb. unfold hasTitle. destruct (rect_at a p) as [r0|] eqn:Hr0.
        - case_decide as Et.
          + split; [intros H; inversion H|]. intros [-> (r1 & Hr1 & Hn)].
            rewrite Hr0 in Hr1. injection Hr1 as <-. contradiction.
          + rewrite list_elem_of_singleton. split.
            * intros ->. split; [reflexivity|]. exists r0. auto.
            * intros [-> _]. reflexivity.
        - split; [intros H; inversion H|]. intros [-> (r1 & Hr1 & _)].
          rewrite Hr0 in Hr1. discriminate. }
      rewrite Hxb. tauto.
    + exists (n1 + n2)%nat. rewrite C2, C1, replicate_add, app_assoc. reflexivity.
Qed.

(** A rectangle whose first title carries a date string of the data. *)
Definition titleKnown (r : DayRect) : Prop :=
  exists first others,
    rect_titles r = first :: others /\ is_Some (data !! title_datum first).

Lemma text_step_acts path q r :
  rect_at path q = Some r -> titleKnown r ->
  exists q', text_step data path q = Returned () q' /\ acts retitle path q q'.
Proof.
  intros Hr (first & others & Ht & Hin). unfold text_step.
  erewrite bind_returned; [|reflexivity]. rewrite Hr, Ht.
  erewrite bind_returned; [|reflexivity].
  destruct (getRectTitle_Some data _ Hin) as [text Htext]. rewrite Htext.
  set (q1 := {| calendar := calendar q; console := console q ++ [data] |}).
  destruct (update_rect_acts path
              (set_rect_titles ({| title_datum := title_datum first;
                                   title_text := text |} :: others)) q1)
    as (q' & E & [A (n & C)]).
  exists q'. split; [exact E|]. split.
  - intros x. rewrite A. change (rect_at x q1) with (rect_at x q).
    case_decide as Ex; [subst x|reflexivity]. rewrite Hr. cbn. f_equal.
    unfold retitle. rewrite Ht, Htext. reflexivity.
  - exists (S n). rewrite C. cbn [console q1 replicate].
    rewrite <- app_assoc. reflexivity.
Qed.

Lemma retitle_titleKnown r : titleKnown r -> titleKnown (retitle r).
Proof.
  intros (first & others & Ht & Hin). unfold retitle. rewrite Ht.
  destruct (getRectTitle data (title_datum first)) as [text|].
  - eexists _, _. split; [reflexivity|]. exact Hin.
  - exists first, others. auto.
Qed.

(** A rectangle after the update, if its date string is a key of the
    data: the class names the tenth of the value, and the first title
    carries the date string and reads "date: name". *)
Definition restyleRect (r : DayRect) : DayRect :=
  match data !! rect_datum r with
  | Some e =>
      {| rect_class := "day color" +:+ JS.toString (Z.max 0 (Z.min 9 (Value e / 10)));
         rect_width := rect_width r; rect_height := rect_height r;
         rect_x := rect_x r; rect_y := rect_y r; rect_datum := rect_datum r;
         rect_titles :=
           match rect_titles r with
           | first :: others =>
               {| title_datum := rect_datum r;
                  title_text := rect_datum r +:+ ": " +:+ Name e |} :: others
           | [] => []
           end |}
  | None => r
  end.

Lemma restyleRect_passes r e :
  data !! rect_datum r = Some e ->
  restyleRect r
  = (if decide (rect_titles r = []) then adoptDatum (restyleClass r)
     else retitle (adoptDatum (restyleClass r))).
Proof.
  intros He. unfold restyleRect, restyleClass. rewrite He.
  pose proof (getRectClass_eq data (rect_datum r)) as Hc.
  rewrite He in Hc. cbn [fmap option_fmap option_map] in Hc. rewrite Hc.
  unfold adoptDatum, retitle. cbn [rect_titles set_rect_class rect_datum].
  destruct (rect_titles r) as [|first others] eqn:Ht.
  - rewrite decide_True by reflexivity. unfold set_rect_class. rewrite Ht.
    reflexivity.
  - rewrite decide_False by discriminate.
    cbn [rect_titles set_rect_titles title_datum rect_datum].
    unfold getRectTitle. rewrite He. reflexivity.
Qed.

Lemma filtered_spec dayRects p x :
  x ∈ concat ((fun path =>
                 match rect_at path p with
                 | Some r => if isRectDataInCsvData data (rect_datum r)
                             then [path] else []
                 | None => []
                 end) <$> dayRects)
  <-> x ∈ dayRects /\ exists r, rect_at x p = Some r /\ is_Some (data !! rect_datum r).
Proof.
  rewrite elem_of_concat. split.
  - intros (l & Hx & Hl). apply list_elem_of_fmap in Hl as (path & -> & Hp).
    destruct (rect_at path p) as [r|] eqn:Hr; [|inversion Hx].
    destruct (isRectDataInCsvData data (rect_datum r)) eqn:Hb; [|inversion Hx].
    apply list_elem_of_singleton in Hx as ->. split; [exact Hp|].
    exists r. split; [exact Hr|]. apply bool_decide_eq_true in Hb. exact Hb.
  - intros (Hx & r & Hr & Hin). eexists. split; [|apply list_elem_of_fmap; eauto].
    cbn. rewrite Hr. unfold isRectDataInCsvData. rewrite bool_decide_eq_true_2 by exact Hin.
    left.
Qed.

(** The update pass, rectangle by rectangle. *)
Lemma updateClassAndTitle_rects dayRects p :
  exists p', updateClassAndTitleForDayRects data dayRects p = Returned () p'
    /\ (forall path,
          rect_at path p'
          = if decide (path ∈ dayRects) then restyleRect <$> rect_at path p
            else rect_at path p)
    /\ exists n, console p' = console p ++ replicate n data.
Proof.
  unfold updateClassAndTitleForDayRects.
  erewrite bind_returned; [|apply mapM_read_rect].
  set (filtered := concat _).
  assert (HF : forall x, x ∈ filtered <->
             x ∈ dayRects /\ exists r, rect_at x p = Some r
                                     /\ is_Some (data !! rect_datum r))
    by (intros x; apply filtered_spec).
  clearbody filtered.
  fold (class_step data).
  destruct (each_acts restyleClass (fun r => is_Some (data !! rect_datum r))
              (class_step data) restyleClass_idem) with (sel := filtered) (p := p)
    as (p1 & E1 & A1 & (n1 & C1)).
  { intros r. rewrite restyleClass_datum. auto. }
  { intros path q r. apply class_step_acts. }
  { intros path Hp. apply HF in Hp as [_ H]. exact H. }
  erewrite bind_returned; [|exact E1].
  fold select_step.
  destruct (mapM_select_acts filtered p1) as (bs & p2 & E2 & A2 & B2 & (n2 & C2)).
  erewrite bind_returned; [|exact E2].
  fold (text_step data).
  destruct (each_acts retitle titleKnown (text_step data) retitle_idem)
    with (sel := concat bs) (p := p2) as (p3 & E3 & A3 & (n3 & C3)).
  { apply retitle_titleKnown. }
  { intros path q r. apply text_step_acts. }
  { intros path Hp. apply B2 in Hp as [Hf (r1 & Hr1 & Hn)].
    rewrite A2, decide_True, Hr1 by exact Hf.
    exists (adoptDatum r1). split; [reflexivity|].
    rewrite A1, decide_True in Hr1 by exact Hf.
    apply HF in Hf as (_ & r & Hr & Hin). rewrite Hr in Hr1. injection Hr1 as <-.
    unfold titleKnown, adoptDatum.
    destruct (rect_titles (restyleClass r)) as [|first others]; [contradiction|].
    eexists _, _. split; [reflexivity|]. cbn [title_datum].
    rewrite restyleClass_datum. exact Hin. }
  exists p3. split; [exact E3|]. split.
  - intros x. rewrite A3, A2, A1.
    destruct (decide (x ∈ filtered)) as [Hf|Hnf].
    + pose proof Hf as Hf'. apply HF in Hf' as (Hx & r & Hr & [e He]).
      rewrite (decide_True (P := x ∈ dayRects)) by exact Hx.
      rewrite Hr. cbn [fmap option_fmap option_map].
      rewrite (restyleRect_passes r e He).
      assert (HB : x ∈ concat bs <-> rect_titles r <> []).
      { rewrite B2. unfold hasTitle. rewrite A1, decide_True, Hr by exact Hf.
        cbn. rewrite <- (restyleClass_titles r). split.
        - intros (_ & r1 & [= <-] & Hn). exact Hn.
        - intros Hn. split; [exact Hf|]. eexists. split; [reflexivity | exact Hn]. }
      destruct (decide (rect_titles r = [])) as [Hn|Hn].
      * rewrite (decide_False (P := x ∈ concat bs)) by (rewrite HB; tauto).
        reflexivity.
      * rewrite (decide_True (P := x ∈ concat bs)) by (rewrite HB; exact Hn).
        reflexivity.
    + assert (Hnb : x ∉ concat bs) by (rewrite B2; tauto).
      rewrite (decide_False (P := x ∈ concat bs)) by exact Hnb.
      case_decide as Hx; [|reflexivity].
      destruct (rect_at x p) as [r|] eqn:Hr; [|reflexivity].
      cbn. f_equal. unfold restyleRect.
      destruct (data !! rect_datum r) as [e|] eqn:He; [|reflexivity].
      exfalso. apply Hnf, HF. split; [exact Hx|]. exists r. rewrite He. eauto.
  - exists (n1 + n2 + n3)%nat.
    rewrite C3, C2, C1, !replicate_add, !app_assoc. reflexivity.
Qed.

End Passes.

End RestyleFacts.

(** ** [render], rectangle by rectangle and group by group *)

Module RenderFacts.
Import JSDate JSDateFacts Calendar CalendarSpec PageFacts DataFacts RestyleFacts.

Lemma elem_of_rectPaths new : forall n i k,
  (i, k) ∈ rectPaths n new
  <-> exists g, (n <= i)%nat /\ new !! (i - n)%nat = Some g
                /\ (k < length (g_days g))%nat.
Proof.
  induction new as [|g new IH]; intros n i k.
  - cbn. split; [intros H; inversion H | intros (g & _ & H & _); discriminate].
  - rewrite rectPaths_cons, elem_of_app, IH, list_elem_of_fmap. split.
    + intros [(k' & [= -> ->] & Hk) | (g' & Hi & Hg & Hk)].
      * apply elem_of_seq in Hk. exists g. rewrite Nat.sub_diag. cbn.
        split; [lia|]. split; [reflexivity | lia].
      * exists g'. split; [lia|]. split; [|exact Hk].
        replace (i - n)%nat with (S (i - S n)) by lia. exact Hg.
    + intros (g' & Hi & Hg & Hk).
      destruct (decide (i = n)) as [->|Hne].
      * left. rewrite Nat.sub_diag in Hg. injection Hg as <-.
        exists k. split; [reflexivity|]. apply elem_of_seq. lia.
      * right. exists g'. split; [lia|]. split; [|exact Hk].
        replace (i - n)%nat with (S (i - S n)) in Hg by lia. exact Hg.
Qed.

(** The selection of day rectangles [render] hands to the update pass:
    the rectangles of the groups it has made. *)
Definition createdRects (svgs : list YearSvg) : list (nat * nat) :=
  rectPaths (length svgs)
    (yearGroup 960 136 17 <$> drop (length svgs) calendarYears).

Lemma rectPaths_same_days n : forall new new',
  Forall2 (fun g g' => length (g_days g) = length (g_days g')) new new' ->
  rectPaths n new = rectPaths n new'.
Proof.
  intros new new' H. revert n. induction H as [|g g' new new' Hg H IH]; intros n.
  - reflexivity.
  - rewrite !rectPaths_cons, Hg, IH. reflexivity.
Qed.

(** [render] is the update pass run on the page built before it. *)
Lemma render_unfold data p svgs :
  calendar p = Some svgs ->
  render data p
  = updateClassAndTitleForDayRects data (createdRects svgs) (builtPage p svgs).
Proof.
  intros Hc. unfold render.
  assert (Lb : length (boundSvgs svgs) = length svgs) by apply length_imap.
  set (years' := drop (length svgs) calendarYears).
  match goal with |- context [generateYearGroups ?w ?h ?c] =>
    assert (E1 : exists entered,
      generateYearGroups w h c p
      = Returned (seq (length (boundSvgs svgs)) (length entered))
                 (mkPage (boundSvgs svgs ++ entered) (console p))
      /\ entered = (fun year =>
             {| svg_datum := year; svg_width := w; svg_height := h;
                svg_class := "year";
                g_translate := ((inject_Z (w - c * 53) / 2)%Q,
                                inject_Z (h - c * 7 - 1));
                g_texts := []; g_days := []; g_months := [] |}) <$> years')
  end.
  { eexists. split; [|reflexivity].
    unfold generateYearGroups. rewrite Hc. rewrite Lb. reflexivity. }
  destruct E1 as (entered & E1 & Hent).
  erewrite bind_returned; [|exact E1].
  unfold attachTextToYearGroups at 1.
  erewrite bind_returned; [|apply each_update_groups].
  match goal with |- context [mkPage (_ ++ (?f <$> entered))] => set (withText := f) end.
  replace (length entered) with (length (withText <$> entered))
    by apply length_fmap.
  erewrite bind_returned;
    [|apply generateDayRects_fresh; subst entered;
      rewrite Forall_fmap, Forall_fmap; apply Forall_true; reflexivity].
  unfold attachTitlesToDayRects at 1.
  erewrite bind_returned; [|apply each_update_rects].
  fold withTitle.
  unfold appendMonthPathsToYearGroups at 1.
  replace (length (withText <$> entered))
    with (length (mapDays withTitle <$> (withDays 17 <$> (withText <$> entered))))
    by (rewrite !length_fmap; reflexivity).
  erewrite bind_returned; [|apply each_update_groups].
  f_equal.
  - unfold createdRects. rewrite Lb. fold years'. apply rectPaths_same_days.
    subst entered. rewrite <- !list_fmap_compose.
    apply Forall2_fmap, Forall_Forall2_diag, Forall_true. intros year.
    cbn. rewrite !length_fmap. reflexivity.
  - unfold builtPage. f_equal. f_equal. subst entered. fold years'.
    rewrite <- !list_fmap_compose. apply list_fmap_ext. intros _ year _.
    reflexivity.
Qed.

Lemma boundSvgs_lookup svgs i :
  boundSvgs svgs !! i
  = (fun g => from_option (fun y => set_svg_datum y g) g (calendarYears !! i))
      <$> svgs !! i.
Proof. unfold boundSvgs. apply list_lookup_imap. Qed.

Lemma group_at_built_old p svgs i :
  (i < length svgs)%nat ->
  group_at i (builtPage p svgs)
  = (fun g => from_option (fun y => set_svg_datum y g) g (calendarYears !! i))
      <$> svgs !! i.
Proof.
  intros Hi. unfold group_at, builtPage, mkPage. cbn [calendar mbind option_bind].
  rewrite lookup_app_l by (unfold boundSvgs; rewrite length_imap; exact Hi).
  apply boundSvgs_lookup.
Qed.

Lemma group_at_built_new p svgs i year :
  (length svgs <= i)%nat -> calendarYears !! i = Some year ->
  group_at i (builtPage p svgs) = Some (yearGroup 960 136 17 year).
Proof.
  intros Hi Hy. unfold group_at, builtPage, mkPage. cbn [calendar mbind option_bind].
  rewrite lookup_app_r by (unfold boundSvgs; rewrite length_imap; exact Hi).
  unfold boundSvgs. rewrite length_imap, list_lookup_fmap, lookup_drop.
  replace (length svgs + (i - length svgs))%nat with i by lia.
  rewrite Hy. reflexivity.
Qed.

Lemma rect_at_built_old p svgs i k :
  calendar p = Some svgs -> (i < length svgs)%nat ->
  rect_at (i, k) (builtPage p svgs) = rect_at (i, k) p.
Proof.
  intros Hc Hi. unfold rect_at. cbn [fst snd].
  rewrite (group_at_built_old p svgs i Hi).
  unfold group_at. rewrite Hc. cbn [mbind option_bind].
  destruct (svgs !! i) as [g|]; [|reflexivity]. cbn.
  destruct (calendarYears !! i); reflexivity.
Qed.

Lemma createdRects_old svgs i k :
  (i < length svgs)%nat -> (i, k) ∉ createdRects svgs.
Proof.
  intros Hi H. apply elem_of_rectPaths in H as (g & Hle & _). lia.
Qed.

Lemma createdRects_new p svgs i k :
  (length svgs <= i)%nat -> is_Some (rect_at (i, k) (builtPage p svgs)) ->
  (i, k) ∈ createdRects svgs.
Proof.
  intros Hi [r Hr]. apply elem_of_rectPaths. unfold builtPage in Hr.
  rewrite rect_at_mkPage_app in Hr by (unfold boundSvgs; rewrite length_imap; exact Hi).
  unfold boundSvgs in Hr. rewrite length_imap in Hr.
  apply bind_Some in Hr as (g & Hg & Hk).
  exists g. split; [exact Hi|]. split; [exact Hg|].
  apply lookup_lt_Some in Hk. exact Hk.
Qed.

(** [render], rectangle by rectangle. *)
Lemma render_rects data p svgs :
  calendar p = Some svgs ->
  exists p', render data p = Returned () p'
    /\ (forall i k,
          rect_at (i, k) p'
          = if decide (length svgs <= i)%nat
            then restyleRect data <$> rect_at (i, k) (builtPage p svgs)
            else rect_at (i, k) p)
    /\ exists n, console p' = console p ++ replicate n data.
Proof.
  intros Hc. rewrite (render_unfold data p svgs Hc).
  destruct (updateClassAndTitle_rects data (createdRects svgs) (builtPage p svgs))
    as (p' & E & A & L).
  exists p'. split; [exact E|]. split; [|exact L].
  intros i k. rewrite A. destruct (decide (length svgs <= i)%nat) as [Hi|Hi].
  - destruct (rect_at (i, k) (builtPage p svgs)) as [r|] eqn:Hr.
    + rewrite decide_True; [reflexivity|].
      apply (createdRects_new p); [exact Hi|]. rewrite Hr. eauto.
    + case_decide; reflexivity.
  - rewrite decide_False by (apply createdRects_old; lia).
    apply rect_at_built_old; [exact Hc | lia].
Qed.

(** *** What the update pass leaves alone in a group *)

Definition frame (g : YearSvg) : YearSvg := set_g_days [] g.

(** The groups of [q] are those of [p] but for their day rectangles. *)
Definition framed (p q : page) : Prop :=
  forall i, frame <$> group_at i q = frame <$> group_at i p.

Lemma framed_refl p : framed p p.
Proof. intros i. reflexivity. Qed.

Lemma framed_trans p q r : framed p q -> framed q r -> framed p r.
Proof. intros H1 H2 i. rewrite H2, H1. reflexivity. Qed.

Lemma bind_returned_inv {A B} (m : Script A) (k : A -> Script B) p b p' :
  (m ≫= k) p = Returned b p' ->
  exists a q, m p = Returned a q /\ k a q = Returned b p'.
Proof.
  unfold mbind, Script_bind. destruct (m p) as [a q|e q]; [|discriminate].
  intros H. exists a, q. auto.
Qed.

Lemma update_rect_framed path f p p' :
  update_rect path f p = Returned () p' -> framed p p'.
Proof.
  unfold update_rect, update_group. intros [= <-] i.
  unfold group_at. cbn [calendar]. destruct (calendar p) as [svgs|]; [|reflexivity].
  cbn [fmap option_fmap option_map mbind option_bind].
  destruct (decide (i = path.1)) as [->|Hne].
  - rewrite list_lookup_alter_eq. destruct (svgs !! path.1); reflexivity.
  - rewrite list_lookup_alter_ne by congruence. reflexivity.
Qed.

Lemma each_framed {A} (f : A -> Script unit) :
  (forall a q q', f a q = Returned () q' -> framed q q') ->
  forall sel p p', each sel f p = Returned () p' -> framed p p'.
Proof.
  intros Hf. induction sel as [|a sel IH]; intros p p' E.
  - injection E as <-. apply framed_refl.
  - cbn [each] in E. apply bind_returned_inv in E as ([] & q & E1 & E2).
    eapply framed_trans; [eapply Hf; exact E1 | eapply IH; exact E2].
Qed.

Lemma mapM_framed {A B} (f : A -> Script B) :
  (forall a q b q', f a q = Returned b q' -> framed q q') ->
  forall sel p bs p', mapM f sel p = Returned bs p' -> framed p p'.
Proof.
  intros Hf. induction sel as [|a sel IH]; intros p bs p' E.
  - injection E as _ <-. apply framed_refl.
  - cbn [mapM] in E. apply bind_returned_inv in E as (b & q & E1 & E2).
    apply bind_returned_inv in E2 as (bs' & q' & E2 & E3).
    injection E3 as _ <-.
    eapply framed_trans; [eapply Hf; exact E1 | eapply IH; exact E2].
Qed.

Lemma class_step_framed data path q q' :
  class_step data path q = Returned () q' -> framed q q'.
Proof.
  unfold class_step. intros E. apply bind_returned_inv in E as (o & q0 & [= <- <-] & E).
  destruct (rect_at path q) as [r|]; [|injection E as <-; apply framed_refl].
  destruct (getRectClass data (rect_datum r)); [|discriminate].
  eapply update_rect_framed. exact E.
Qed.

Lemma select_step_framed path q b q' :
  select_step path q = Returned b q' -> framed q q'.
Proof.
  unfold select_step. intros E. apply bind_returned_inv in E as (o & q0 & [= <- <-] & E).
  destruct (rect_at path q) as [r|]; [|injection E as _ <-; apply framed_refl].
  destruct (rect_titles r) as [|first others]; [injection E as _ <-; apply framed_refl|].
  apply bind_returned_inv in E as ([] & q1 & E1 & [= _ <-]).
  eapply update_rect_framed. exact E1.
Qed.

Lemma text_step_framed data path q q' :
  text_step data path q = Returned () q' -> framed q q'.
Proof.
  unfold text_step. intros E. apply bind_returned_inv in E as (o & q0 & [= <- <-] & E).
  destruct (rect_at path q) as [r|]; [|injection E as <-; apply framed_refl].
  destruct (rect_titles r) as [|first others]; [injection E as <-; apply framed_refl|].
  apply bind_returned_inv in E as ([] & q1 & [= <-] & E).
  destruct (getRectTitle data (title_datum first)); [|discriminate].
  apply update_rect_framed in E. intros i. rewrite E. reflexivity.
Qed.

Lemma updateClassAndTitle_framed data dayRects p p' :
  updateClassAndTitleForDayRects data dayRects p = Returned () p' -> framed p p'.
Proof.
  unfold updateClassAndTitleForDayRects. intros E.
  erewrite bind_returned in E; [|apply mapM_read_rect].
  apply bind_returned_inv in E as ([] & p1 & E1 & E).
  apply bind_returned_inv in E as (bs & p2 & E2 & E3).
  fold (class_step data) in E1. fold select_step in E2. fold (text_step data) in E3.
  eapply framed_trans; [|eapply framed_trans].
  - eapply each_framed; [|exact E1]. apply class_step_framed.
  - eapply mapM_framed; [|exact E2]. apply select_step_framed.
  - eapply each_framed; [|exact E3]. apply text_step_framed.
Qed.

(** A group is its frame and its day rectangles. *)
Lemma frame_days g g' :
  frame g = frame g' -> g_days g = g_days g' -> g = g'.
Proof.
  destruct g, g'. unfold frame, set_g_days. cbn. intros [=] ->. congruence.
Qed.

Lemma group_days_lookup p i g k :
  group_at i p = Some g -> rect_at (i, k) p = g_days g !! k.
Proof. intros H. unfold rect_at. cbn [fst snd]. rewrite H. reflexivity. Qed.

(** [render], group by group. *)
Lemma render_groups data p svgs :
  calendar p = Some svgs ->
  exists p', render data p = Returned () p'
    /\ (forall i,
          group_at i p'
          = if decide (length svgs <= i)%nat
            then mapDays (restyleRect data) <$> group_at i (builtPage p svgs)
            else group_at i (builtPage p svgs))
    /\ exists n, console p' = console p ++ replicate n data.
Proof.
  intros Hc. destruct (render_rects data p svgs Hc) as (p' & E & A & L).
  exists p'. split; [exact E|]. split; [|exact L].
  pose proof E as F. rewrite (render_unfold data p svgs Hc) in F.
  apply updateClassAndTitle_framed in F.
  intros i. specialize (F i).
  destruct (group_at i p') as [g'|] eqn:Hg',
           (group_at i (builtPage p svgs)) as [g|] eqn:Hg; try discriminate.
  - cbn [fmap option_fmap option_map] in F.
    assert (F' : frame g' = frame g) by congruence. clear F.
    assert (D : forall k, g_days g' !! k
                = if decide (length svgs <= i)%nat
                  then restyleRect data <$> g_days g !! k else g_days g !! k).
    { intros k. rewrite <- (group_days_lookup p' i g' k Hg'), A.
      rewrite (group_days_lookup _ i g k Hg).
      case_decide as Hi; [reflexivity|].
      rewrite <- (group_days_lookup _ i g k Hg).
      symmetry. apply rect_at_built_old; [exact Hc | lia]. }
    case_decide as Hi; cbn [fmap option_fmap option_map]; f_equal;
      apply frame_days; try exact F'.
    + unfold mapDays. cbn [g_days set_g_days]. apply list_eq. intros k.
      rewrite D, list_lookup_fmap. reflexivity.
    + apply list_eq. exact D.
  - case_decide; reflexivity.
Qed.

End RenderFacts.

Module RenderMore.
Import JSDate JSDateFacts Calendar CalendarSpec PageFacts DataFacts RestyleFacts.
Import RenderFacts.

Lemma restyleRect_created data date :
  restyleRect data (withTitle (dayRect 17 date))
  = {| rect_class :=
         match data !! D3.timeFormat_Ymd date with
         | Some e => "day color" +:+ JS.toString (Z.max 0 (Z.min 9 (Value e / 10)))
         | None => "day"
         end;
       rect_width := 17; rect_height := 17;
       rect_x := getX 17 date; rect_y := getY 17 date;
       rect_datum := D3.timeFormat_Ymd date;
       rect_titles :=
         [{| title_datum := D3.timeFormat_Ymd date;
             title_text :=
               match data !! D3.timeFormat_Ymd date with
               | Some e => D3.timeFormat_Ymd date +:+ ": " +:+ Name e
               | None => D3.timeFormat_Ymd date
               end |}] |}.
Proof.
  unfold restyleRect, withTitle, dayRect. cbn [rect_datum set_rect_titles rect_titles].
  destruct (data !! D3.timeFormat_Ymd date); reflexivity.
Qed.

Lemma same_length_lookup {A B} (l : list A) (l' : list B) :
  (forall k, is_Some (l !! k) <-> is_Some (l' !! k)) -> length l = length l'.
Proof.
  intros H.
  destruct (lt_eq_lt_dec (length l) (length l')) as [[Hlt|Heq]|Hgt]; [|exact Heq|].
  - pose proof (proj2 (H (length l)) (lookup_lt_is_Some_2 _ _ Hlt)) as S.
    apply lookup_lt_is_Some in S. lia.
  - pose proof (proj1 (H (length l')) (lookup_lt_is_Some_2 _ _ Hgt)) as S.
    apply lookup_lt_is_Some in S. lia.
Qed.

Lemma calendar_groups p svgs :
  calendar p = Some svgs -> forall i, group_at i p = svgs !! i.
Proof. intros H i. unfold group_at. rewrite H. reflexivity. Qed.

Lemma render_calendar data p svgs :
  calendar p = Some svgs ->
  exists p' svgs', render data p = Returned () p' /\ calendar p' = Some svgs'
    /\ length svgs' = Nat.max (length svgs) 84.
Proof.
  intros Hc. destruct (render_built data p svgs Hc) as (p' & E & Y & _).
  rewrite pageYears_built in Y. apply pageYears_Some in Y as (svgs' & Hc' & Y).
  exists p', svgs'. split; [exact E|]. split; [exact Hc'|].
  rewrite <- (length_fmap svg_datum), Y, length_app, length_fmap, length_drop.
  unfold boundSvgs. rewrite length_imap.
  change (length calendarYears) with 84%nat. lia.
Qed.

Lemma set_svg_datum_same g : set_svg_datum (svg_datum g) g = g.
Proof. destruct g. reflexivity. Qed.

Lemma update_nothing data q :
  updateClassAndTitleForDayRects data [] q = Returned () q.
Proof. reflexivity. Qed.

Lemma render_without_calendar data p :
  calendar p = None -> render data p = Returned () p.
Proof.
  intros Hc. unfold render.
  erewrite bind_returned; [|unfold generateYearGroups; rewrite Hc; reflexivity].
  reflexivity.
Qed.

End RenderMore.

(** ** [render] on a page that is already drawn *)

Module AgainFacts.
Import JSDate JSDateFacts Calendar CalendarSpec PageFacts DataFacts RestyleFacts.
Import RenderFacts RenderMore.

(** After [render], every [<svg>] at the position of a year carries that
    year. *)
Lemma render_years data p svgs p1 svgs1 :
  calendar p = Some svgs -> render data p = Returned () p1 ->
  calendar p1 = Some svgs1 ->
  forall i g1 y, svgs1 !! i = Some g1 -> calendarYears !! i = Some y ->
                 svg_datum g1 = y.
Proof.
  intros Hc E Hc1 i g1 y Hg1 Hy.
  destruct (render_groups data p svgs Hc) as (p' & E' & A & _).
  rewrite E in E'. injection E' as <-.
  rewrite <- (calendar_groups p1 svgs1 Hc1), A in Hg1.
  destruct (decide (length svgs <= i)%nat) as [Hi|Hi].
  - rewrite (group_at_built_new p svgs i y Hi Hy) in Hg1.
    injection Hg1 as <-. reflexivity.
  - rewrite (group_at_built_old p svgs i) in Hg1 by lia.
    destruct (svgs !! i) as [g|]; [|discriminate].
    cbn in Hg1. rewrite Hy in Hg1. injection Hg1 as <-. reflexivity.
Qed.

Lemma boundSvgs_fixed svgs :
  (forall i g y, svgs !! i = Some g -> calendarYears !! i = Some y -> svg_datum g = y) ->
  boundSvgs svgs = svgs.
Proof.
  intros H. apply list_eq. intros i. rewrite boundSvgs_lookup.
  destruct (svgs !! i) as [g|] eqn:Hg; [|reflexivity].
  cbn. f_equal. destruct (calendarYears !! i) as [y|] eqn:Hy; [|reflexivity].
  cbn. rewrite <- (H i g y Hg Hy). apply set_svg_datum_same.
Qed.

Lemma createdRects_full svgs : (84 <= length svgs)%nat -> createdRects svgs = [].
Proof.
  intros H. unfold createdRects. rewrite drop_ge; [reflexivity|].
  change (length calendarYears) with 84%nat. exact H.
Qed.

Lemma render_fixed data p svgs :
  calendar p = Some svgs -> (84 <= length svgs)%nat ->
  (forall i g y, svgs !! i = Some g -> calendarYears !! i = Some y -> svg_datum g = y) ->
  render data p = Returned () p.
Proof.
  intros Hc Hl Hy. rewrite (render_unfold data p svgs Hc).
  rewrite (createdRects_full svgs Hl), update_nothing. f_equal.
  unfold builtPage. rewrite drop_ge by (change (length calendarYears) with 84%nat; lia).
  rewrite (boundSvgs_fixed svgs Hy). cbn [fmap list_fmap]. rewrite app_nil_r.
  destruct p as [c con]. cbn in *. rewrite Hc. reflexivity.
Qed.

End AgainFacts.

(** ** Date strings *)

Module FormatFacts.
Import JSDate JSDateFacts Calendar.

(** The number a string of decimal digits denotes. *)
Fixpoint digitsValue (acc : Z) (s : string) : Z :=
  match s with
  | EmptyString => acc
  | String c s' => digitsValue (10 * acc + default 0 (Svg.digit c)) s'
  end.

Definition paddedOk (width : nat) (n : nat) : bool :=
  let s := D3.pad (Z.of_nat n) "0" width in
  (String.length s =? width)%nat && (digitsValue 0 s =? Z.of_nat n).

Lemma padded_check width (bound : Z) :
  forallb (paddedOk width) (seq 0 (Z.to_nat bound)) = true ->
  forall n, 0 <= n < bound ->
    String.length (D3.pad n "0" width) = width
    /\ digitsValue 0 (D3.pad n "0" width) = n.
Proof.
  intros H n Hn. rewrite forallb_forall in H.
  assert (Hin : In (Z.to_nat n) (seq 0 (Z.to_nat bound))) by (apply in_seq; lia).
  apply H in Hin. unfold paddedOk in Hin. rewrite Z2Nat.id in Hin by lia.
  apply andb_prop in Hin as [H1 H2].
  split; [apply Nat.eqb_eq, H1 | apply Z.eqb_eq, H2].
Qed.

Lemma pad_year n :
  0 <= n < 10000 ->
  String.length (D3.pad n "0" 4) = 4%nat /\ digitsValue 0 (D3.pad n "0" 4) = n.
Proof.
  intros H. apply (padded_check 4 10000); [vm_compute; reflexivity | lia].
Qed.

Lemma pad_two n :
  0 <= n < 100 ->
  String.length (D3.pad n "0" 2) = 2%nat /\ digitsValue 0 (D3.pad n "0" 2) = n.
Proof.
  intros H. apply (padded_check 2 100); [vm_compute; reflexivity | lia].
Qed.

Lemma append_length s t :
  String.length (s +:+ t) = (String.length s + String.length t)%nat.
Proof.
  induction s as [|c s IH]; [reflexivity|].
  change (S (String.length (s +:+ t)) = S (String.length s + String.length t)).
  rewrite IH. reflexivity.
Qed.

Lemma append_inj s1 : forall s2 t1 t2,
  String.length s1 = String.length s2 -> s1 +:+ t1 = s2 +:+ t2 ->
  s1 = s2 /\ t1 = t2.
Proof.
  induction s1 as [|c s1 IH]; intros [|c' s2] t1 t2 Hl H; try discriminate.
  - auto.
  - change (String c (s1 +:+ t1) = String c' (s2 +:+ t2)) in H.
    injection H as -> H. injection Hl as Hl.
    destruct (IH s2 t1 t2 Hl H) as [-> ->]. auto.
Qed.

(** A date is determined by its year, month and day of the month. *)
Lemma date_of_fields d1 d2 :
  getFullYear d1 = getFullYear d2 -> getMonth d1 = getMonth d2 ->
  getDate d1 = getDate d2 -> d1 = d2.
Proof.
  intros Hy Hm Hd.
  pose proof (MakeDay_fields d1 (getDate d1)) as E1.
  pose proof (MakeDay_fields d2 (getDate d2)) as E2.
  rewrite Hy, Hm, Hd in E1. lia.
Qed.

Lemma format_parts d :
  0 <= getFullYear d <= 9999 ->
  let Y := D3.pad (Z.rem (getFullYear d) 10000) "0" 4 in
  let M := D3.pad (getMonth d + 1) "0" 2 in
  let D := D3.pad (getDate d) "0" 2 in
  D3.timeFormat_Ymd d = Y +:+ "-" +:+ M +:+ "-" +:+ D
  /\ String.length Y = 4%nat /\ digitsValue 0 Y = getFullYear d
  /\ String.length M = 2%nat /\ digitsValue 0 M = getMonth d + 1
  /\ String.length D = 2%nat /\ digitsValue 0 D = getDate d.
Proof.
  intros Hy. cbv zeta. split; [reflexivity|].
  rewrite Z.rem_small by lia.
  pose proof (getMonth_range d) as Hm. pose proof (getDate_range d) as Hd.
  pose proof (JSDateFacts.InLeapYear_01 (getFullYear d)) as Hl.
  assert (Hd' : 1 <= getDate d <= 31).
  { revert Hd. unfold DaysInMonth. zbool; lia. }
  destruct (pad_year (getFullYear d)) as [? ?]; [lia|].
  destruct (pad_two (getMonth d + 1)) as [? ?]; [lia|].
  destruct (pad_two (getDate d)) as [? ?]; [lia|].
  auto 10.
Qed.

End FormatFacts.

(** ** The picture as a whole *)

Module PictureFacts.
Import JSDate JSDateFacts Calendar CalendarSpec GridFacts YearFacts MonthFacts.
Import Svg Outline PageFacts DataFacts RestyleFacts RenderFacts RenderMore.
Import MonthsOfYear CellFacts.

Lemma calendarYears_lookup i year :
  calendarYears !! i = Some year -> year = 2016 + Z.of_nat i /\ (i < 84)%nat.
Proof.
  unfold calendarYears, D3.range. change (Z.to_nat (Z.max 0 (2100 - 2016))) with 84%nat.
  intros H. apply (list_lookup_fmap_Some (fun i => 2016 + Z.of_nat i)) in H
    as (j & -> & H).
  apply lookup_seq in H as [-> Hi]. auto.
Qed.

(** The [k]-th day of a year outside -1..99. *)
Lemma getAllDaysInYear_lookup y k d :
  y < -1 \/ 99 < y -> getAllDaysInYear y !! k = Some d ->
  d = DayFromYear y + Z.of_nat k /\ getFullYear d = y.
Proof.
  intros Hy. unfold getAllDaysInYear.
  rewrite !newDate_full_year by lia. rewrite timeDays_eq.
  assert (E0 : MakeDay y 0 1 = DayFromYear y).
  { rewrite MakeDay_in_range by lia. tables. lia. }
  assert (E1 : MakeDay (y + 1) 0 1 = DayFromYear (y + 1)).
  { rewrite MakeDay_in_range by lia. tables. lia. }
  rewrite E0, E1. unfold consecutiveDays. intros H.
  apply (list_lookup_fmap_Some (fun i => DayFromYear y + Z.of_nat i)) in H
    as (j & -> & H).
  apply lookup_seq in H as [-> Hk]. split; [reflexivity|].
  apply YearFromDay_unique. lia.
Qed.

(** A rectangle of a group [render] has made, before the update. *)
Lemma rect_at_built_inv p svgs i k r :
  (length svgs <= i)%nat ->
  rect_at (i, k) (builtPage p svgs) = Some r ->
  exists year date,
    calendarYears !! i = Some year /\ getAllDaysInYear year !! k = Some date
    /\ r = withTitle (dayRect 17 date).
Proof.
  intros Hi. unfold builtPage.
  rewrite rect_at_mkPage_app by (unfold boundSvgs; rewrite length_imap; exact Hi).
  unfold boundSvgs. rewrite length_imap.
  intros H. apply bind_Some in H as (g & Hg & Hk).
  apply list_lookup_fmap_Some in Hg as (year & -> & Hy).
  rewrite lookup_drop in Hy.
  replace (length svgs + (i - length svgs))%nat with i in Hy by lia.
  rewrite g_days_yearGroup in Hk.
  apply list_lookup_fmap_Some in Hk as (r0 & -> & Hk).
  apply list_lookup_fmap_Some in Hk as (date & -> & Hd).
  exists year, date. auto.
Qed.

Lemma restyleRect_box data r :
  rect_x (restyleRect data r) = rect_x r /\ rect_y (restyleRect data r) = rect_y r
  /\ rect_width (restyleRect data r) = rect_width r
  /\ rect_height (restyleRect data r) = rect_height r.
Proof. unfold restyleRect. destruct (data !! rect_datum r); auto. Qed.

(** A rectangle of a group [render] has made, after it. *)
Lemma render_rect_inv data p svgs :
  calendar p = Some svgs ->
  exists p', render data p = Returned () p'
    /\ forall i k r,
         (length svgs <= i)%nat -> rect_at (i, k) p' = Some r ->
         exists year date,
           calendarYears !! i = Some year /\ getAllDaysInYear year !! k = Some date
           /\ rect_x r = getX 17 date /\ rect_y r = getY 17 date
           /\ rect_width r = 17 /\ rect_height r = 17.
Proof.
  intros Hc. destruct (render_rects data p svgs Hc) as (p' & E & A & _).
  exists p'. split; [exact E|]. intros i k r Hi Hr.
  rewrite A, decide_True in Hr by exact Hi.
  destruct (rect_at (i, k) (builtPage p svgs)) as [r0|] eqn:Hr0; [|discriminate].
  injection Hr as <-.
  destruct (rect_at_built_inv p svgs i k r0 Hi Hr0) as (year & date & Hy & Hd & ->).
  exists year, date. split; [exact Hy|]. split; [exact Hd|].
  destruct (restyleRect_box data (withTitle (dayRect 17 date))) as (-> & -> & -> & ->).
  repeat split.
Qed.

Lemma g_days_mapDays f g : g_days (mapDays f g) = f <$> g_days g.
Proof. reflexivity. Qed.

Lemma g_months_mapDays f g : g_months (mapDays f g) = g_months g.
Proof. reflexivity. Qed.

Definition monthPath (cellSize month : Z) : MonthPath :=
  {| path_class := "month"; path_datum := month;
     path_d := getPathDescriptionForMonth cellSize month |}.

Lemma g_months_yearGroup w h c y :
  g_months (yearGroup w h c y) = monthPath c <$> getAllMonthsInYear y.
Proof. reflexivity. Qed.

Lemma path_d_monthPath c month :
  path_d (monthPath c month) = getPathDescriptionForMonth c month.
Proof. reflexivity. Qed.

Lemma rect_box_created c date :
  rect_x (withTitle (dayRect c date)) = getX c date
  /\ rect_y (withTitle (dayRect c date)) = getY c date
  /\ rect_width (withTitle (dayRect c date)) = c
  /\ rect_height (withTitle (dayRect c date)) = c.
Proof. repeat split. Qed.

End PictureFacts.

(** ** [render] on a page whose [#calendar] is empty *)

Module FreshFacts.
Import JSDate JSDateFacts Calendar CalendarSpec GridFacts YearFacts MonthFacts.
Import PageFacts DataFacts RestyleFacts RenderFacts RenderMore.
Import MonthsOfYear PictureFacts.

(** An [<svg>] with nothing in it, as a page may hold one before the
    script runs. *)
Definition bareSvg : YearSvg :=
  {| svg_datum := 0; svg_width := 0; svg_height := 0; svg_class := "";
     g_translate := (inject_Z 0, inject_Z 0);
     g_texts := []; g_days := []; g_months := [] |}.

(** The rectangle of a date, and the grid of a year, as [render] leaves
    them. *)
Definition dayCell (data : gmap string Entry) (date : Z) : DayRect :=
  {| rect_class :=
       match data !! D3.timeFormat_Ymd date with
       | Some e => "day color" +:+ JS.toString (Z.max 0 (Z.min 9 (Value e / 10)))
       | None => "day"
       end;
     rect_width := 17; rect_height := 17;
     rect_x := getX 17 date; rect_y := getY 17 date;
     rect_datum := D3.timeFormat_Ymd date;
     rect_titles :=
       [{| title_datum := D3.timeFormat_Ymd date;
           title_text :=
             match data !! D3.timeFormat_Ymd date with
             | Some e => D3.timeFormat_Ymd date +:+ ": " +:+ Name e
             | None => D3.timeFormat_Ymd date
             end |}] |}.

Definition yearGrid (data : gmap string Entry) (year : Z) : YearSvg :=
  {| svg_datum := year; svg_width := 960; svg_height := 136;
     svg_class := "year";
     g_translate := ((inject_Z (960 - 17 * 53) / 2)%Q, inject_Z (136 - 17 * 7 - 1));
     g_texts := [{| text_translate := (inject_Z (-6), (inject_Z (17 * 7) / 2)%Q);
                    text_rotate := -90; text_anchor := "middle";
                    text_content := JS.toString year |}];
     g_days := dayCell data <$> getAllDaysInYear year;
     g_months :=
       (fun month => {| path_class := "month"; path_datum := month;
                        path_d := getPathDescriptionForMonth 17 month |})
         <$> getAllMonthsInYear year |}.

Lemma restyled_days data year :
  restyleRect data <$> (withTitle <$> (dayRect 17 <$> getAllDaysInYear year))
  = dayCell data <$> getAllDaysInYear year.
Proof.
  rewrite <- !list_fmap_compose. apply list_fmap_ext. intros _ date _.
  apply restyleRect_created.
Qed.

Lemma mapDays_yearGroup data year :
  mapDays (restyleRect data) (yearGroup 960 136 17 year) = yearGrid data year.
Proof.
  unfold mapDays. rewrite g_days_yearGroup, restyled_days. reflexivity.
Qed.

Lemma svg_datum_yearGrid data year : svg_datum (yearGrid data year) = year.
Proof. reflexivity. Qed.

Lemma g_days_yearGrid data year :
  g_days (yearGrid data year) = dayCell data <$> getAllDaysInYear year.
Proof. reflexivity. Qed.

Lemma g_months_yearGrid data year :
  g_months (yearGrid data year) = monthPath 17 <$> getAllMonthsInYear year.
Proof. reflexivity. Qed.

(** On an empty [#calendar], [render] leaves the grids of the years. *)
Lemma render_fresh data p :
  calendar p = Some [] ->
  exists p', render data p = Returned () p'
    /\ calendar p' = Some (yearGrid data <$> calendarYears).
Proof.
  intros Hc. destruct (render_calendar data p [] Hc) as (p' & svgs & E & Hc' & Hl).
  exists p'. split; [exact E|]. rewrite Hc'. f_equal.
  destruct (render_groups data p [] Hc) as (p'' & E' & A & _).
  rewrite E in E'. injection E' as <-.
  apply list_eq. intros i.
  rewrite <- (calendar_groups p' svgs Hc'), A, list_lookup_fmap.
  rewrite decide_True by (cbn [length]; lia).
  destruct (calendarYears !! i) as [year|] eqn:Hy.
  - rewrite (group_at_built_new p [] i year ltac:(cbn [length]; lia) Hy).
    cbn [fmap option_fmap option_map]. rewrite mapDays_yearGroup. reflexivity.
  - assert (N : group_at i p' = None).
    { rewrite (calendar_groups p' svgs Hc'). apply lookup_ge_None.
      apply lookup_ge_None in Hy. change (length calendarYears) with 84%nat in Hy.
      cbn [length] in Hl. lia. }
    rewrite A, decide_True in N by (cbn [length]; lia). rewrite N. reflexivity.
Qed.

(** The grids of the years 2016 to 2099 hold a rectangle for each day of
    the year and a path for each month. *)
Lemma yearGrid_counts data year :
  2016 <= year <= 2099 ->
  length (g_days (yearGrid data year))
  = (if isLeapYear year then 366 else 365)%nat
  /\ length (g_months (yearGrid data year)) = 12%nat.
Proof.
  intros Hy. rewrite g_days_yearGrid, g_months_yearGrid, !length_fmap.
  split.
  - destruct (YearClaims.getAllDaysInYear_enumerates year) as [(L & _) _];
      [lia | lia | exact L].
  - rewrite getAllMonthsInYear_eq by lia. reflexivity.
Qed.

End FreshFacts.

(** ** Statements *)

Module MonthsClaims.
Import JSDate JSDateFacts Calendar CalendarSpec GridFacts YearFacts MonthFacts.
Import MonthsOfYear.

(** X1.  For every year y outside -1..99 (and inside the years a Date can
    hold), the months of the year are twelve dates: the k-th of them
    (k = 0 .. 11) is the first day of month k of year y; all of them are
    days a Date can hold. *)
Theorem getAllMonthsInYear_enumerates (y : Z) :
  y < -1 \/ 99 < y -> -271820 <= y <= 275759 ->
  length (getAllMonthsInYear y) = 12%nat
  /\ (forall (k : nat) month,
        getAllMonthsInYear y !! k = Some month ->
        getFullYear month = y /\ getMonth month = Z.of_nat k
        /\ getDate month = 1)
  /\ (forall month, month ∈ getAllMonthsInYear y ->
        -100000000 <= month <= 100000000).
Proof.
  intros Hy Hr. rewrite (getAllMonthsInYear_eq y Hy).
  assert (K : forall (k : nat) month,
             ((fun m => MakeDay y m 1) <$> D3.range 0 12) !! k = Some month ->
             (k < 12)%nat /\ month = MakeDay y (Z.of_nat k) 1).
  { intros k month H. apply list_lookup_fmap_Some in H as (m & -> & H).
    unfold D3.range in H. change (Z.to_nat (Z.max 0 (12 - 0))) with 12%nat in H.
    apply (list_lookup_fmap_Some (fun i => 0 + Z.of_nat i)) in H as (i & -> & H).
    apply lookup_seq in H as [-> Hk]. split; [exact Hk|]. reflexivity. }
  split; [reflexivity|]. split.
  - intros k month H. apply K in H as [Hk ->]. apply monthStart_fields. lia.
  - intros month H. apply list_elem_of_lookup in H as [k H].
    apply K in H as [Hk ->].
    pose proof (monthStart_before_next_year y (Z.of_nat k) ltac:(lia)) as Hi.
    assert (Lo : MakeDay y 0 1 <= MakeDay y (Z.of_nat k) 1).
    { rewrite !MakeDay_in_range by lia.
      pose proof (InLeapYear_01 y) as Hl. set (l := InLeapYear y) in *. clearbody l.
      set (m := Z.of_nat k) in *. assert (Hm : 0 <= m <= 11) by lia. clearbody m.
      month_cases m; tables; lia. }
    rewrite !MakeDay_in_range in * by lia.
    change (DaysBeforeMonth _ 0) with 0 in *.
    pose proof (DayFromYear_mono (-271820) y ltac:(lia)) as L1.
    pose proof (DayFromYear_mono (y + 1) 275760 ltac:(lia)) as L2.
    change (DayFromYear (-271820)) with (-99999744) in L1.
    change (DayFromYear 275760) with 99999744 in L2. lia.
Qed.

(** The year 2016 as an instance. *)
Lemma getAllMonthsInYear_enumerates_2016 :
  (2016 < -1 \/ 99 < 2016) /\ -271820 <= 2016 <= 275759
  /\ length (getAllMonthsInYear 2016) = 12%nat
  /\ (forall (k : nat) month,
        getAllMonthsInYear 2016 !! k = Some month ->
        getFullYear month = 2016 /\ getMonth month = Z.of_nat k
        /\ getDate month = 1)
  /\ (forall month, month ∈ getAllMonthsInYear 2016 ->
        -100000000 <= month <= 100000000).
Proof.
  split; [lia|]. split; [lia|].
  apply (getAllMonthsInYear_enumerates 2016); lia.
Defined.

End MonthsClaims.

Module CellClaims.
Import JSDate JSDateFacts Calendar CalendarSpec GridFacts YearFacts MonthFacts.
Import Svg Outline CellFacts.

(** X2.  Within one year the grid is filled column by column, from top to
    bottom: a date is earlier than another exactly when it is in an earlier
    week column, or in the same column on an earlier row; and the day after
    a date is on the next row of the same column, or, after a Saturday, on
    the first row of the next column. *)
Theorem grid_is_column_major (d1 d2 : Z) :
  getFullYear d1 = getFullYear d2 ->
  (d1 < d2 <->
   getWeekNumber d1 < getWeekNumber d2
   \/ (getWeekNumber d1 = getWeekNumber d2 /\ getDayNumber d1 < getDayNumber d2))
  /\ (d2 = d1 + 1 ->
      if getDayNumber d1 =? 6
      then getWeekNumber d2 = getWeekNumber d1 + 1 /\ getDayNumber d2 = 0
      else getWeekNumber d2 = getWeekNumber d1
           /\ getDayNumber d2 = getDayNumber d1 + 1).
Proof.
  intros Hy. rewrite !getWeekNumber_eq, Hy. unfold getDayNumber, getDay.
  set (j := (DayFromYear (getFullYear d2) + 4) / 7). clearbody j.
  split.
  - Z.div_mod_to_equations. lia.
  - intros ->. destruct (Z.eqb_spec ((d1 + 4) mod 7) 6);
      Z.div_mod_to_equations; lia.
Qed.

(** Friday 1 and Saturday 2 January 2016, as an instance. *)
Lemma grid_is_column_major_january_2016 :
  getFullYear 16801 = getFullYear 16802
  /\ (16801 < 16802 <->
      getWeekNumber 16801 < getWeekNumber 16802
      \/ (getWeekNumber 16801 = getWeekNumber 16802
          /\ getDayNumber 16801 < getDayNumber 16802))
  /\ (16802 = 16801 + 1 ->
      if getDayNumber 16801 =? 6
      then getWeekNumber 16802 = getWeekNumber 16801 + 1 /\ getDayNumber 16802 = 0
      else getWeekNumber 16802 = getWeekNumber 16801
           /\ getDayNumber 16802 = getDayNumber 16801 + 1).
Proof.
  split; [vm_compute; reflexivity|].
  apply (grid_is_column_major 16801 16802). vm_compute. reflexivity.
Defined.



(** X4.  For the first day of a month of a year outside 0..99 and a
    positive cell size whose products are exact, the path of the month is
    well formed and closed (the pen ends where it started), and by the
    even-odd rule on the segments it draws every point strictly inside the
    square of a date of that year is inside the path when the date is in
    that month, and outside it when the date is in another month. *)
Theorem month_outline_encloses_its_days (cellSize month : Z) :
  0 < cellSize -> 54 * cellSize <= JS.MAX_SAFE_INTEGER -> getDate month = 1 ->
  getFullYear month < 0 \/ 99 < getFullYear month ->
  exists vs,
    pathPoints (getPathDescriptionForMonth cellSize month) = Some vs
    /\ head vs = last vs
    /\ forall d, getFullYear d = getFullYear month ->
         (getMonth d = getMonth month ->
          enclosesBox vs (getX cellSize d) (getY cellSize d) cellSize cellSize)
         /\ (getMonth d <> getMonth month ->
             excludesBox vs (getX cellSize d) (getY cellSize d) cellSize cellSize).
Proof. intros Hcs _ D1 Hy. apply outline_encloses; assumption. Qed.

(** January 2016 with cells of 17 pixels, as an instance. *)
Lemma month_outline_encloses_january_2016 :
  0 < 17 /\ 54 * 17 <= JS.MAX_SAFE_INTEGER /\ getDate 16801 = 1
  /\ (getFullYear 16801 < 0 \/ 99 < getFullYear 16801)
  /\ exists vs,
       pathPoints (getPathDescriptionForMonth 17 16801) = Some vs
       /\ head vs = last vs
       /\ forall d, getFullYear d = getFullYear 16801 ->
            (getMonth d = getMonth 16801 ->
             enclosesBox vs (getX 17 d) (getY 17 d) 17 17)
            /\ (getMonth d <> getMonth 16801 ->
                excludesBox vs (getX 17 d) (getY 17 d) 17 17).
Proof.
  assert (H0 : 54 * 17 <= JS.MAX_SAFE_INTEGER) by (vm_compute; discriminate).
  assert (H1 : getDate 16801 = 1) by (vm_compute; reflexivity).
  assert (H2 : getFullYear 16801 < 0 \/ 99 < getFullYear 16801)
    by (right; vm_compute; reflexivity).
  split; [lia|]. split; [exact H0|]. split; [exact H1|]. split; [exact H2|].
  apply (month_outline_encloses_its_days 17 16801);
    [lia | exact H0 | exact H1 | exact H2].
Defined.

End CellClaims.

Module DataClaims.
Import JSDate Calendar PageFacts DataFacts.

(** X5.  The transformation of the CSV rows returns a map that has, for
    each date, the [Value] and [Name] of the first row with that date, and
    nothing for a date no row has; the map is written to the console once
    and the document is not touched. *)
Theorem transformCsvData_first_row_wins (csv : list CsvRow) (p : page) :
  exists m,
    transformCsvData csv p
    = Returned m {| calendar := calendar p; console := console p ++ [m] |}
    /\ forall date,
         m !! date
         = (fun row => {| Value := row_Value row; Name := row_Name row |})
             <$> head (filter (fun row => row_Date row = date) csv).
Proof.
  exists (nest_map csv). split; [reflexivity|].
  intros date. apply (nest_fold_lookup csv date csv).
Qed.

(** X6.  The class of a day whose date is a key of the data is
    "day color" followed by the tenth its value falls in, from 0 for values
    below 10 (negative ones too) to 9 for values from 90 on (also above
    100); for a date that is no key of the data there is no class: reading
    the [Value] of the missing entry throws. *)
Theorem getRectClass_bucket (data : gmap string Entry) (dateString : string) :
  getRectClass data dateString
  = (fun e => "day color" +:+ JS.toString (Z.max 0 (Z.min 9 (Value e / 10))))
      <$> data !! dateString.
Proof. apply getRectClass_eq. Qed.

End DataClaims.

Module RenderClaims.
Import JSDate JSDateFacts Calendar CalendarSpec PageFacts DataFacts RestyleFacts.
Import RenderFacts RenderMore FreshFacts.

(** C10, as the claim states it, fails on a page that has no [#calendar]
    element: [render] returns and has built no grid.  It fails too where
    [#calendar] holds an [<svg>] already: that element takes the place of
    the year 2016, whose grid is not built. *)
Lemma render_builds_no_grid_without_calendar :
  render ∅ {| calendar := None; console := [] |}
  = Returned () {| calendar := None; console := [] |}
  /\ ~ (exists p' svgs,
         render ∅ {| calendar := None; console := [] |} = Returned () p'
         /\ calendar p' = Some svgs
         /\ svg_datum <$> svgs = D3.range 2016 2100)
  /\ exists p' svgs,
       render ∅ {| calendar := Some [bareSvg]; console := [] |} = Returned () p'
       /\ calendar p' = Some svgs
       /\ svgs !! 0%nat = Some (set_svg_datum 2016 bareSvg)
       /\ g_days (set_svg_datum 2016 bareSvg) = [].
Proof.
  split; [reflexivity|]. split.
  - intros (p' & svgs & E & C & _).
    rewrite render_without_calendar in E by reflexivity.
    injection E as <-. discriminate C.
  - set (p := {| calendar := Some [bareSvg]; console := [] |}).
    destruct (render_calendar ∅ p [bareSvg] eq_refl) as (p' & svgs & E & Hc' & _).
    exists p', svgs. split; [exact E|]. split; [exact Hc'|]. split; [|reflexivity].
    destruct (render_groups ∅ p [bareSvg] eq_refl) as (p'' & E' & A & _).
    rewrite E in E'. injection E' as <-.
    rewrite <- (calendar_groups p' svgs Hc'), A.
    rewrite decide_False by (cbn [length]; lia).
    rewrite (group_at_built_old p [bareSvg] 0) by (cbn [length]; lia).
    reflexivity.
Qed.

(** C10, amended.  On a page whose [#calendar] holds no [<svg>] yet,
    [render] returns, whatever the data, and leaves in [#calendar] the
    grids of the years 2016 .. 2099, one for each year, in this order, 84
    in all, and of no other year.  The grid of a year is the [<svg>] of
    class "year", 960 by 136, with the year as its data, whose group holds
    the text of the year, one rectangle for each day of the year (365, or
    366 in a leap year), styled by the data, and one outline path for each
    of the twelve months. *)
Theorem render_year_grids (data : gmap string Entry) (p : page) :
  calendar p = Some [] ->
  exists p' svgs,
    render data p = Returned () p' /\ calendar p' = Some svgs
    /\ svgs
       = (fun year =>
            {| svg_datum := year; svg_width := 960; svg_height := 136;
               svg_class := "year";
               g_translate :=
                 ((inject_Z (960 - 17 * 53) / 2)%Q, inject_Z (136 - 17 * 7 - 1));
               g_texts :=
                 [{| text_translate := (inject_Z (-6), (inject_Z (17 * 7) / 2)%Q);
                     text_rotate := -90; text_anchor := "middle";
                     text_content := JS.toString year |}];
               g_days :=
                 (fun date =>
                    {| rect_class :=
                         match data !! D3.timeFormat_Ymd date with
                         | Some e =>
                             "day color"
                             +:+ JS.toString (Z.max 0 (Z.min 9 (Value e / 10)))
                         | None => "day"
                         end;
                       rect_width := 17; rect_height := 17;
                       rect_x := getX 17 date; rect_y := getY 17 date;
                       rect_datum := D3.timeFormat_Ymd date;
                       rect_titles :=
                         [{| title_datum := D3.timeFormat_Ymd date;
                             title_text :=
                               match data !! D3.timeFormat_Ymd date with
                               | Some e =>
                                   D3.timeFormat_Ymd date +:+ ": " +:+ Name e
                               | None => D3.timeFormat_Ymd date
                               end |}] |})
                   <$> getAllDaysInYear year;
               g_months :=
                 (fun month =>
                    {| path_class := "month"; path_datum := month;
                       path_d := getPathDescriptionForMonth 17 month |})
                   <$> getAllMonthsInYear year |})
           <$> D3.range 2016 2100
    /\ svg_datum <$> svgs = D3.range 2016 2100
    /\ length svgs = 84%nat
    /\ (forall y, y ∈ (svg_datum <$> svgs) <-> 2016 <= y <= 2099)
    /\ (forall g, g ∈ svgs ->
          length (g_days g)
          = (if isLeapYear (svg_datum g) then 366 else 365)%nat
          /\ length (g_months g) = 12%nat).
Proof.
  intros Hc. destruct (render_fresh data p Hc) as (p' & E & Hc').
  exists p', (yearGrid data <$> calendarYears).
  split; [exact E|]. split; [exact Hc'|]. split; [reflexivity|].
  assert (Y : svg_datum <$> (yearGrid data <$> calendarYears) = D3.range 2016 2100).
  { rewrite <- list_fmap_compose.
    transitivity (id <$> calendarYears); [|apply list_fmap_id].
    apply list_fmap_ext. intros _ year _. reflexivity. }
  split; [exact Y|]. split; [rewrite length_fmap; reflexivity|]. split.
  - intros y. rewrite Y, elem_of_range. lia.
  - intros g Hg. apply list_elem_of_fmap in Hg as (year & -> & Hy).
    rewrite svg_datum_yearGrid. apply yearGrid_counts.
    apply elem_of_range in Hy. lia.
Qed.

(** The empty [#calendar] and the empty data, as an instance. *)
Lemma render_year_grids_empty_page :
  calendar {| calendar := Some []; console := [] |} = Some []
  /\ exists p' svgs,
       render ∅ {| calendar := Some []; console := [] |} = Returned () p'
       /\ calendar p' = Some svgs
       /\ svgs
          = (fun year =>
               {| svg_datum := year; svg_width := 960; svg_height := 136;
                  svg_class := "year";
                  g_translate :=
                    ((inject_Z (960 - 17 * 53) / 2)%Q, inject_Z (136 - 17 * 7 - 1));
                  g_texts :=
                    [{| text_translate :=
                          (inject_Z (-6), (inject_Z (17 * 7) / 2)%Q);
                        text_rotate := -90; text_anchor := "middle";
                        text_content := JS.toString year |}];
                  g_days :=
                    (fun date =>
                       {| rect_class :=
                            match (∅ : gmap string Entry) !! D3.timeFormat_Ymd date with
                            | Some e =>
                                "day color"
                                +:+ JS.toString (Z.max 0 (Z.min 9 (Value e / 10)))
                            | None => "day"
                            end;
                          rect_width := 17; rect_height := 17;
                          rect_x := getX 17 date; rect_y := getY 17 date;
                          rect_datum := D3.timeFormat_Ymd date;
                          rect_titles :=
                            [{| title_datum := D3.timeFormat_Ymd date;
                                title_text :=
                                  match (∅ : gmap string Entry)
                                        !! D3.timeFormat_Ymd date with
                                  | Some e =>
                                      D3.timeFormat_Ymd date +:+ ": " +:+ Name e
                                  | None => D3.timeFormat_Ymd date
                                  end |}] |})
                      <$> getAllDaysInYear year;
                  g_months :=
                    (fun month =>
                       {| path_class := "month"; path_datum := month;
                          path_d := getPathDescriptionForMonth 17 month |})
                      <$> getAllMonthsInYear year |})
              <$> D3.range 2016 2100
       /\ svg_datum <$> svgs = D3.range 2016 2100
       /\ length svgs = 84%nat
       /\ (forall y, y ∈ (svg_datum <$> svgs) <-> 2016 <= y <= 2099)
       /\ (forall g, g ∈ svgs ->
             length (g_days g)
             = (if isLeapYear (svg_datum g) then 366 else 365)%nat
             /\ length (g_months g) = 12%nat).
Proof.
  split; [reflexivity|].
  apply (render_year_grids ∅ {| calendar := Some []; console := [] |}).
  reflexivity.
Defined.

(** X7.  The update pass always returns.  A rectangle of the selection
    whose date string is a key of the data gets the class "day color"
    followed by the tenth of the entry's value, and its first title, if it
    has one, takes the date string as its data and "date: name" as its
    text; every other rectangle, in the selection or not, is left as it
    was, none appears or disappears, and the console receives nothing but
    copies of the data. *)
Theorem updateClassAndTitle_restyles_matched
    (data : gmap string Entry) (dayRects : list (nat * nat)) (p : page) :
  exists p',
    updateClassAndTitleForDayRects data dayRects p = Returned () p'
    /\ (forall path,
          rect_at path p'
          = if decide (path ∈ dayRects)
            then (fun r =>
                    match data !! rect_datum r with
                    | Some e =>
                        {| rect_class :=
                             "day color"
                             +:+ JS.toString (Z.max 0 (Z.min 9 (Value e / 10)));
                           rect_width := rect_width r;
                           rect_height := rect_height r;
                           rect_x := rect_x r; rect_y := rect_y r;
                           rect_datum := rect_datum r;
                           rect_titles :=
                             match rect_titles r with
                             | first :: others =>
                                 {| title_datum := rect_datum r;
                                    title_text :=
                                      rect_datum r +:+ ": " +:+ Name e |}
                                 :: others
                             | [] => []
                             end |}
                    | None => r
                    end) <$> rect_at path p
            else rect_at path p)
    /\ exists n, console p' = console p ++ replicate n data.
Proof. apply updateClassAndTitle_rects. Qed.

(** X8.  On a page whose [#calendar] holds [svgs], [render] returns, and
    for every year it makes a grid for (the year at a position past
    [svgs]) and every date of that year the rectangle of the date is in
    the grid, 17 by 17 pixels at the grid position of the date, with the
    formatted date as its data and one title; class and title text are
    "day colorN" and "date: name" from the entry of the date if the data
    has one, and "day" and the date string if not. *)
Theorem render_day_cells (data : gmap string Entry) (p : page)
    (svgs : list YearSvg) :
  calendar p = Some svgs ->
  exists p',
    render data p = Returned () p'
    /\ forall (i k : nat) year date,
         (length svgs <= i)%nat ->
         D3.range 2016 2100 !! i = Some year ->
         getAllDaysInYear year !! k = Some date ->
         rect_at (i, k) p'
         = Some
             {| rect_class :=
                  match data !! D3.timeFormat_Ymd date with
                  | Some e =>
                      "day color" +:+ JS.toString (Z.max 0 (Z.min 9 (Value e / 10)))
                  | None => "day"
                  end;
                rect_width := 17; rect_height := 17;
                rect_x := getX 17 date; rect_y := getY 17 date;
                rect_datum := D3.timeFormat_Ymd date;
                rect_titles :=
                  [{| title_datum := D3.timeFormat_Ymd date;
                      title_text :=
                        match data !! D3.timeFormat_Ymd date with
                        | Some e => D3.timeFormat_Ymd date +:+ ": " +:+ Name e
                        | None => D3.timeFormat_Ymd date
                        end |}] |}.
Proof.
  intros Hc. destruct (render_rects data p svgs Hc) as (p' & E & A & _).
  exists p'. split; [exact E|]. intros i k year date Hi Hy Hd.
  rewrite A, decide_True by exact Hi.
  rewrite (rect_at_built_lookup p svgs i k year date Hi Hy Hd).
  cbn [fmap option_fmap option_map]. f_equal. apply restyleRect_created.
Qed.

(** The empty [#calendar] and the empty data, as an instance. *)
Lemma render_day_cells_empty_page :
  calendar {| calendar := Some []; console := [] |} = Some []
  /\ exists p',
       render ∅ {| calendar := Some []; console := [] |} = Returned () p'
       /\ forall (i k : nat) year date,
            (length (@nil YearSvg) <= i)%nat ->
            D3.range 2016 2100 !! i = Some year ->
            getAllDaysInYear year !! k = Some date ->
            rect_at (i, k) p'
            = Some
                {| rect_class :=
                     match (∅ : gmap string Entry) !! D3.timeFormat_Ymd date with
                     | Some e =>
                         "day color"
                         +:+ JS.toString (Z.max 0 (Z.min 9 (Value e / 10)))
                     | None => "day"
                     end;
                   rect_width := 17; rect_height := 17;
                   rect_x := getX 17 date; rect_y := getY 17 date;
                   rect_datum := D3.timeFormat_Ymd date;
                   rect_titles :=
                     [{| title_datum := D3.timeFormat_Ymd date;
                         title_text :=
                           match (∅ : gmap string Entry) !! D3.timeFormat_Ymd date with
                           | Some e => D3.timeFormat_Ymd date +:+ ": " +:+ Name e
                           | None => D3.timeFormat_Ymd date
                           end |}] |}.
Proof.
  split; [reflexivity|].
  apply (render_day_cells ∅ {| calendar := Some []; console := [] |} []).
  reflexivity.
Defined.

(** X9.  Each grid [render] makes is an [<svg class="year">] of 960 by
    136 pixels with the year as its data, whose group is centred on a grid
    of 53 columns, and holds one text with the year, turned by -90 degrees
    left of the grid, one month path for each month of the year with the
    month's outline as its description, and as many day rectangles as the
    year has days. *)
Theorem render_year_grid (data : gmap string Entry) (p : page)
    (svgs : list YearSvg) :
  calendar p = Some svgs ->
  exists p',
    render data p = Returned () p'
    /\ forall (i : nat) year,
         (length svgs <= i)%nat ->
         D3.range 2016 2100 !! i = Some year ->
         exists g,
           group_at i p' = Some g
           /\ svg_datum g = year /\ svg_width g = 960 /\ svg_height g = 136
           /\ svg_class g = "year"
           /\ g_translate g
              = ((inject_Z (960 - 17 * 53) / 2)%Q, inject_Z (136 - 17 * 7 - 1))
           /\ g_texts g
              = [{| text_translate := (inject_Z (-6), (inject_Z (17 * 7) / 2)%Q);
                    text_rotate := -90; text_anchor := "middle";
                    text_content := JS.toString year |}]
           /\ g_months g
              = (fun month =>
                   {| path_class := "month"; path_datum := month;
                      path_d := getPathDescriptionForMonth 17 month |})
                  <$> getAllMonthsInYear year
           /\ length (g_days g) = length (getAllDaysInYear year).
Proof.
  intros Hc. destruct (render_groups data p svgs Hc) as (p' & E & A & _).
  exists p'. split; [exact E|]. intros i year Hi Hy.
  exists (mapDays (restyleRect data) (yearGroup 960 136 17 year)). split.
  - rewrite A, decide_True by exact Hi.
    rewrite (group_at_built_new p svgs i year Hi Hy). reflexivity.
  - repeat split. unfold mapDays. cbn [g_days set_g_days yearGroup].
    rewrite !length_fmap. reflexivity.
Qed.

(** The empty [#calendar] and the empty data, as an instance. *)
Lemma render_year_grid_empty_page :
  calendar {| calendar := Some []; console := [] |} = Some []
  /\ exists p',
       render ∅ {| calendar := Some []; console := [] |} = Returned () p'
       /\ forall (i : nat) year,
            (length (@nil YearSvg) <= i)%nat ->
            D3.range 2016 2100 !! i = Some year ->
            exists g,
              group_at i p' = Some g
              /\ svg_datum g = year /\ svg_width g = 960 /\ svg_height g = 136
              /\ svg_class g = "year"
              /\ g_translate g
                 = ((inject_Z (960 - 17 * 53) / 2)%Q, inject_Z (136 - 17 * 7 - 1))
              /\ g_texts g
                 = [{| text_translate := (inject_Z (-6), (inject_Z (17 * 7) / 2)%Q);
                       text_rotate := -90; text_anchor := "middle";
                       text_content := JS.toString year |}]
              /\ g_months g
                 = (fun month =>
                      {| path_class := "month"; path_datum := month;
                         path_d := getPathDescriptionForMonth 17 month |})
                     <$> getAllMonthsInYear year
              /\ length (g_days g) = length (getAllDaysInYear year).
Proof.
  split; [reflexivity|].
  apply (render_year_grid ∅ {| calendar := Some []; console := [] |} []).
  reflexivity.
Defined.

(** X10.  [render] joins the years to the [<svg>] elements of
    [#calendar] by position: an element that was there is left as it was,
    with all it holds, but for its data, which becomes the year of its
    position if there is one; the grids of the years left over are added
    after them, so that the page ends with 84 elements, or with as many as
    it had if it had more. *)
Theorem render_keeps_existing_svgs (data : gmap string Entry) (p : page)
    (svgs : list YearSvg) :
  calendar p = Some svgs ->
  exists p' svgs',
    render data p = Returned () p' /\ calendar p' = Some svgs'
    /\ length svgs' = Nat.max (length svgs) 84
    /\ forall (i : nat) g,
         svgs !! i = Some g ->
         svgs' !! i
         = Some (match D3.range 2016 2100 !! i with
                 | Some year => set_svg_datum year g
                 | None => g
                 end).
Proof.
  intros Hc. destruct (render_calendar data p svgs Hc) as (p' & svgs' & E & Hc' & Hl).
  exists p', svgs'. split; [exact E|]. split; [exact Hc'|]. split; [exact Hl|].
  intros i g Hg. destruct (render_groups data p svgs Hc) as (p'' & E' & A & _).
  rewrite E in E'. injection E' as <-.
  rewrite <- (calendar_groups p' svgs' Hc'), A.
  pose proof (lookup_lt_Some _ _ _ Hg) as Hi.
  rewrite decide_False by lia.
  rewrite (group_at_built_old p svgs i Hi), Hg. cbn [fmap option_fmap option_map].
  reflexivity.
Qed.

(** A [#calendar] that holds one bare [<svg>] already, as an instance:
    that element gets the year 2016 as data, and the grids of 2017 .. 2099
    follow it. *)
Lemma render_keeps_existing_svgs_one_svg :
  calendar {| calendar := Some [bareSvg]; console := [] |} = Some [bareSvg]
  /\ exists p' svgs',
       render ∅ {| calendar := Some [bareSvg]; console := [] |} = Returned () p'
       /\ calendar p' = Some svgs'
       /\ length svgs' = Nat.max (length [bareSvg]) 84
       /\ forall (i : nat) g,
            [bareSvg] !! i = Some g ->
            svgs' !! i
            = Some (match D3.range 2016 2100 !! i with
                    | Some year => set_svg_datum year g
                    | None => g
                    end).
Proof.
  split; [reflexivity|].
  apply (render_keeps_existing_svgs ∅
           {| calendar := Some [bareSvg]; console := [] |} [bareSvg]).
  reflexivity.
Defined.

End RenderClaims.

Module PipelineClaims.
Import JSDate JSDateFacts Calendar CalendarSpec PageFacts DataFacts RestyleFacts.
Import RenderFacts RenderMore AgainFacts.

(** X11.  [render] returns from every page, and a second [render] on the
    page it leaves, with whatever data, changes nothing: no element is
    added, no rectangle is restyled, nothing is logged. *)
Theorem render_again_changes_nothing (data1 data2 : gmap string Entry) (p : page) :
  exists p1, render data1 p = Returned () p1 /\ render data2 p1 = Returned () p1.
Proof.
  destruct (calendar p) as [svgs|] eqn:Hc.
  - destruct (render_calendar data1 p svgs Hc) as (p1 & svgs1 & E & Hc1 & Hl).
    exists p1. split; [exact E|].
    apply (render_fixed data2 p1 svgs1 Hc1); [lia|].
    apply (render_years data1 p svgs p1 svgs1 Hc E Hc1).
  - exists p. split; apply render_without_calendar; exact Hc.
Qed.

(** X12.  On a page without a [#calendar] element nothing is drawn and
    nothing is thrown: [render] leaves the page as it is, and the load
    callback only logs the transformed rows. *)
Theorem render_without_container (data : gmap string Entry) (csv : list CsvRow)
    (p : page) :
  calendar p = None ->
  render data p = Returned () p
  /\ csv_callback None csv p
     = Returned () {| calendar := None; console := console p ++ [nest_map csv] |}.
Proof.
  intros Hc. split; [apply render_without_calendar; exact Hc|].
  unfold csv_callback, transformCsvData. cbv zeta.
  erewrite bind_returned; [|erewrite bind_returned; reflexivity].
  rewrite render_without_calendar by exact Hc. rewrite Hc. reflexivity.
Qed.

(** A page with no [#calendar], as an instance. *)
Lemma render_without_container_blank_page :
  calendar {| calendar := None; console := [] |} = None
  /\ render ∅ {| calendar := None; console := [] |}
     = Returned () {| calendar := None; console := [] |}
  /\ csv_callback None [] {| calendar := None; console := [] |}
     = Returned () {| calendar := None;
                      console := console {| calendar := None; console := [] |}
                                 ++ [nest_map []] |}.
Proof.
  split; [reflexivity|].
  apply (render_without_container ∅ [] {| calendar := None; console := [] |}).
  reflexivity.
Defined.

(** X14.  When the load succeeds on a page whose [#calendar] holds
    [svgs], the callback returns, and the rectangle of every date of every
    year it makes a grid for is styled from the first CSV row with that
    date: class "day colorN" for the tenth N of the row's value and title
    "date: name"; a date no row has keeps the class "day" and the date
    string as title. *)
Theorem csv_callback_styles_days (csv : list CsvRow) (p : page)
    (svgs : list YearSvg) :
  calendar p = Some svgs ->
  exists p',
    csv_callback None csv p = Returned () p'
    /\ forall (i k : nat) year date,
         (length svgs <= i)%nat ->
         D3.range 2016 2100 !! i = Some year ->
         getAllDaysInYear year !! k = Some date ->
         let s := D3.timeFormat_Ymd date in
         let first := head (filter (fun row => row_Date row = s) csv) in
         rect_at (i, k) p'
         = Some
             {| rect_class :=
                  match first with
                  | Some row =>
                      "day color"
                      +:+ JS.toString (Z.max 0 (Z.min 9 (row_Value row / 10)))
                  | None => "day"
                  end;
                rect_width := 17; rect_height := 17;
                rect_x := getX 17 date; rect_y := getY 17 date;
                rect_datum := s;
                rect_titles :=
                  [{| title_datum := s;
                      title_text :=
                        match first with
                        | Some row => s +:+ ": " +:+ row_Name row
                        | None => s
                        end |}] |}.
Proof.
  intros Hc. unfold csv_callback, transformCsvData. cbv zeta.
  erewrite bind_returned; [|erewrite bind_returned; reflexivity].
  match goal with |- context [render _ ?q] =>
    destruct (render_rects (nest_map csv) q svgs Hc) as (p' & E & A & _)
  end.
  exists p'. split; [exact E|]. intros i k year date Hi Hy Hd.
  rewrite A, decide_True by exact Hi.
  rewrite (rect_at_built_lookup _ svgs i k year date Hi Hy Hd).
  cbn [fmap option_fmap option_map]. f_equal. rewrite restyleRect_created.
  unfold nest_map. rewrite (nest_fold_lookup csv (D3.timeFormat_Ymd date) csv).
  destruct (head (filter _ csv)) as [row|]; reflexivity.
Qed.

(** The empty [#calendar] and no rows, as an instance. *)
Lemma csv_callback_styles_days_empty_page :
  calendar {| calendar := Some []; console := [] |} = Some []
  /\ exists p',
       csv_callback None [] {| calendar := Some []; console := [] |}
       = Returned () p'
       /\ forall (i k : nat) year date,
            (length (@nil YearSvg) <= i)%nat ->
            D3.range 2016 2100 !! i = Some year ->
            getAllDaysInYear year !! k = Some date ->
            let s := D3.timeFormat_Ymd date in
            let first := head (filter (fun row => row_Date row = s) []) in
            rect_at (i, k) p'
            = Some
                {| rect_class :=
                     match first with
                     | Some row =>
                         "day color"
                         +:+ JS.toString (Z.max 0 (Z.min 9 (row_Value row / 10)))
                     | None => "day"
                     end;
                   rect_width := 17; rect_height := 17;
                   rect_x := getX 17 date; rect_y := getY 17 date;
                   rect_datum := s;
                   rect_titles :=
                     [{| title_datum := s;
                         title_text :=
                           match first with
                           | Some row => s +:+ ": " +:+ row_Name row
                           | None => s
                           end |}] |}.
Proof.
  split; [reflexivity|].
  apply (csv_callback_styles_days [] {| calendar := Some []; console := [] |} []).
  reflexivity.
Defined.

End PipelineClaims.

Module FormatClaims.
Import JSDate JSDateFacts Calendar FormatFacts.

(** X13.  For dates of the years 0 to 9999 the data string of a day
    rectangle has ten characters and determines the date: two different
    dates never get the same string. *)
Theorem timeFormat_Ymd_determines_date (d1 d2 : Z) :
  0 <= getFullYear d1 <= 9999 -> 0 <= getFullYear d2 <= 9999 ->
  String.length (D3.timeFormat_Ymd d1) = 10%nat
  /\ (D3.timeFormat_Ymd d1 = D3.timeFormat_Ymd d2 -> d1 = d2).
Proof.
  intros H1 H2.
  destruct (format_parts d1 H1) as (E1 & LY1 & VY1 & LM1 & VM1 & LD1 & VD1).
  destruct (format_parts d2 H2) as (E2 & LY2 & VY2 & LM2 & VM2 & LD2 & VD2).
  rewrite E1, E2. split.
  - rewrite !append_length, LY1, LM1, LD1. reflexivity.
  - intros H.
    apply append_inj in H as [HY H]; [|congruence].
    apply (append_inj "-" "-") in H as [_ H]; [|reflexivity].
    apply append_inj in H as [HM H]; [|congruence].
    apply (append_inj "-" "-") in H as [_ HD]; [|reflexivity].
    apply date_of_fields.
    + rewrite <- VY1, <- VY2, HY. reflexivity.
    + assert (getMonth d1 + 1 = getMonth d2 + 1) by (rewrite <- VM1, <- VM2, HM; reflexivity).
      lia.
    + rewrite <- VD1, <- VD2, HD. reflexivity.
Qed.

(** 1 and 2 January 2016, as an instance. *)
Lemma timeFormat_Ymd_determines_date_2016 :
  0 <= getFullYear 16801 <= 9999 /\ 0 <= getFullYear 16802 <= 9999
  /\ String.length (D3.timeFormat_Ymd 16801) = 10%nat
  /\ (D3.timeFormat_Ymd 16801 = D3.timeFormat_Ymd 16802 -> 16801 = 16802).
Proof.
  assert (H1 : 0 <= getFullYear 16801 <= 9999) by (vm_compute; split; discriminate).
  assert (H2 : 0 <= getFullYear 16802 <= 9999) by (vm_compute; split; discriminate).
  split; [exact H1|]. split; [exact H2|].
  apply (timeFormat_Ymd_determines_date 16801 16802); [exact H1 | exact H2].
Defined.

End FormatClaims.

Module PictureClaims.
Import JSDate JSDateFacts Calendar CalendarSpec GridFacts YearFacts MonthFacts.
Import Svg Outline PageFacts DataFacts RestyleFacts RenderFacts RenderMore.
Import MonthsOfYear CellFacts PictureFacts.

(** X15.  In a year grid [render] has made, no two day rectangles
    overlap: of two rectangles of the grid, one lies wholly to the left of
    the other or wholly above it. *)
Theorem render_cells_do_not_overlap (data : gmap string Entry) (p : page)
    (svgs : list YearSvg) :
  calendar p = Some svgs ->
  exists p',
    render data p = Returned () p'
    /\ forall (i k1 k2 : nat) r1 r2,
         (length svgs <= i)%nat -> k1 <> k2 ->
         rect_at (i, k1) p' = Some r1 -> rect_at (i, k2) p' = Some r2 ->
         rect_x r1 + rect_width r1 <= rect_x r2
         \/ rect_x r2 + rect_width r2 <= rect_x r1
         \/ rect_y r1 + rect_height r1 <= rect_y r2
         \/ rect_y r2 + rect_height r2 <= rect_y r1.
Proof.
  intros Hc. destruct (render_rect_inv data p svgs Hc) as (p' & E & R).
  exists p'. split; [exact E|]. intros i k1 k2 r1 r2 Hi Hk H1 H2.
  destruct (R i k1 r1 Hi H1) as (y1 & d1 & Hy1 & Hd1 & -> & -> & -> & ->).
  destruct (R i k2 r2 Hi H2) as (y2 & d2 & Hy2 & Hd2 & -> & -> & -> & ->).
  rewrite Hy1 in Hy2. injection Hy2 as <-.
  apply calendarYears_lookup in Hy1 as [Ey _].
  apply getAllDaysInYear_lookup in Hd1 as [E1 Y1]; [|lia].
  apply getAllDaysInYear_lookup in Hd2 as [E2 Y2]; [|lia].
  apply cells_apart; [lia | congruence | lia].
Qed.

(** The empty [#calendar] and the empty data, as an instance. *)
Lemma render_cells_do_not_overlap_empty_page :
  calendar {| calendar := Some []; console := [] |} = Some []
  /\ exists p',
       render ∅ {| calendar := Some []; console := [] |} = Returned () p'
       /\ forall (i k1 k2 : nat) r1 r2,
            (length (@nil YearSvg) <= i)%nat -> k1 <> k2 ->
            rect_at (i, k1) p' = Some r1 -> rect_at (i, k2) p' = Some r2 ->
            rect_x r1 + rect_width r1 <= rect_x r2
            \/ rect_x r2 + rect_width r2 <= rect_x r1
            \/ rect_y r1 + rect_height r1 <= rect_y r2
            \/ rect_y r2 + rect_height r2 <= rect_y r1.
Proof.
  split; [reflexivity|].
  apply (render_cells_do_not_overlap ∅ {| calendar := Some []; console := [] |} []).
  reflexivity.
Defined.

(** X16.  In a year grid [render] has made, the [j]-th month path
    (j = 0 .. 11) is well formed and closed, and by the even-odd rule on
    the segments it draws every point strictly inside the rectangle of a
    date of the grid is inside the path when the date is in month [j], and
    outside it when the date is in another month. *)
Theorem render_month_paths_enclose_their_days (data : gmap string Entry)
    (p : page) (svgs : list YearSvg) :
  calendar p = Some svgs ->
  exists p',
    render data p = Returned () p'
    /\ forall (i k j : nat) year date g r m,
         (length svgs <= i)%nat ->
         D3.range 2016 2100 !! i = Some year ->
         getAllDaysInYear year !! k = Some date ->
         group_at i p' = Some g -> g_days g !! k = Some r ->
         g_months g !! j = Some m ->
         exists vs,
           pathPoints (path_d m) = Some vs
           /\ head vs = last vs
           /\ (getMonth date = Z.of_nat j ->
               enclosesBox vs (rect_x r) (rect_y r) (rect_width r) (rect_height r))
           /\ (getMonth date <> Z.of_nat j ->
               excludesBox vs (rect_x r) (rect_y r) (rect_width r) (rect_height r)).
Proof.
  intros Hc. destruct (render_groups data p svgs Hc) as (p' & E & A & _).
  exists p'. split; [exact E|]. intros i k j year date g r m Hi Hy Hd Hg Hr Hm.
  rewrite A, decide_True in Hg by exact Hi.
  rewrite (group_at_built_new p svgs i year Hi Hy) in Hg.
  cbn [fmap option_fmap option_map] in Hg.
  assert (Eg : g = mapDays (restyleRect data) (yearGroup 960 136 17 year))
    by congruence.
  clear Hg. subst g.
  rewrite g_days_mapDays, g_days_yearGroup in Hr.
  rewrite g_months_mapDays, g_months_yearGroup in Hm.
  rewrite !list_lookup_fmap, Hd in Hr.
  cbn [fmap option_fmap option_map] in Hr.
  assert (Er : r = restyleRect data (withTitle (dayRect 17 date))) by congruence.
  clear Hr. subst r.
  apply list_lookup_fmap_Some in Hm as (month & -> & Hm).
  rewrite path_d_monthPath.
  destruct (restyleRect_box data (withTitle (dayRect 17 date))) as (-> & -> & -> & ->).
  destruct (rect_box_created 17 date) as (-> & -> & -> & ->).
  apply calendarYears_lookup in Hy as [Ey _].
  assert (Hyear : year < -1 \/ 99 < year) by lia.
  apply getAllDaysInYear_lookup in Hd as [_ Yd]; [|exact Hyear].
  rewrite (getAllMonthsInYear_eq year Hyear) in Hm.
  apply list_lookup_fmap_Some in Hm as (mi & -> & Hm).
  unfold D3.range in Hm. change (Z.to_nat (Z.max 0 (12 - 0))) with 12%nat in Hm.
  apply (list_lookup_fmap_Some (fun i => 0 + Z.of_nat i)) in Hm as (j' & -> & Hm).
  apply lookup_seq in Hm as [-> Hj]. rewrite Z.add_0_l.
  destruct (monthStart_fields year (Z.of_nat j) ltac:(lia)) as (Fy & Fm & Fd).
  destruct (outline_encloses 17 (MakeDay year (Z.of_nat j) 1))
    as (vs & Hvs & Hcl & Hin); [lia | exact Fd | rewrite Fy; lia |].
  exists vs. split; [exact Hvs|]. split; [exact Hcl|].
  rewrite <- Fm. apply Hin. congruence.
Qed.

(** The empty [#calendar] and the empty data, as an instance. *)
Lemma render_month_paths_enclose_empty_page :
  calendar {| calendar := Some []; console := [] |} = Some []
  /\ exists p',
       render ∅ {| calendar := Some []; console := [] |} = Returned () p'
       /\ forall (i k j : nat) year date g r m,
            (length (@nil YearSvg) <= i)%nat ->
            D3.range 2016 2100 !! i = Some year ->
            getAllDaysInYear year !! k = Some date ->
            group_at i p' = Some g -> g_days g !! k = Some r ->
            g_months g !! j = Some m ->
            exists vs,
              pathPoints (path_d m) = Some vs
              /\ head vs = last vs
              /\ (getMonth date = Z.of_nat j ->
                  enclosesBox vs (rect_x r) (rect_y r) (rect_width r) (rect_height r))
              /\ (getMonth date <> Z.of_nat j ->
                  excludesBox vs (rect_x r) (rect_y r) (rect_width r) (rect_height r)).
Proof.
  split; [reflexivity|].
  apply (render_month_paths_enclose_their_days ∅
           {| calendar := Some []; console := [] |} []).
  reflexivity.
Defined.

End PictureClaims.
